(** * SolarSynkV3: token acquisition and the per-inverter run

    A shallow embedding of [gettoken.py], [main.py], [utils.py] and
    [entity_manager.py].  Python functions become computations in a small
    monad that carries the store (the working directory's [settings.json]
    and the state of everything outside the process), collects the
    observable events of a run in order, and returns a value or a raised
    exception.  The modules [getapi], [postapi] and [settingsmanager], the
    [requests] and [cryptography] libraries, the clock and the file system
    are collaborators: they are fields of an environment record [Env] and
    every theorem holds for all of them. *)

From Stdlib Require Import String Ascii List ZArith Bool Arith Lia Permutation.
Import ListNotations.
Open Scope string_scope.
Open Scope list_scope.

Set Implicit Arguments.

(** ** Python values *)

(** The instances of [Exception], with the classes the [except] clauses of
    the sources tell apart.  [RequestsJSONDecodeError] is what
    [response.json()] raises: a subclass of both [RequestException] and
    [json.JSONDecodeError].  [SystemExit], which [load_settings] raises, is
    not an [Exception]: it is a way of its own for a computation to end
    (see [result]). *)
Inductive exn : Type :=
| Timeout
| ConnectionError (msg : string)
| HTTPError (status : Z)
| RequestsJSONDecodeError
| JSONDecodeError
| KeyError (key : string)
| TypeError (msg : string)
| AttributeError (msg : string)
| OSError (msg : string)
| OtherError (msg : string).

Definition is_Timeout (e : exn) : bool :=
  match e with Timeout => true | _ => false end.

Definition is_RequestException (e : exn) : bool :=
  match e with
  | Timeout | ConnectionError _ | HTTPError _ | RequestsJSONDecodeError => true
  | _ => false
  end.

Definition is_JSONDecodeError (e : exn) : bool :=
  match e with
  | JSONDecodeError | RequestsJSONDecodeError => true
  | _ => false
  end.

(** How a call of a library or of a collaborator ends: it returns a value
    or raises an [Exception]. *)
Inductive reply (A : Type) : Type :=
| Returns (a : A)
| Raises (e : exn).
Arguments Returns {A} a.
Arguments Raises {A} e.

(** How an embedded function ends: it returns, raises an [Exception], or
    leaves through [SystemExit(code)], which no [except Exception] clause
    catches. *)
Inductive result (A : Type) : Type :=
| Ok (a : A)
| Raise (e : exn)
| Exit (code : Z).
Arguments Ok {A} a.
Arguments Raise {A} e.
Arguments Exit {A} code.

Definition of_reply {A} (r : reply A) : result A :=
  match r with
  | Returns a => Ok a
  | Raises e => Raise e
  end.

(** Values parsed from JSON.  Numbers with a fraction or an exponent are
    left out: no field read by the code is one. *)
#[local] Unset Elimination Schemes.
Inductive json : Type :=
| JNull
| JBool (b : bool)
| JInt (z : Z)
| JStr (s : string)
| JArr (items : list json)
| JObj (fields : list (string * json)).
#[local] Set Elimination Schemes.

Fixpoint assoc (k : string) (fields : list (string * json)) : option json :=
  match fields with
  | [] => None
  | (k', v) :: rest => if String.eqb k k' then Some v else assoc k rest
  end.

(** [d[k]] *)
Definition py_getitem (d : json) (k : string) : reply json :=
  match d with
  | JObj fields =>
      match assoc k fields with
      | Some v => Returns v
      | None => Raises (KeyError k)
      end
  | _ => Raises (TypeError "indices must be integers")
  end.

(** [d.get(k)] *)
Definition py_get (d : json) (k : string) : reply json :=
  match d with
  | JObj fields =>
      match assoc k fields with
      | Some v => Returns v
      | None => Returns JNull
      end
  | _ => Raises (AttributeError "get")
  end.

(** [v == s] for a string literal [s] *)
Definition py_eq_str (v : json) (s : string) : bool :=
  match v with
  | JStr s' => String.eqb s' s
  | _ => false
  end.

(** [bool(v)] *)
Definition py_truthy (v : json) : bool :=
  match v with
  | JNull => false
  | JBool b => b
  | JInt z => negb (Z.eqb z 0)
  | JStr s => negb (String.eqb s "")
  | JArr l => match l with [] => false | _ => true end
  | JObj l => match l with [] => false | _ => true end
  end.

(** ** Console, log and calls: the events of a run *)

(** [utils.ConsoleColor] *)
Inductive ConsoleColor : Type :=
| OKBLUE | OKCYAN | OKGREEN | MAGENTA | WARNING | FAIL | ENDC | BOLD.

(** An f-string is kept as its pieces: literal text, interpolated values,
    colour codes, an exception ([{e}]) or a [datetime]. *)
Inductive piece : Type :=
| Lit (s : string)
| Val (v : json)
| Col (c : ConsoleColor)
| Exc (e : exn)
| Date (d : Z).

Definition fstring := list piece.

(** The telemetry functions of [getapi] registered in [execute_api_calls]. *)
Inductive api_fn : Type :=
| GetInverterInfo | GetPvData | GetGridData | GetBatteryData
| GetLoadData | GetOutputData | GetDCACTemp | GetInverterSettingsData.

Definition api_fn_eqb (a b : api_fn) : bool :=
  match a, b with
  | GetInverterInfo, GetInverterInfo | GetPvData, GetPvData
  | GetGridData, GetGridData | GetBatteryData, GetBatteryData
  | GetLoadData, GetLoadData | GetOutputData, GetOutputData
  | GetDCACTemp, GetDCACTemp
  | GetInverterSettingsData, GetInverterSettingsData => true
  | _, _ => false
  end.

(** Functions of the modules that are called but not defined here. *)
Inductive callee : Type :=
| ConnectionTest
| Api (f : api_fn)
| DownloadProviderSettings
| GetNewSettingsFromHAEntity
| ResetSettingsEntity.

(** An HTTP request as handed to [requests.get] / [requests.post]. *)
Record request : Type := mkRequest {
  url : fstring;
  params : list (string * json);
  json_body : option json;
  headers : list (string * fstring);
  timeout : Z;
  verify : bool
}.

(** An HTTP response: its status and what [response.json()] gives. *)
Record response : Type := mkResponse {
  status_code : Z;
  body : reply json
}.

Inductive event : Type :=
| Print (msg : fstring)
| LogError (msg : fstring)
| Traceback (e : exn)
| OpenFile (path : string)
| Remove (path : string)
| HttpGet (r : request)
| HttpPost (r : request)
| Call (f : callee) (args : list json)
| ThreadStart (f : api_fn)
| ThreadJoin (f : api_fn).

(** The key object returned by [load_pem_public_key], known by the text
    it was loaded from. *)
Record PublicKey : Type := mkKey { pem : string }.

(** ** The monad of the embedding *)

Section Program.

Context {X : Type}.

(** What a run can read and change: the file [settings.json] of the
    working directory ([None] when it does not exist) and the state [X] of
    everything outside the process (the provider's cloud, Home Assistant,
    other files). *)
Record store : Type := mkStore {
  settings_json : option string;
  ext : X
}.

Record outcome (A : Type) : Type := mkOut {
  events : list event;
  final : store;
  value : result A
}.

Definition M (A : Type) : Type := store -> outcome A.

Definition ret {A} (a : A) : M A := fun s => mkOut [] s (Ok a).

Definition raise {A} (e : exn) : M A := fun s => mkOut [] s (Raise e).

Definition bind {A B} (m : M A) (f : A -> M B) : M B :=
  fun s =>
    match m s with
    | mkOut ev1 s1 (Ok a) =>
        match f a s1 with
        | mkOut ev2 s2 v => mkOut (ev1 ++ ev2) s2 v
        end
    | mkOut ev1 s1 (Raise e) => mkOut ev1 s1 (Raise e)
    | mkOut ev1 s1 (Exit c) => mkOut ev1 s1 (Exit c)
    end.

(** [try: m  except <the classes h accepts> as e: h e] *)
Definition try_except {A} (m : M A) (h : exn -> option (M A)) : M A :=
  fun s =>
    match m s with
    | mkOut ev1 s1 (Raise e) =>
        match h e with
        | Some k =>
            match k s1 with
            | mkOut ev2 s2 v => mkOut (ev1 ++ ev2) s2 v
            end
        | None => mkOut ev1 s1 (Raise e)
        end
    | o => o
    end.

(** [raise SystemExit(code)] *)
Definition sys_exit {A} (code : Z) : M A := fun s => mkOut [] s (Exit code).

Definition emit (ev : event) : M unit := fun s => mkOut [ev] s (Ok tt).

Definition lift {A} (r : reply A) : M A := fun s => mkOut [] s (of_reply r).

Definition read {A} (f : store -> A) : M A := fun s => mkOut [] s (Ok (f s)).

(** A function living outside the embedded sources. *)
Definition ext_fn (A : Type) : Type := store -> reply A * store.

Definition call_ext {A} (ev : event) (f : ext_fn A) : M A :=
  fun s => mkOut [ev] (snd (f s)) (of_reply (fst (f s))).

End Program.

Arguments store : clear implicits.
Arguments M : clear implicits.
Arguments ext_fn : clear implicits.
Arguments outcome : clear implicits.

Declare Scope py_scope.
Delimit Scope py_scope with py.
Notation "x <- m ;; k" := (bind m (fun x => k))
  (at level 61, m at next level, right associativity) : py_scope.
Notation "m ;; k" := (bind m (fun _ => k))
  (at level 61, right associativity) : py_scope.
Open Scope py_scope.

(** ** The collaborators *)

Record Env (X : Type) : Type := mkEnv {
  (** [int(time.time() * 1000)] *)
  time_ms : store X -> Z;
  (** [datetime.now()] *)
  datetime_now : store X -> Z;
  (** [with open(path) as f: json.load(f)] *)
  open_json : string -> ext_fn X json;
  (** the error with which [os.remove(path)] fails in this state, if it
      does: the path is a directory, or the process may not remove it *)
  os_remove_error : string -> store X -> option exn;
  requests_get : request -> ext_fn X response;
  requests_post : request -> ext_fn X response;
  load_pem_public_key : string -> reply PublicKey;
  (** [public_key.encrypt(data, padding=PKCS1v15())] *)
  encrypt_PKCS1v15 : PublicKey -> string -> reply string;
  b64encode : string -> string;
  postapi_ConnectionTest : list json -> ext_fn X json;
  getapi : api_fn -> json -> string -> ext_fn X unit;
  settingsmanager_DownloadProviderSettings : json -> string -> ext_fn X unit;
  settingsmanager_GetNewSettingsFromHAEntity : json -> string -> ext_fn X unit;
  settingsmanager_ResetSettingsEntity : string -> ext_fn X unit;
  (** the order in which the interpreter lets the threads of
      [execute_api_calls] run: [0] is the main thread, [S i] the [i]-th
      started thread *)
  scheduler : store X -> list nat
}.

(** ** utils.py *)

Section Utils.

Context {X : Type} (env : Env X).

Definition print (msg : fstring) : M X unit := emit (Print msg).

Definition logging_error (msg : fstring) : M X unit := emit (LogError msg).

Definition print_colored (message : fstring) (color : ConsoleColor) : M X unit :=
  print ([Col color] ++ message ++ [Col ENDC]).

Definition load_settings (settings_path : string) : M X json :=
  try_except
    (call_ext (OpenFile settings_path) (open_json env settings_path))
    (fun e =>
       Some (logging_error [Lit "Failed to load settings: "; Exc e] ;;
             print [Col FAIL;
                    Lit "Error loading settings.json. Ensure the file exists and is valid JSON.";
                    Col ENDC] ;;
             sys_exit 1)).

(** The statuses for which [response.raise_for_status()] raises. *)
Definition http_error (r : response) : bool :=
  (400 <=? status_code r)%Z && (status_code r <? 600)%Z.

(** [response.raise_for_status()] *)
Definition raise_for_status (r : response) : M X unit :=
  if http_error r then raise (HTTPError (status_code r)) else ret tt.

End Utils.

(** ** gettoken.py *)

Section GetToken.

Context {X : Type} (env : Env X).

(** [StringIO.writelines]: the items are written one after the other;
    [writelines] adds no line separator.  An item that is not a [str]
    raises [TypeError]. *)
Fixpoint writelines (lines : list json) : reply string :=
  match lines with
  | [] => Returns ""
  | JStr s :: rest =>
      match writelines rest with
      | Returns t => Returns (s ++ t)%string
      | Raises e => Raises e
      end
  | _ :: _ => Raises (TypeError "string argument expected")
  end.

Definition public_key_request (nonce : Z) : request :=
  {| url := [Lit "https://api.sunsynk.net/anonymous/publicKey"];
     params := [("source", JStr "sunsynk"); ("nonce", JInt nonce)];
     json_body := None;
     headers := [];
     timeout := 10;
     verify := true |}.

(** The text handed to [load_pem_public_key] for a key body [data]. *)
Definition public_key_file (data : json) : reply string :=
  writelines [JStr "-----BEGIN PUBLIC KEY-----";
              data;
              JStr "-----END PUBLIC KEY-----"].

Definition _get_public_key : M X PublicKey :=
  nonce <- read (time_ms env) ;;
  response <- call_ext (HttpGet (public_key_request nonce))
                       (requests_get env (public_key_request nonce)) ;;
  raise_for_status response ;;
  parsed <- lift (body response) ;;
  data <- lift (py_getitem parsed "data") ;;
  text <- lift (public_key_file data) ;;
  lift (load_pem_public_key env text).

Definition _encrypt_password (password : json) (public_key : PublicKey)
  : M X json :=
  match password with
  | JStr s =>
      encrypted <- lift (encrypt_PKCS1v15 env public_key s) ;;
      ret (JStr (b64encode env encrypted))
  | _ => raise (AttributeError "encode")
  end.

Definition token_payload (encrypted_password username : json) : json :=
  JObj [("areaCode", JStr "sunsynk");
        ("client_id", JStr "csp-web");
        ("grant_type", JStr "password");
        ("password", encrypted_password);
        ("source", JStr "sunsynk");
        ("username", username)].

Definition token_request (api_server encrypted_password username : json)
  : request :=
  {| url := [Lit "https://"; Val api_server; Lit "/oauth/token/new"];
     params := [];
     json_body := Some (token_payload encrypted_password username);
     headers := [("Content-Type", [Lit "application/json"])];
     timeout := 10;
     verify := true |}.

Definition _authenticate (json_settings encrypted_password : json)
  : M X json :=
  api_server <- lift (py_getitem json_settings "API_Server") ;;
  username <- lift (py_getitem json_settings "sunsynk_user") ;;
  let req := token_request api_server encrypted_password username in
  response <- call_ext (HttpPost req) (requests_post env req) ;;
  raise_for_status response ;;
  parsed_login_json <- lift (body response) ;;
  status <- lift (py_get parsed_login_json "msg") ;;
  if py_eq_str status "Success" then
    msg <- lift (py_getitem parsed_login_json "msg") ;;
    print_colored [Lit "Sunsynk Login: "; Val msg] OKGREEN ;;
    data <- lift (py_getitem parsed_login_json "data") ;;
    lift (py_getitem data "access_token")
  else
    msg <- lift (py_getitem parsed_login_json "msg") ;;
    print_colored [Lit "Sunsynk Login: "; Val msg] FAIL ;;
    ret (JStr "").

(** The four [except] clauses of [gettoken], in their order; each prints
    its message and lets the function return [bearer_token], still [""]. *)
Definition gettoken_except (e : exn) : option (M X json) :=
  if is_Timeout e then
    Some (print_colored
            [Lit "Error: Request timed out while connecting to Sunsynk API."]
            FAIL ;;
          ret (JStr ""))
  else if is_RequestException e then
    Some (print_colored
            [Lit "Error: Failed to connect to Sunsynk API. "; Exc e] FAIL ;;
          ret (JStr ""))
  else if is_JSONDecodeError e then
    Some (print_colored
            [Lit "Error: Failed to parse Sunsynk API response."] FAIL ;;
          ret (JStr ""))
  else
    Some (print_colored
            [Lit "Unexpected error during authentication: "; Exc e] FAIL ;;
          ret (JStr "")).

(** The [try] block of [gettoken]. *)
Definition gettoken_try (json_settings : json) : M X json :=
  public_key <- _get_public_key ;;
  password <- lift (py_getitem json_settings "sunsynk_pass") ;;
  encrypted_password <- _encrypt_password password public_key ;;
  _authenticate json_settings encrypted_password.

Definition gettoken : M X json :=
  json_settings <- load_settings env "/data/options.json" ;;
  try_except (gettoken_try json_settings) gettoken_except.

End GetToken.

(** ** entity_manager.py *)

Section EntityManager.

Context {X : Type} (env : Env X).

Definition load_ha_settings (config_path : string) : M X json :=
  try_except
    (call_ext (OpenFile config_path) (open_json env config_path))
    (fun e =>
       Some (print [Col FAIL; Lit "Error loading settings from ";
                    Val (JStr config_path); Lit ": "; Exc e; Col ENDC] ;;
             raise e)).

Definition get_ha_url_and_headers (config_path : string)
  : M X (fstring * list (string * fstring)) :=
  json_settings <- load_ha_settings config_path ;;
  enable_https <- lift (py_getitem json_settings "Enable_HTTPS") ;;
  let httpurl_proto := if py_truthy enable_https then "https" else "http" in
  ip <- lift (py_getitem json_settings "Home_Assistant_IP") ;;
  port <- lift (py_getitem json_settings "Home_Assistant_PORT") ;;
  let base_url := [Lit httpurl_proto; Lit "://"; Val ip; Lit ":"; Val port] in
  token <- lift (py_getitem json_settings "HA_LongLiveToken") ;;
  let headers := [("Content-Type", [Lit "application/json"]);
                  ("Authorization", [Lit "Bearer "; Val token])] in
  ret (base_url, headers).

Definition entity_request (base_url : fstring)
  (headers : list (string * fstring)) (entity_id : string) : request :=
  {| url := base_url ++ [Lit "/api/states/"; Val (JStr entity_id)];
     params := [];
     json_body := None;
     headers := headers;
     timeout := 10;
     verify := false |}.

Definition check_entity_exists (entity_id config_path : string) : M X bool :=
  try_except
    (cfg <- get_ha_url_and_headers config_path ;;
     let req := entity_request (fst cfg) (snd cfg) entity_id in
     response <- call_ext (HttpGet req) (requests_get env req) ;;
     if (status_code response =? 200)%Z then ret true
     else if (status_code response =? 404)%Z then ret false
     else (raise_for_status response ;; ret false))
    (fun e =>
       if is_RequestException e then
         Some (print [Col WARNING; Lit "Error checking entity ";
                      Val (JStr entity_id); Lit ": "; Exc e; Col ENDC] ;;
               ret false)
       else None).

End EntityManager.

(** ** main.py *)

(** [for x in l: body x] *)
Fixpoint for_each {X A : Type} (body : A -> M X unit) (l : list A) : M X unit :=
  match l with
  | [] => ret tt
  | x :: rest => body x ;; for_each body rest
  end.

(** [l[i] = a] for an index inside the list *)
Fixpoint update {A : Type} (i : nat) (a : A) (l : list A) : list A :=
  match l, i with
  | [], _ => []
  | _ :: rest, O => a :: rest
  | x :: rest, S j => x :: update j a rest
  end.

(** The registry of [execute_api_calls]. *)
Definition api_calls : list (api_fn * string) :=
  [(GetInverterInfo, "Inverter Information");
   (GetPvData, "PV Data");
   (GetGridData, "Grid Data");
   (GetBatteryData, "Battery Data");
   (GetLoadData, "Load Data");
   (GetOutputData, "Output Data");
   (GetDCACTemp, "DC & AC Temperature Data");
   (GetInverterSettingsData, "Inverter Settings")].

(** Where a thread running [fetch_data] stands: before the first print,
    before the call, in one of the three statements of the [except]
    clause, or returned. *)
Inductive fetch_pc : Type :=
| AtPrint
| AtCall
| AtLogError (e : exn)
| AtPrintError (e : exn)
| AtTraceback (e : exn)
| Returned.

Definition terminated (pc : fetch_pc) : bool :=
  match pc with
  | Returned => true
  | _ => false
  end.

Record thread : Type := mkThread {
  th_fn : api_fn;
  th_desc : string;
  th_pc : fetch_pc
}.

Definition error_fetching (description : string) (e : exn) : fstring :=
  [Lit "Error fetching "; Val (JStr description); Lit ": "; Exc e].

Section Main.

Context {X : Type} (env : Env X).

(** The module-level globals, set when [main.py] is loaded. *)
Variable json_settings : json.
Variable inverter_serials : list string.

(** One statement of [fetch_data]. *)
Definition fetch_data_step (api_function : api_fn) (bearer_token : json)
  (serial_item description : string) (pc : fetch_pc) (s : store X)
  : list event * store X * fetch_pc :=
  match pc with
  | AtPrint =>
      let o := print_colored [Lit "Fetching "; Val (JStr description); Lit "..."]
                 WARNING s in
      (events o, final o, AtCall)
  | AtCall =>
      let r := getapi env api_function bearer_token serial_item s in
      ([Call (Api api_function) [bearer_token; JStr serial_item]], snd r,
       match fst r with
       | Returns _ => Returned
       | Raises e => AtLogError e
       end)
  | AtLogError e =>
      let o := logging_error (error_fetching description e) s in
      (events o, final o, AtPrintError e)
  | AtPrintError e =>
      let o := print_colored (error_fetching description e) FAIL s in
      (events o, final o, AtTraceback e)
  | AtTraceback e =>
      let o := emit (Traceback e) s in
      (events o, final o, Returned)
  | Returned => ([], s, Returned)
  end.

(** [fetch_data] run on its own: [n] statements from [pc] on. *)
Fixpoint fetch_data_run (n : nat) (api_function : api_fn) (bearer_token : json)
  (serial_item description : string) (pc : fetch_pc) (s : store X)
  : list event * store X * fetch_pc :=
  match n with
  | O => ([], s, pc)
  | S k =>
      let '(evs, s1, pc1) :=
        fetch_data_step api_function bearer_token serial_item description pc s in
      let '(evs', s2, pc2) :=
        fetch_data_run k api_function bearer_token serial_item description pc1 s1 in
      (evs ++ evs', s2, pc2)
  end.

(** [fetch_data] has five statements at most; its [except] clause catches
    every [Exception], so it returns. *)
Definition fetch_data (api_function : api_fn) (bearer_token : json)
  (serial_item description : string) : M X unit :=
  fun s =>
    let '(evs, s', _) :=
      fetch_data_run 5 api_function bearer_token serial_item description
                     AtPrint s in
    mkOut evs s' (Ok tt).

(** The state of [execute_api_calls]: what the first loop has still to
    start, the list [threads], how many of them the second loop has
    joined, and whether the function has returned. *)
Record pool : Type := mkPool {
  pending : list (api_fn * string);
  threads : list thread;
  joined : nat;
  finished : bool;
  trace : list event;
  heap : store X
}.

Definition init_pool (s : store X) : pool :=
  mkPool api_calls [] 0 false [] s.

(** One step of the main thread: start the next thread, or join the next
    one if it has ended (and wait otherwise), or print and return. *)
Definition main_step (p : pool) : pool :=
  if finished p then p
  else
    match pending p with
    | (api_function, description) :: rest =>
        mkPool rest
               (threads p ++ [mkThread api_function description AtPrint])
               (joined p) false
               (trace p ++ [ThreadStart api_function]) (heap p)
    | [] =>
        match nth_error (threads p) (joined p) with
        | Some t =>
            if terminated (th_pc t) then
              mkPool [] (threads p) (S (joined p)) false
                     (trace p ++ [ThreadJoin (th_fn t)]) (heap p)
            else p
        | None =>
            let o := print_colored
                       [Lit "All API calls completed successfully!"]
                       OKGREEN (heap p) in
            mkPool [] (threads p) (joined p) true
                   (trace p ++ events o) (final o)
        end
    end.

(** One step of the [i]-th started thread. *)
Definition thread_step (bearer_token : json) (serial_item : string)
  (i : nat) (p : pool) : pool :=
  match nth_error (threads p) i with
  | Some t =>
      if terminated (th_pc t) then p
      else
        let '(evs, s', pc') :=
          fetch_data_step (th_fn t) bearer_token serial_item (th_desc t)
                          (th_pc t) (heap p) in
        mkPool (pending p)
               (update i (mkThread (th_fn t) (th_desc t) pc') (threads p))
               (joined p) (finished p) (trace p ++ evs) s'
  | None => p
  end.

Definition step (bearer_token : json) (serial_item : string)
  (choice : nat) (p : pool) : pool :=
  match choice with
  | O => main_step p
  | S i => thread_step bearer_token serial_item i p
  end.

(** The steps chosen by the scheduler, one after the other; a choice that
    cannot move leaves the pool as it is. *)
Definition run (bearer_token : json) (serial_item : string)
  (choices : list nat) (p : pool) : pool :=
  fold_left (fun q c => step bearer_token serial_item c q) choices p.

(** What is left when the scheduler's choices are used up runs to its end:
    the main thread starts the threads not yet started, each thread runs
    its remaining statements, the main thread joins them and returns. *)
Definition drain (bearer_token : json) (serial_item : string) (p : pool)
  : pool :=
  let p1 := Nat.iter (length (pending p)) main_step p in
  let p2 := fold_left
              (fun q i => Nat.iter 5 (thread_step bearer_token serial_item i) q)
              (seq 0 (length (threads p1))) p1 in
  Nat.iter (S (length (threads p2))) main_step p2.

Definition api_pool (bearer_token : json) (serial_item : string)
  (s : store X) : pool :=
  drain bearer_token serial_item
        (run bearer_token serial_item (scheduler env s) (init_pool s)).

(** [execute_api_calls] returns when the main thread has made its last
    step; no exception of a thread reaches it. *)
Definition execute_api_calls (bearer_token : json) (serial_item : string)
  : M X unit :=
  fun s =>
    let p := api_pool bearer_token serial_item s in
    mkOut (trace p) (heap p) (Ok tt).

Definition execute_settings_management (bearer_token : json)
  (serial_item : string) : M X unit :=
  call_ext (Call DownloadProviderSettings [bearer_token; JStr serial_item])
    (settingsmanager_DownloadProviderSettings env bearer_token serial_item) ;;
  call_ext (Call GetNewSettingsFromHAEntity [bearer_token; JStr serial_item])
    (settingsmanager_GetNewSettingsFromHAEntity env bearer_token serial_item) ;;
  print [Lit "Cleaning out previous settings..."] ;;
  call_ext (Call ResetSettingsEntity [JStr serial_item])
    (settingsmanager_ResetSettingsEntity env serial_item).

(** [os.path.exists("settings.json")] *)
Definition settings_file_exists : M X bool :=
  read (fun s => match settings_json s with Some _ => true | None => false end).

(** [os.remove("settings.json")]: the file is removed, or the call raises
    and leaves it where it is. *)
Definition remove_settings_file : M X unit :=
  fun s =>
    match os_remove_error env "settings.json" s with
    | Some e => mkOut [Remove "settings.json"] s (Raise e)
    | None => mkOut [Remove "settings.json"] (mkStore None (ext s)) (Ok tt)
    end.

(** The lines of [process_inverter] up to and including "Clean cache". *)
Definition clean_cache : M X unit :=
  print [Lit "Cleaning cache..."] ;;
  there <- settings_file_exists ;;
  if there then
    remove_settings_file ;;
    print [Lit "Old settings.json file removed."]
  else ret tt.

Definition connection_test_args : list json :=
  [JStr "TEST"; JStr "A"; JStr "current"; JStr "connection_test";
   JStr "connection_test_current"; JStr "100"].

(** The lines of [process_inverter] from "Test API connection" on. *)
Definition test_and_run (bearer_token : json) (serial_item : string)
  : M X unit :=
  print_colored [Lit "Testing HA API"] WARNING ;;
  connection_result <- call_ext (Call ConnectionTest connection_test_args)
                         (postapi_ConnectionTest env connection_test_args) ;;
  (if py_eq_str connection_result "Connection Success" then
     print [Val connection_result] ;;
     execute_api_calls bearer_token serial_item ;;
     execute_settings_management bearer_token serial_item
   else
     print_colored [Val connection_result] FAIL ;;
     print_colored
       [Lit "Ensure correct IP, port, and Home Assistant accessibility."]
       MAGENTA) ;;
  completion_time <- read (datetime_now env) ;;
  print [Lit "Script completion time: "; Col OKBLUE; Lit " ";
         Date completion_time; Lit " "; Col ENDC].

Definition process_inverter (bearer_token : json) (serial_item : string)
  (current_date : Z) : M X unit :=
  print_colored [Lit "Getting "; Val (JStr serial_item); Lit " @ ";
                 Date current_date] OKCYAN ;;
  refresh_rate <- lift (py_getitem json_settings "Refresh_rate") ;;
  print [Lit "Script refresh rate set to: "; Col OKCYAN; Val refresh_rate;
         Col ENDC; Lit " milliseconds"] ;;
  clean_cache ;;
  test_and_run bearer_token serial_item.

Definition dashes : string :=
  "------------------------------------------------------------------------------".

(** The "Get Bearer Token" block of [main]: [Some token] when the block
    falls through, [None] when its [except] clause returns from [main]. *)
Definition get_bearer_token : M X (option json) :=
  try_except
    (bearer_token <- gettoken env ;;
     (if py_truthy bearer_token then ret tt
      else print [Lit "Failed to retrieve Bearer Token. Check credentials or server status."]) ;;
     ret (Some bearer_token))
    (fun e =>
       Some (logging_error [Lit "Token retrieval error: "; Exc e] ;;
             print_colored [Lit "Error retrieving Bearer Token."] FAIL ;;
             emit (Traceback e) ;;
             ret None)).

Definition main : M X unit :=
  current_date <- read (datetime_now env) ;;
  print [Lit dashes] ;;
  print_colored [Lit "Running Script SolarSynkV3"] MAGENTA ;;
  api_server <- lift (py_getitem json_settings "API_Server") ;;
  print [Lit "Using API Endpoint: "; Col MAGENTA; Val api_server; Col ENDC] ;;
  print [Lit "https://github.com/martinville/solarsynkv3"] ;;
  print [Lit dashes] ;;
  got <- get_bearer_token ;;
  match got with
  | None => ret tt
  | Some bearer_token =>
      (if py_truthy bearer_token then
         for_each (fun serial_item =>
                     process_inverter bearer_token serial_item current_date)
                  inverter_serials
       else ret tt) ;;
      print_colored [Lit "Script execution completed."] OKBLUE
  end.

End Main.

Example dashes_78 : String.length dashes = 78.
Proof. reflexivity. Qed.

(** ** entity_manager.py: creating the missing entities *)

(** [s.replace(old, new)]: every occurrence of [old], found from left to
    right without overlap, is replaced.  [skip] counts the characters of
    an occurrence still to be passed over. *)
Fixpoint replace_from (old new : string) (skip : nat) (s : string) : string :=
  match s with
  | EmptyString => if (old =? "")%string then new else EmptyString
  | String c rest =>
      match skip with
      | S k => replace_from old new k rest
      | O =>
          if String.prefix old s then
            match old with
            | EmptyString => (new ++ String c (replace_from old new 0 rest))%string
            | String _ old' =>
                (new ++ replace_from old new (String.length old') rest)%string
            end
          else String c (replace_from old new 0 rest)
      end
  end.

Definition py_replace (s old new : string) : string := replace_from old new 0 s.

(** [for x in l: acc = body acc x], for a loop that builds up local
    variables. *)
Fixpoint for_fold {X A B : Type} (body : B -> A -> M X B) (l : list A) (acc : B)
  : M X B :=
  match l with
  | [] => ret acc
  | x :: rest => acc' <- body acc x ;; for_fold body rest acc'
  end.

Section EntityCreation.

Context {X : Type} (env : Env X).

Definition helper_payload (helper_name friendly_name : string) (max_length : Z)
  (initial_value : string) : json :=
  JObj [(helper_name,
         JObj [("name", JStr friendly_name);
               ("max", JInt max_length);
               ("initial", JStr initial_value)])].

Definition helper_request (base_url : fstring) (headers : list (string * fstring))
  (entity_id friendly_name : string) (max_length : Z) (initial_value : string)
  : request :=
  {| url := base_url ++ [Lit "/api/config/input_text"];
     params := [];
     json_body := Some (helper_payload (py_replace entity_id "input_text." "")
                                       friendly_name max_length initial_value);
     headers := headers;
     timeout := 10;
     verify := false |}.

Definition fallback_payload (friendly_name : string) (max_length : Z)
  (initial_value : string) : json :=
  JObj [("state", JStr initial_value);
        ("attributes", JObj [("friendly_name", JStr friendly_name);
                             ("max", JInt max_length)])].

Definition fallback_request (base_url : fstring)
  (headers : list (string * fstring))
  (entity_id friendly_name : string) (max_length : Z) (initial_value : string)
  : request :=
  {| url := base_url ++ [Lit "/api/states/"; Val (JStr entity_id)];
     params := [];
     json_body := Some (fallback_payload friendly_name max_length initial_value);
     headers := headers;
     timeout := 10;
     verify := false |}.

(** The [except] clause of [create_input_text_helper].  [cfg] holds
    [base_url, headers] when the [try] block got as far as binding them;
    otherwise reading [base_url] fails as an unbound local. *)
Definition create_except (cfg : option (fstring * list (string * fstring)))
  (entity_id friendly_name : string) (max_length : Z) (initial_value : string)
  (e : exn) : M X bool :=
  print [Col FAIL; Lit "Error creating input_text helper ";
         Val (JStr entity_id); Lit ": "; Exc e; Col ENDC] ;;
  try_except
    (print [Col WARNING; Lit "Trying fallback method for ";
            Val (JStr entity_id); Col ENDC] ;;
     match cfg with
     | None => raise (OtherError "UnboundLocalError: base_url")
     | Some (base_url, headers) =>
         let req := fallback_request base_url headers entity_id friendly_name
                                     max_length initial_value in
         response <- call_ext (HttpPost req) (requests_post env req) ;;
         raise_for_status response ;;
         print [Col OKGREEN; Lit "Created input_text helper via fallback: ";
                Val (JStr entity_id); Col ENDC] ;;
         ret true
     end)
    (fun e2 =>
       if is_RequestException e2 then
         Some (print [Col FAIL; Lit "Fallback also failed for ";
                      Val (JStr entity_id); Lit ": "; Exc e2; Col ENDC] ;;
               ret false)
       else None).

(** The [try] block is split where [base_url, headers] get bound, so that
    the [except] clause knows whether they are. *)
Definition create_input_text_helper (entity_id friendly_name : string)
  (max_length : Z) (initial_value config_path : string) : M X bool :=
  bound <- try_except
             (cfg <- get_ha_url_and_headers env config_path ;; ret (inl cfg))
             (fun e => if is_RequestException e then Some (ret (inr e))
                       else None) ;;
  match bound with
  | inr e =>
      create_except None entity_id friendly_name max_length initial_value e
  | inl cfg =>
      try_except
        (let req := helper_request (fst cfg) (snd cfg) entity_id friendly_name
                                   max_length initial_value in
         response <- call_ext (HttpPost req) (requests_post env req) ;;
         raise_for_status response ;;
         print [Col OKGREEN; Lit "Created input_text helper: ";
                Val (JStr entity_id); Col ENDC] ;;
         ret true)
        (fun e =>
           if is_RequestException e then
             Some (create_except (Some cfg) entity_id friendly_name max_length
                                 initial_value e)
           else None)
  end.

Definition settings_entity (serial : string) : string :=
  ("input_text.solarsynkv3_" ++ serial ++ "_settings")%string.

Definition settings_friendly_name (serial : string) : string :=
  ("SolarSynkV3 " ++ serial ++ " Settings")%string.

Definition failed_to_create (serial : string) : fstring :=
  [Col FAIL; Lit "Failed to create required entity: ";
   Val (JStr (settings_entity serial)); Col ENDC].

(** The body of the loop of [validate_and_create_required_entities];
    [lists] is [missing_entities, created_entities]. *)
Definition validate_entity (config_path : string)
  (lists : list string * list string) (serial : string)
  : M X (list string * list string) :=
  print [Lit "Checking entity: "; Val (JStr (settings_entity serial))] ;;
  found <- check_entity_exists env (settings_entity serial) config_path ;;
  if negb found then
    print [Col WARNING; Lit "Entity "; Val (JStr (settings_entity serial));
           Lit " does not exist"; Col ENDC] ;;
    let missing_entities := fst lists ++ [settings_entity serial] in
    created <- create_input_text_helper (settings_entity serial)
                 (settings_friendly_name serial) 255 "" config_path ;;
    if created then
      ret (missing_entities, snd lists ++ [settings_entity serial])
    else
      print (failed_to_create serial) ;;
      print [Col MAGENTA;
             Lit "Manual creation required: Go to HA GUI -> Settings -> Devices & Services -> Helpers -> Create Helper -> Text";
             Col ENDC] ;;
      print [Col MAGENTA; Lit "Name: ";
             Val (JStr (settings_friendly_name serial)); Col ENDC] ;;
      print [Col MAGENTA; Lit "Entity ID: ";
             Val (JStr (settings_entity serial)); Col ENDC] ;;
      ret (missing_entities, snd lists)
  else
    print [Col OKGREEN; Lit "Entity "; Val (JStr (settings_entity serial));
           Lit " exists"; Col ENDC] ;;
    ret lists.

Definition nonempty {A} (l : list A) : bool :=
  match l with [] => false | _ => true end.

Definition len {A} (l : list A) : json := JInt (Z.of_nat (length l)).

Definition print_entities (l : list string) : M X unit :=
  for_each (fun entity => print [Lit "  - "; Val (JStr entity)]) l.

(** [[e for e in missing_entities if e not in created_entities]] *)
Definition failed_entities (missing_entities created_entities : list string)
  : list string :=
  filter (fun e => negb (existsb (String.eqb e) created_entities))
         missing_entities.

Definition validation_complete : M X unit :=
  print [Col OKBLUE; Lit "=== Entity Validation Complete ==="; Col ENDC].

(** The report that ends [validate_and_create_required_entities]. *)
Definition report_results (missing_entities created_entities : list string)
  : M X bool :=
  if nonempty missing_entities then
    print [Col WARNING; Lit "Found "; Val (len missing_entities);
           Lit " missing entities"; Col ENDC] ;;
    (if nonempty created_entities then
       print [Col OKGREEN; Lit "Successfully created ";
              Val (len created_entities); Lit " entities automatically";
              Col ENDC] ;;
       print_entities created_entities
     else ret tt) ;;
    let failed := failed_entities missing_entities created_entities in
    if nonempty failed then
      print [Col FAIL; Lit "Failed to create "; Val (len failed);
             Lit " entities (manual creation required)"; Col ENDC] ;;
      print_entities failed ;;
      ret false
    else
      validation_complete ;; ret true
  else
    print [Col OKGREEN; Lit "All required entities exist"; Col ENDC] ;;
    validation_complete ;; ret true.

Definition validate_and_create_required_entities
  (inverter_serials : list string) (config_path : string) : M X bool :=
  print [Col OKBLUE; Lit "=== Validating Required Home Assistant Entities ===";
         Col ENDC] ;;
  lists <- for_fold (validate_entity config_path) inverter_serials ([], []) ;;
  report_results (fst lists) (snd lists).

End EntityCreation.

(** * Properties *)

Unset Implicit Arguments.

(** ** Reasoning about runs *)

Section Runs.

Context {X : Type}.

(** [o] with the events [ev] in front. *)
Definition after (ev : list event) {A} (o : outcome X A) : outcome X A :=
  match o with
  | mkOut ev2 s2 v => mkOut (ev ++ ev2) s2 v
  end.

Lemma events_after ev A (o : outcome X A) : events (after ev o) = ev ++ events o.
Proof. destruct o; reflexivity. Qed.

Lemma final_after ev A (o : outcome X A) : final (after ev o) = final o.
Proof. destruct o; reflexivity. Qed.

Lemma value_after ev A (o : outcome X A) : value (after ev o) = value o.
Proof. destruct o; reflexivity. Qed.

Lemma after_nil A (o : outcome X A) : after [] o = o.
Proof. destruct o; reflexivity. Qed.

Lemma bind_run A B (m : M X A) (f : A -> M X B) (s : store X) :
  bind m f s =
  match value (m s) with
  | Ok a => after (events (m s)) (f a (final (m s)))
  | Raise e => mkOut (events (m s)) (final (m s)) (Raise e)
  | Exit c => mkOut (events (m s)) (final (m s)) (Exit c)
  end.
Proof. unfold bind, after. destruct (m s) as [ev s1 [a|e|c]]; reflexivity. Qed.

Lemma bind_ok A B (m : M X A) (f : A -> M X B) (s : store X) ev s1 a :
  m s = mkOut ev s1 (Ok a) -> bind m f s = after ev (f a s1).
Proof. intros H. rewrite bind_run, H. reflexivity. Qed.

Lemma bind_raise A B (m : M X A) (f : A -> M X B) (s : store X) ev s1 e :
  m s = mkOut ev s1 (Raise e) -> bind m f s = mkOut ev s1 (Raise e).
Proof. intros H. rewrite bind_run, H. reflexivity. Qed.

Lemma try_except_run A (m : M X A) h (s : store X) :
  try_except m h s =
  match value (m s) with
  | Raise e =>
      match h e with
      | Some k => after (events (m s)) (k (final (m s)))
      | None => m s
      end
  | _ => m s
  end.
Proof.
  unfold try_except, after. destruct (m s) as [ev s1 [a|e|c]]; reflexivity.
Qed.

(** A computation that never leaves through [SystemExit]. *)
Definition no_exit {A} (m : M X A) : Prop :=
  forall s c, value (m s) <> Exit c.

(** A computation all of whose events satisfy [P]. *)
Definition emits (P : event -> Prop) {A} (m : M X A) : Prop :=
  forall s, Forall P (events (m s)).

Lemma no_exit_ret A (a : A) : no_exit (ret a).
Proof. intros s c; discriminate. Qed.

Lemma no_exit_raise A e : no_exit (@raise X A e).
Proof. intros s c; discriminate. Qed.

Lemma no_exit_emit ev : no_exit (emit ev).
Proof. intros s c; discriminate. Qed.

Lemma no_exit_lift A (r : reply A) : no_exit (lift r).
Proof. intros s c; destruct r; discriminate. Qed.

Lemma no_exit_read A (f : store X -> A) : no_exit (read f).
Proof. intros s c; discriminate. Qed.

Lemma no_exit_call_ext A ev (f : ext_fn X A) : no_exit (call_ext ev f).
Proof. intros s c. unfold call_ext; cbn. destruct (fst (f s)); discriminate. Qed.

Lemma no_exit_bind A B (m : M X A) (f : A -> M X B) :
  no_exit m -> (forall a, no_exit (f a)) -> no_exit (bind m f).
Proof.
  intros Hm Hf s c. rewrite bind_run.
  destruct (value (m s)) as [a|e|c'] eqn:E.
  - rewrite value_after. apply Hf.
  - discriminate.
  - exfalso. exact (Hm s c' E).
Qed.

Lemma no_exit_try_except A (m : M X A) h :
  no_exit m -> (forall e k, h e = Some k -> no_exit k) -> no_exit (try_except m h).
Proof.
  intros Hm Hh s c. rewrite try_except_run.
  destruct (value (m s)) as [a|e|c'] eqn:E; try (rewrite E; discriminate).
  - destruct (h e) as [k|] eqn:Eh.
    + rewrite value_after. exact (Hh e k Eh _ _).
    + rewrite E; discriminate.
  - exfalso. exact (Hm s c' E).
Qed.

Lemma no_exit_if A (b : bool) (m1 m2 : M X A) :
  no_exit m1 -> no_exit m2 -> no_exit (if b then m1 else m2).
Proof. destruct b; auto. Qed.

Lemma emits_ret P A (a : A) : emits P (ret a).
Proof. intros s; constructor. Qed.

Lemma emits_raise P A e : emits P (@raise X A e).
Proof. intros s; constructor. Qed.

Lemma emits_sys_exit P A c : emits P (@sys_exit X A c).
Proof. intros s; constructor. Qed.

Lemma emits_lift P A (r : reply A) : emits P (lift r).
Proof. intros s; constructor. Qed.

Lemma emits_read P A (f : store X -> A) : emits P (read f).
Proof. intros s; constructor. Qed.

Lemma emits_emit (P : event -> Prop) ev : P ev -> emits P (emit ev).
Proof. intros H s; repeat constructor; exact H. Qed.

Lemma emits_call_ext (P : event -> Prop) A ev (f : ext_fn X A) :
  P ev -> emits P (call_ext ev f).
Proof. intros H s; repeat constructor; exact H. Qed.

Lemma emits_bind P A B (m : M X A) (f : A -> M X B) :
  emits P m -> (forall a, emits P (f a)) -> emits P (bind m f).
Proof.
  intros Hm Hf s. rewrite bind_run.
  destruct (value (m s)) as [a|e|c]; cbn; try apply Hm.
  rewrite events_after. apply Forall_app; split; [apply Hm | apply Hf].
Qed.

Lemma emits_try_except P A (m : M X A) h :
  emits P m -> (forall e k, h e = Some k -> emits P k) -> emits P (try_except m h).
Proof.
  intros Hm Hh s. rewrite try_except_run.
  destruct (value (m s)) as [a|e|c]; try apply Hm.
  destruct (h e) as [k|] eqn:Eh; [|apply Hm].
  rewrite events_after. apply Forall_app; split; [apply Hm | exact (Hh e k Eh _)].
Qed.

Lemma emits_if P A (b : bool) (m1 m2 : M X A) :
  emits P m1 -> emits P m2 -> emits P (if b then m1 else m2).
Proof. destruct b; auto. Qed.

End Runs.

Create HintDb run.
#[local] Hint Resolve no_exit_ret no_exit_raise no_exit_emit no_exit_lift
  no_exit_read no_exit_call_ext no_exit_if : run.
#[local] Hint Resolve emits_ret emits_raise emits_sys_exit emits_lift emits_read
  emits_if : run.

(** Splits a computation along its binds and closes the leaves. *)
Ltac by_parts :=
  repeat first
    [ solve [auto with run]
    | apply no_exit_bind; [|intros]
    | apply emits_bind; [|intros]
    | apply no_exit_if
    | apply emits_if
    | apply emits_emit
    | apply emits_call_ext
    | solve [cbn; auto]
    | match goal with |- context [match ?x with _ => _ end] => destruct x end ].

(** ** Token acquisition *)

Lemma py_getitem_get d k v : py_getitem d k = Returns v -> py_get d k = Returns v.
Proof.
  destruct d; cbn; try discriminate.
  destruct (assoc k fields); [tauto | discriminate].
Qed.

Lemma py_eq_str_true v s : py_eq_str v s = true <-> v = JStr s.
Proof.
  destruct v; cbn; split; intros H; try discriminate.
  - apply String.eqb_eq in H. now subst.
  - injection H as ->. apply String.eqb_refl.
Qed.

Lemma py_eq_str_false v s : py_eq_str v s = false <-> v <> JStr s.
Proof.
  rewrite <- py_eq_str_true. destruct (py_eq_str v s); split; congruence.
Qed.

Section GetTokenFacts.

Context {X : Type} (env : Env X).

Lemma load_settings_ok path s j s1 :
  open_json env path s = (Returns j, s1) ->
  load_settings env path s = mkOut [OpenFile path] s1 (Ok j).
Proof.
  intros H. unfold load_settings. rewrite try_except_run.
  unfold call_ext. rewrite H. reflexivity.
Qed.

Lemma no_exit_raise_for_status r : no_exit (raise_for_status (X:=X) r).
Proof. unfold raise_for_status. by_parts. Qed.

Lemma no_exit_print_colored msg c : no_exit (print_colored (X:=X) msg c).
Proof. unfold print_colored, print. by_parts. Qed.

Lemma no_exit_get_public_key : no_exit (_get_public_key env).
Proof. unfold _get_public_key. pose proof no_exit_raise_for_status. by_parts. Qed.

Lemma no_exit_encrypt_password pw k : no_exit (_encrypt_password env pw k).
Proof. unfold _encrypt_password. destruct pw; by_parts. Qed.

Lemma no_exit_authenticate js enc : no_exit (_authenticate env js enc).
Proof.
  unfold _authenticate.
  pose proof no_exit_raise_for_status. pose proof no_exit_print_colored.
  by_parts.
Qed.

Lemma no_exit_gettoken_try js : no_exit (gettoken_try env js).
Proof.
  unfold gettoken_try.
  pose proof no_exit_get_public_key. pose proof no_exit_encrypt_password.
  pose proof no_exit_authenticate.
  by_parts.
Qed.

(** Every [except] clause of [gettoken] ends with the empty token. *)
Lemma gettoken_except_empty e :
  exists k, gettoken_except (X:=X) e = Some k /\
            forall s, value (k s) = Ok (JStr "") /\ final (k s) = s.
Proof.
  unfold gettoken_except.
  destruct (is_Timeout e); [|destruct (is_RequestException e);
                              [|destruct (is_JSONDecodeError e)]];
    eexists; (split; [reflexivity|]); intros s; split; reflexivity.
Qed.

Lemma gettoken_value s j s1 :
  open_json env "/data/options.json" s = (Returns j, s1) ->
  value (gettoken env s) =
  match value (gettoken_try env j s1) with
  | Ok v => Ok v
  | Raise _ => Ok (JStr "")
  | Exit c => Exit c
  end.
Proof.
  intros H. unfold gettoken.
  rewrite (bind_ok _ _ _ _ _ _ _ _ (load_settings_ok _ _ _ _ H)).
  rewrite value_after, try_except_run.
  destruct (value (gettoken_try env j s1)) as [v|e|c] eqn:E; try exact E.
  destruct (gettoken_except_empty e) as (k & -> & Hk).
  rewrite value_after. apply Hk.
Qed.

(** The answer to the public-key request gives no key body: the request
    raised (time-out, connection failure), the status is an error, or the
    body is not JSON. *)
Definition key_fetch_fails (a : reply response * store X) : bool :=
  match fst a with
  | Raises _ => true
  | Returns r =>
      http_error r || match body r with Raises _ => true | Returns _ => false end
  end.

(** The answer to the login request grants no token: the request raised,
    the status is an error, the body is not JSON, or its [msg] is not
    ["Success"]. *)
Definition login_fails (a : reply response * store X) : bool :=
  match fst a with
  | Raises _ => true
  | Returns r =>
      http_error r ||
      match body r with
      | Raises _ => true
      | Returns parsed =>
          match py_get parsed "msg" with
          | Raises _ => true
          | Returns status => negb (py_eq_str status "Success")
          end
      end
  end.

Lemma get_public_key_fails s :
  key_fetch_fails (requests_get env (public_key_request (time_ms env s)) s) = true ->
  exists e, value (_get_public_key env s) = Raise e.
Proof.
  unfold key_fetch_fails, _get_public_key, bind, read, call_ext, raise_for_status, lift.
  destruct (requests_get env _ s) as [[r|e] s']; cbn [fst snd of_reply].
  - destruct (http_error r); cbn; [eauto|].
    destruct (body r); cbn; [discriminate | eauto].
  - cbn; eauto.
Qed.

(** A run that ends with the empty token or with an exception. *)
Definition no_token (o : outcome X json) : Prop :=
  value o = Ok (JStr "") \/ exists e, value o = Raise e.

Lemma authenticate_fails js enc s :
  (forall req s2, login_fails (requests_post env req s2) = true) ->
  no_token (_authenticate env js enc s).
Proof.
  intros H. unfold no_token, _authenticate, bind, call_ext, raise_for_status, lift.
  destruct (py_getitem js "API_Server") as [api|e]; cbn; [|eauto].
  destruct (py_getitem js "sunsynk_user") as [user|e]; cbn; [|eauto].
  specialize (H (token_request api enc user) s). unfold login_fails in H.
  destruct (requests_post env _ s) as [[r|e] s']; cbn [fst snd of_reply] in *;
    [|cbn; eauto].
  destruct (http_error r); cbn in *; [eauto|].
  destruct (body r) as [parsed|e]; cbn; [|eauto].
  destruct (py_get parsed "msg") as [status|e]; cbn; [|eauto].
  apply negb_true_iff in H. rewrite H.
  destruct (py_getitem parsed "msg"); cbn; eauto.
Qed.

Lemma gettoken_try_fails js s :
  key_fetch_fails (requests_get env (public_key_request (time_ms env s)) s) = true
  \/ (forall req s2, login_fails (requests_post env req s2) = true) ->
  no_token (gettoken_try env js s).
Proof.
  intros [H|H]; unfold gettoken_try; rewrite bind_run.
  - destruct (get_public_key_fails _ H) as [e ->]. right. eexists. reflexivity.
  - destruct (value (_get_public_key env s)) as [key|e|c] eqn:E.
    + rewrite bind_run. unfold lift at 1 2. cbn [value events final].
      destruct (py_getitem js "sunsynk_pass") as [pw|e]; cbn [of_reply value].
      * rewrite bind_run.
        destruct (value (_encrypt_password env pw key _)) as [enc|e|c] eqn:E2.
        -- unfold no_token. rewrite !value_after. apply authenticate_fails, H.
        -- right. rewrite value_after. eexists. reflexivity.
        -- exfalso. exact (no_exit_encrypt_password _ _ _ _ E2).
      * right. rewrite value_after. eexists. reflexivity.
    + right. eexists. reflexivity.
    + exfalso. exact (no_exit_get_public_key _ _ E).
Qed.

End GetTokenFacts.

Section Authenticate.

Context {X : Type} (env : Env X).

Definition is_print (ev : event) : Prop :=
  match ev with Print _ => True | _ => False end.

(** What [_authenticate] does once its request has been answered with a
    status that is no error and a JSON body with a [msg] field. *)
Lemma authenticate_answered json_settings encrypted_password api_server username
  s r parsed msg :
  py_getitem json_settings "API_Server" = Returns api_server ->
  py_getitem json_settings "sunsynk_user" = Returns username ->
  let req := token_request api_server encrypted_password username in
  fst (requests_post env req s) = Returns r ->
  http_error r = false ->
  body r = Returns parsed ->
  py_getitem parsed "msg" = Returns msg ->
  _authenticate env json_settings encrypted_password s =
  if py_eq_str msg "Success" then
    mkOut [HttpPost req; Print [Col OKGREEN; Lit "Sunsynk Login: "; Val msg; Col ENDC]]
          (snd (requests_post env req s))
          (match py_getitem parsed "data" with
           | Raises e => Raise e
           | Returns data => of_reply (py_getitem data "access_token")
           end)
  else
    mkOut [HttpPost req; Print [Col FAIL; Lit "Sunsynk Login: "; Val msg; Col ENDC]]
          (snd (requests_post env req s)) (Ok (JStr "")).
Proof.
  intros Hs Hu req Hr Hst Hb Hm.
  unfold _authenticate, bind, lift, call_ext, raise_for_status.
  rewrite Hs, Hu. cbn [of_reply value final events app]. fold req.
  rewrite Hr. cbn [of_reply]. rewrite Hst. cbn [of_reply ret]. rewrite Hb.
  cbn [of_reply].
  rewrite (py_getitem_get _ _ _ Hm). cbn [of_reply].
  destruct (py_eq_str msg "Success"); rewrite Hm; cbn.
  - destruct (py_getitem parsed "data") as [data|e]; cbn; [|reflexivity].
    destruct (py_getitem data "access_token"); reflexivity.
  - reflexivity.
Qed.

(** C8.  [_authenticate] sends one POST whose JSON body has exactly the
    fields [areaCode], [client_id], [grant_type], [password] (the encrypted
    secret), [source] and [username], in that order, with a time-out of 10
    seconds.  When the answer's [msg] is ["Success"] it returns
    [data.access_token]; when [msg] is anything else it returns the empty
    string; in both cases it prints the server's [msg] unchanged after
    ["Sunsynk Login: "]. *)
Theorem authenticate_contract json_settings encrypted_password api_server username
  s r parsed msg :
  py_getitem json_settings "API_Server" = Returns api_server ->
  py_getitem json_settings "sunsynk_user" = Returns username ->
  let req := token_request api_server encrypted_password username in
  fst (requests_post env req s) = Returns r ->
  http_error r = false ->
  body r = Returns parsed ->
  py_getitem parsed "msg" = Returns msg ->
  let o := _authenticate env json_settings encrypted_password s in
  (exists rest, events o = HttpPost req :: rest /\ Forall is_print rest)
  /\ json_body req =
       Some (JObj [("areaCode", JStr "sunsynk");
                   ("client_id", JStr "csp-web");
                   ("grant_type", JStr "password");
                   ("password", encrypted_password);
                   ("source", JStr "sunsynk");
                   ("username", username)])
  /\ timeout req = 10%Z
  /\ (msg = JStr "Success" ->
      events o = [HttpPost req;
                  Print [Col OKGREEN; Lit "Sunsynk Login: "; Val msg; Col ENDC]]
      /\ forall data token,
           py_getitem parsed "data" = Returns data ->
           py_getitem data "access_token" = Returns token ->
           value o = Ok token)
  /\ (msg <> JStr "Success" ->
      events o = [HttpPost req;
                  Print [Col FAIL; Lit "Sunsynk Login: "; Val msg; Col ENDC]]
      /\ value o = Ok (JStr "")).
Proof.
  intros Hs Hu req Hr Hst Hb Hm o.
  pose proof (authenticate_answered _ encrypted_password _ _ _ _ _ _
                Hs Hu Hr Hst Hb Hm) as Ho.
  fold req in Ho. fold o in Ho.
  split; [|split; [reflexivity|split; [reflexivity|split]]].
  - rewrite Ho. destruct (py_eq_str msg "Success"); cbn;
      eexists; (split; [reflexivity|]); repeat constructor.
  - intros ->. rewrite Ho. cbn. split; [reflexivity|].
    intros data token Hd Ht. now rewrite Hd, Ht.
  - intros Hne. apply py_eq_str_false in Hne. rewrite Ho, Hne. now split.
Qed.

End Authenticate.

(** ** The run without a token *)

(** Events that belong to the processing of an inverter. *)
Definition device_work (ev : event) : Prop :=
  match ev with
  | Call _ _ | ThreadStart _ | ThreadJoin _ | Remove _ => True
  | _ => False
  end.

Definition no_device_work (ev : event) : Prop := ~ device_work ev.

Section NoToken.

Context {X : Type} (env : Env X).

Lemma events_bind_at (P : event -> Prop) A B (m : M X A) (f : A -> M X B) s :
  Forall P (events (m s)) ->
  (forall a, value (m s) = Ok a -> Forall P (events (f a (final (m s))))) ->
  Forall P (events (bind m f s)).
Proof.
  intros Hm Hf. rewrite bind_run.
  destruct (value (m s)) as [a|e|c]; cbn [events]; try exact Hm.
  rewrite events_after. apply Forall_app. split; [exact Hm | now apply Hf].
Qed.

Lemma emits_print_colored P msg c :
  P (Print ([Col c] ++ msg ++ [Col ENDC])) -> emits (X:=X) P (print_colored msg c).
Proof. intros H. unfold print_colored, print. now apply emits_emit. Qed.

Lemma emits_gettoken : emits no_device_work (gettoken env).
Proof.
  unfold gettoken. apply emits_bind.
  - unfold load_settings. apply emits_try_except.
    + apply emits_call_ext. exact (fun H => H).
    + intros e k [= <-]. unfold logging_error, print. by_parts; exact (fun H => H).
  - intros js. apply emits_try_except.
    + unfold gettoken_try, _get_public_key, _encrypt_password, _authenticate,
        raise_for_status, print_colored, print.
      by_parts; exact (fun H => H).
    + intros e k. unfold gettoken_except, print_colored, print.
      destruct (is_Timeout e); [|destruct (is_RequestException e);
                                  [|destruct (is_JSONDecodeError e)]];
        intros [= <-]; by_parts; exact (fun H => H).
Qed.

Lemma emits_get_bearer_token : emits no_device_work (get_bearer_token env).
Proof.
  unfold get_bearer_token. apply emits_try_except.
  - apply emits_bind; [apply emits_gettoken|]. intros tok.
    unfold print. by_parts; exact (fun H => H).
  - intros e k [= <-]. unfold logging_error, print_colored, print.
    by_parts; exact (fun H => H).
Qed.

Lemma get_bearer_token_value s tok :
  value (gettoken env s) = Ok tok ->
  value (get_bearer_token env s) = Ok (Some tok).
Proof.
  intros H. unfold get_bearer_token. rewrite try_except_run, bind_run, H.
  rewrite !value_after, bind_run.
  destruct (py_truthy tok); reflexivity.
Qed.

Lemma main_without_token json_settings inverter_serials s tok :
  value (gettoken env s) = Ok tok ->
  py_truthy tok = false ->
  Forall no_device_work (events (main env json_settings inverter_serials s)).
Proof.
  intros Htok Hfalse. unfold main.
  apply events_bind_at; [constructor|]. intros date _. cbn [final read].
  apply events_bind_at; [repeat constructor; exact (fun H => H)|]. intros _ _.
  cbn [final print emit].
  apply events_bind_at; [repeat constructor; exact (fun H => H)|]. intros _ _.
  cbn [final print_colored print emit].
  apply events_bind_at; [constructor|]. intros api _. cbn [final lift].
  apply events_bind_at; [repeat constructor; exact (fun H => H)|]. intros _ _.
  cbn [final print emit].
  apply events_bind_at; [repeat constructor; exact (fun H => H)|]. intros _ _.
  cbn [final print emit].
  apply events_bind_at; [repeat constructor; exact (fun H => H)|]. intros _ _.
  cbn [final print emit].
  apply events_bind_at; [apply emits_get_bearer_token|]. intros got Hgot.
  rewrite (get_bearer_token_value _ _ Htok) in Hgot. injection Hgot as <-.
  rewrite Hfalse.
  unfold print_colored, print. by_parts; exact (fun H => H).
Qed.

End NoToken.

(** ** Entity check *)

Section EntityFacts.

Context {X : Type} (env : Env X).

Lemma load_ha_settings_ok path s j s1 :
  open_json env path s = (Returns j, s1) ->
  load_ha_settings env path s = mkOut [OpenFile path] s1 (Ok j).
Proof.
  intros H. unfold load_ha_settings. rewrite try_except_run.
  unfold call_ext. rewrite H. reflexivity.
Qed.

Lemma load_ha_settings_raises path s e s1 :
  open_json env path s = (Raises e, s1) ->
  value (load_ha_settings env path s) = Raise e.
Proof.
  intros H. unfold load_ha_settings. rewrite try_except_run.
  unfold call_ext. rewrite H. reflexivity.
Qed.

(** The URL and headers built from loaded settings. *)
Definition ha_base_url (enable_https ip port : json) : fstring :=
  [Lit (if py_truthy enable_https then "https" else "http");
   Lit "://"; Val ip; Lit ":"; Val port].

Definition ha_headers (token : json) : list (string * fstring) :=
  [("Content-Type", [Lit "application/json"]);
   ("Authorization", [Lit "Bearer "; Val token])].

Lemma get_ha_url_and_headers_ok path s settings s1 https ip port token :
  open_json env path s = (Returns settings, s1) ->
  py_getitem settings "Enable_HTTPS" = Returns https ->
  py_getitem settings "Home_Assistant_IP" = Returns ip ->
  py_getitem settings "Home_Assistant_PORT" = Returns port ->
  py_getitem settings "HA_LongLiveToken" = Returns token ->
  get_ha_url_and_headers env path s =
  mkOut [OpenFile path] s1 (Ok (ha_base_url https ip port, ha_headers token)).
Proof.
  intros Hload H1 H2 H3 H4. unfold get_ha_url_and_headers.
  rewrite (bind_ok _ _ _ _ _ _ _ _ (load_ha_settings_ok _ _ _ _ Hload)).
  unfold bind, lift, ret, after. rewrite H1, H2, H3, H4. reflexivity.
Qed.

(** The [try] block of [check_entity_exists]. *)
Lemma check_entity_exists_try entity_id config_path s settings s1
  https ip port token (k : response -> M X bool) :
  open_json env config_path s = (Returns settings, s1) ->
  py_getitem settings "Enable_HTTPS" = Returns https ->
  py_getitem settings "Home_Assistant_IP" = Returns ip ->
  py_getitem settings "Home_Assistant_PORT" = Returns port ->
  py_getitem settings "HA_LongLiveToken" = Returns token ->
  let req := entity_request (ha_base_url https ip port) (ha_headers token)
                            entity_id in
  let a := requests_get env req s1 in
  (cfg <- get_ha_url_and_headers env config_path ;;
   response <- call_ext (HttpGet (entity_request (fst cfg) (snd cfg) entity_id))
                 (requests_get env (entity_request (fst cfg) (snd cfg) entity_id)) ;;
   k response) s =
  match fst a with
  | Returns r => after [OpenFile config_path; HttpGet req] (k r (snd a))
  | Raises e => mkOut [OpenFile config_path; HttpGet req] (snd a) (Raise e)
  end.
Proof.
  intros Hload H1 H2 H3 H4 req a.
  rewrite (bind_ok _ _ _ _ _ _ _ _
             (get_ha_url_and_headers_ok _ _ _ _ _ _ _ _ Hload H1 H2 H3 H4)).
  cbn [fst snd]. fold req. unfold bind, call_ext, after. fold a.
  destruct (fst a) as [r|e]; cbn [of_reply]; [|reflexivity].
  destruct (k r (snd a)); reflexivity.
Qed.

(** C9, as the code has it.  Once the Home Assistant settings are loaded
    and hold the four connection fields, [check_entity_exists] does not
    raise: it returns [True] exactly when the GET of
    [/api/states/{entity_id}] is answered with status 200, and [False] for
    404, for any other status and for any request exception. *)
Theorem check_entity_exists_result entity_id config_path s settings s1
  https ip port token :
  open_json env config_path s = (Returns settings, s1) ->
  py_getitem settings "Enable_HTTPS" = Returns https ->
  py_getitem settings "Home_Assistant_IP" = Returns ip ->
  py_getitem settings "Home_Assistant_PORT" = Returns port ->
  py_getitem settings "HA_LongLiveToken" = Returns token ->
  let req := entity_request (ha_base_url https ip port) (ha_headers token)
                            entity_id in
  let answer := fst (requests_get env req s1) in
  (forall e, answer = Raises e -> is_RequestException e = true) ->
  exists b,
    value (check_entity_exists env entity_id config_path s) = Ok b
    /\ (b = true <-> exists r, answer = Returns r /\ status_code r = 200%Z).
Proof.
  intros Hload H1 H2 H3 H4 req answer Hexc.
  unfold check_entity_exists. rewrite try_except_run.
  rewrite (check_entity_exists_try entity_id _ _ _ _ _ _ _ _ _ Hload H1 H2 H3 H4).
  fold req. fold answer.
  destruct answer as [r|e] eqn:Ha.
  - rewrite value_after.
    destruct (status_code r =? 200)%Z eqn:E200.
    + exists true. split; [reflexivity|]. split; [|reflexivity].
      intros _. exists r. split; [reflexivity|]. now apply Z.eqb_eq.
    + exists false.
      assert (Hno : false = true <->
                    exists r0, Returns r = Returns r0 /\ status_code r0 = 200%Z).
      { split; [discriminate|]. intros (r0 & [= <-] & H200).
        apply Z.eqb_neq in E200. contradiction. }
      split; [|exact Hno].
      destruct (status_code r =? 404)%Z; [reflexivity|].
      unfold raise_for_status, bind.
      destruct (http_error r); cbn; reflexivity.
  - exists false. cbn [value]. rewrite (Hexc e eq_refl). rewrite value_after.
    split; [reflexivity|]. split; [discriminate|]. intros (r0 & [=] & _).
Qed.

End EntityFacts.

(** ** The public-key file *)

(** The lines of a text, split at line feeds. *)
Fixpoint lines (s : string) : list string :=
  match s with
  | EmptyString => [""]
  | String c rest =>
      if Ascii.eqb c "010"%char then "" :: lines rest
      else match lines rest with
           | l :: ls => String c l :: ls
           | [] => [String c ""]
           end
  end.

Lemma public_key_file_text data :
  public_key_file (JStr data) =
  Returns ("-----BEGIN PUBLIC KEY-----" ++ data ++ "-----END PUBLIC KEY-----")%string.
Proof. reflexivity. Qed.

(** ** The threads of [execute_api_calls] *)

Section ListFacts.

Context {A : Type}.

Lemma update_split (l : list A) i t t' :
  nth_error l i = Some t ->
  exists l1 l2,
    l = l1 ++ t :: l2 /\ length l1 = i /\ update i t' l = l1 ++ t' :: l2.
Proof.
  revert i. induction l as [|x l IH]; intros [|i] H; cbn in *; try discriminate.
  - injection H as ->. exists [], l. auto.
  - destruct (IH i H) as (l1 & l2 & -> & <- & Hu).
    exists (x :: l1), l2. cbn. rewrite Hu. auto.
Qed.

Lemma firstn_succ_nth (l : list A) j t :
  nth_error l j = Some t -> firstn (S j) l = firstn j l ++ [t].
Proof.
  revert j. induction l as [|x l IH]; intros [|j] H; cbn in *; try discriminate.
  - now injection H as ->.
  - now rewrite (IH j H).
Qed.

Lemma firstn_inside (l1 l2 : list A) j :
  j <= length l1 -> firstn j (l1 ++ l2) = firstn j l1.
Proof.
  intros H. rewrite firstn_app.
  replace (j - length l1) with 0 by lia. cbn. apply app_nil_r.
Qed.

Lemma nth_error_middle (l1 l2 : list A) t : nth_error (l1 ++ t :: l2) (length l1) = Some t.
Proof. induction l1; cbn; auto. Qed.

Lemma nth_error_middle_other (l1 l2 : list A) t t' j :
  j <> length l1 -> nth_error (l1 ++ t' :: l2) j = nth_error (l1 ++ t :: l2) j.
Proof.
  revert j. induction l1 as [|x l1 IH]; intros [|j] H; cbn in *; auto.
  - contradiction.
Qed.

End ListFacts.

(** What a trace says about threads, calls and the log. *)
Definition starts (tr : list event) : list api_fn :=
  flat_map (fun ev => match ev with ThreadStart f => [f] | _ => [] end) tr.

Definition joins (tr : list event) : list api_fn :=
  flat_map (fun ev => match ev with ThreadJoin f => [f] | _ => [] end) tr.

Definition calls (tr : list event) : list (callee * list json) :=
  flat_map (fun ev => match ev with Call f args => [(f, args)] | _ => [] end) tr.

Definition logged_errors (tr : list event) : list fstring :=
  flat_map (fun ev => match ev with LogError msg => [msg] | _ => [] end) tr.

Lemma starts_app a b : starts (a ++ b) = starts a ++ starts b.
Proof. apply flat_map_app. Qed.

Lemma joins_app a b : joins (a ++ b) = joins a ++ joins b.
Proof. apply flat_map_app. Qed.

Lemma calls_app a b : calls (a ++ b) = calls a ++ calls b.
Proof. apply flat_map_app. Qed.

Lemma logged_errors_app a b :
  logged_errors (a ++ b) = logged_errors a ++ logged_errors b.
Proof. apply flat_map_app. Qed.

(** The thread has made its call to the telemetry function. *)
Definition called (t : thread) : bool :=
  match th_pc t with
  | AtPrint | AtCall => false
  | _ => true
  end.

Definition completed_message : event :=
  Print [Col OKGREEN; Lit "All API calls completed successfully!"; Col ENDC].

Section Pool.

Context {X : Type} (env : Env X) (bearer_token : json) (serial_item : string).

Let call_of (t : thread) : callee * list json :=
  (Api (th_fn t), [bearer_token; JStr serial_item]).

Record pool_inv (p : pool (X:=X)) : Prop := {
  inv_registry :
    map (fun t => (th_fn t, th_desc t)) (threads p) ++ pending p = api_calls;
  inv_joined : joined p <= length (threads p);
  inv_joined_done :
    Forall (fun t => th_pc t = Returned) (firstn (joined p) (threads p));
  inv_finished :
    finished p = true -> pending p = [] /\ joined p = length (threads p);
  inv_starts : starts (trace p) = map th_fn (threads p);
  inv_joins : joins (trace p) = map th_fn (firstn (joined p) (threads p));
  inv_calls :
    Permutation (calls (trace p)) (map call_of (filter called (threads p)));
  inv_last :
    finished p = true -> exists evs, trace p = evs ++ [completed_message]
}.

Lemma pool_inv_init s : pool_inv (init_pool s).
Proof.
  constructor; cbn; auto; discriminate.
Qed.

Lemma finished_all_returned p :
  pool_inv p -> finished p = true ->
  Forall (fun t => th_pc t = Returned) (threads p).
Proof.
  intros I F. destruct (inv_finished p I F) as [_ Hj].
  pose proof (inv_joined_done p I) as H. rewrite Hj, firstn_all in H. exact H.
Qed.

Lemma main_step_inv p : pool_inv p -> pool_inv (main_step p).
Proof.
  intros I. unfold main_step.
  destruct (finished p) eqn:F; [exact I|].
  destruct (pending p) as [|[f d] rest] eqn:P.
  - destruct (nth_error (threads p) (joined p)) as [t|] eqn:N.
    + destruct (terminated (th_pc t)) eqn:T; [|exact I].
      assert (Hpc : th_pc t = Returned) by (destruct (th_pc t); now try discriminate).
      assert (Hlt : joined p < length (threads p))
        by (apply nth_error_Some; congruence).
      constructor; cbn [pending threads joined finished trace heap];
        try discriminate.
      * rewrite <- P. apply I.
      * exact Hlt.
      * rewrite (firstn_succ_nth _ _ _ N). apply Forall_app. split; [apply I|].
        now constructor.
      * rewrite starts_app. cbn. rewrite app_nil_r. apply I.
      * rewrite joins_app, (firstn_succ_nth _ _ _ N), map_app.
        cbn. f_equal. apply I.
      * rewrite calls_app. cbn. rewrite app_nil_r. apply I.
    + apply nth_error_None in N. pose proof (inv_joined p I) as J.
      constructor; cbn [pending threads joined finished trace heap events
                          print_colored print emit app].
      * rewrite <- P. apply I.
      * exact J.
      * apply I.
      * intros _. split; [reflexivity | lia].
      * rewrite starts_app. cbn. rewrite app_nil_r. apply I.
      * rewrite joins_app. cbn. rewrite app_nil_r. apply I.
      * rewrite calls_app. cbn. rewrite app_nil_r. apply I.
      * intros _. eexists. reflexivity.
  - pose proof (inv_joined p I) as J.
    constructor; cbn [pending threads joined finished trace heap];
      try discriminate.
    + rewrite map_app, <- app_assoc. cbn. rewrite <- P. apply I.
    + rewrite length_app. cbn. lia.
    + rewrite firstn_inside by exact J. apply I.
    + rewrite starts_app, map_app. cbn. f_equal. apply I.
    + rewrite joins_app. cbn. rewrite app_nil_r.
      rewrite firstn_inside by exact J. apply I.
    + rewrite calls_app. cbn. rewrite app_nil_r.
      rewrite filter_app. cbn. rewrite app_nil_r. apply I.
Qed.

(** What one statement of [fetch_data] adds to the trace. *)
Lemma fetch_data_step_events f d pc s :
  let '(evs, _, pc') := fetch_data_step env f bearer_token serial_item d pc s in
  starts evs = [] /\ joins evs = []
  /\ calls evs = match pc with
                 | AtCall => [(Api f, [bearer_token; JStr serial_item])]
                 | _ => []
                 end
  /\ (match pc with AtCall => True | _ => called (mkThread f d pc') = called (mkThread f d pc) end)
  /\ (pc = AtCall -> called (mkThread f d pc') = true).
Proof.
  destruct pc; cbn; repeat split; try discriminate.
  intros _. unfold called. cbn.
  destruct (fst (getapi env f bearer_token serial_item s)); reflexivity.
Qed.

Lemma thread_step_inv i p : pool_inv p -> pool_inv (thread_step env bearer_token serial_item i p).
Proof.
  intros I. unfold thread_step.
  destruct (nth_error (threads p) i) as [t|] eqn:N; [|exact I].
  destruct (terminated (th_pc t)) eqn:T; [exact I|].
  pose proof (fetch_data_step_events (th_fn t) (th_desc t) (th_pc t) (heap p)) as Hev.
  destruct (fetch_data_step env (th_fn t) bearer_token serial_item (th_desc t)
              (th_pc t) (heap p)) as [[evs s'] pc'].
  destruct Hev as (Hst & Hjo & Hca & Hsame & Hcall).
  destruct (update_split _ _ _ (mkThread (th_fn t) (th_desc t) pc') N)
    as (l1 & l2 & Hl & Hlen & Hup).
  assert (Hnot : th_pc t <> Returned)
    by (intros E; rewrite E in T; discriminate).
  assert (Hfin : finished p = false).
  { destruct (finished p) eqn:F; [|reflexivity]. exfalso. apply Hnot.
    pose proof (finished_all_returned p I F) as Hall.
    rewrite Forall_forall in Hall. apply Hall. eapply nth_error_In, N. }
  assert (Hpre : firstn (joined p) (l1 ++ mkThread (th_fn t) (th_desc t) pc' :: l2)
                 = firstn (joined p) (threads p)).
  { pose proof (inv_joined_done p I) as D. rewrite Hl in *.
    rewrite !firstn_app in *.
    destruct (joined p - length l1) as [|k]; [reflexivity|].
    exfalso. apply Hnot. cbn in D. apply Forall_app in D. destruct D as [_ D].
    now inversion D. }
  constructor; cbn [pending threads joined finished trace heap]; rewrite ?Hup.
  - rewrite <- (inv_registry p I). rewrite Hl, !map_app. reflexivity.
  - rewrite length_app. cbn. pose proof (inv_joined p I) as J.
    rewrite Hl, length_app in J. exact J.
  - rewrite Hpre. apply I.
  - rewrite Hfin. discriminate.
  - rewrite starts_app, Hst, app_nil_r.
    rewrite (inv_starts p I), Hl, !map_app. reflexivity.
  - rewrite joins_app, Hjo, app_nil_r, Hpre. apply I.
  - pose proof (inv_calls p I) as C. rewrite Hl in C.
    rewrite calls_app, Hca. rewrite filter_app in *. cbn [filter] in *.
    unfold called in Hsame, Hcall, C |- *. cbn [th_pc] in *.
    destruct (th_pc t) eqn:Epc; try (now contradiction Hnot);
      try (rewrite Hsame, app_nil_r; rewrite !map_app in *; exact C).
    rewrite (Hcall eq_refl). rewrite !map_app in *. cbn [map].
    rewrite Permutation_app_comm. cbn [app].
    apply Permutation_cons_app. exact C.
  - rewrite Hfin. discriminate.
Qed.

Lemma step_inv c p : pool_inv p -> pool_inv (step env bearer_token serial_item c p).
Proof. destruct c; [apply main_step_inv | apply thread_step_inv]. Qed.

Lemma run_inv choices p :
  pool_inv p -> pool_inv (run env bearer_token serial_item choices p).
Proof.
  revert p. induction choices as [|c cs IH]; intros p I; cbn; [exact I|].
  apply IH, step_inv, I.
Qed.

Lemma iter_inv (f : pool -> pool) n p :
  (forall q, pool_inv q -> pool_inv (f q)) -> pool_inv p -> pool_inv (Nat.iter n f p).
Proof. intros Hf I. induction n; cbn; auto. Qed.

Lemma drain_inv p : pool_inv p -> pool_inv (drain env bearer_token serial_item p).
Proof.
  intros I. unfold drain.
  apply iter_inv; [apply main_step_inv|].
  set (p1 := Nat.iter _ main_step p).
  assert (I1 : pool_inv p1) by (apply iter_inv; [apply main_step_inv | exact I]).
  clearbody p1. generalize (seq 0 (length (threads p1))). intros l.
  revert p1 I1. induction l as [|i l IH]; intros q Iq; cbn [fold_left]; [exact Iq|].
  apply IH, iter_inv; [apply thread_step_inv | exact Iq].
Qed.

Lemma api_pool_inv s : pool_inv (api_pool env bearer_token serial_item s).
Proof. apply drain_inv, run_inv, pool_inv_init. Qed.

End Pool.

(** *** Every schedule lets [execute_api_calls] return *)

(** The statements a thread has still to run, at most. *)
Definition steps_left (pc : fetch_pc) : nat :=
  match pc with
  | AtPrint => 5
  | AtCall => 4
  | AtLogError _ => 3
  | AtPrintError _ => 2
  | AtTraceback _ => 1
  | Returned => 0
  end.

Section PoolProgress.

Context {X : Type} (env : Env X) (bearer_token : json) (serial_item : string).

Local Notation "'tstep'" := (thread_step env bearer_token serial_item).

Definition returned_at (p : pool (X:=X)) (j : nat) : Prop :=
  exists t, nth_error (threads p) j = Some t /\ th_pc t = Returned.

Lemma steps_left_zero pc : steps_left pc = 0 -> pc = Returned.
Proof. destruct pc; cbn; congruence. Qed.

Lemma thread_step_frame i p :
  pending (tstep i p) = pending p /\ joined (tstep i p) = joined p
  /\ finished (tstep i p) = finished p
  /\ length (threads (tstep i p)) = length (threads p).
Proof.
  unfold thread_step. destruct (nth_error (threads p) i) as [t|] eqn:N; [|auto].
  destruct (terminated (th_pc t)); [auto|].
  destruct (fetch_data_step _ _ _ _ _ _ _) as [[evs s'] pc']. cbn.
  repeat split.
  destruct (update_split _ _ _ (mkThread (th_fn t) (th_desc t) pc') N)
    as (l1 & l2 & Hl & _ & ->).
  rewrite Hl, !length_app. reflexivity.
Qed.

Lemma thread_step_other i j p :
  i <> j -> nth_error (threads (tstep i p)) j = nth_error (threads p) j.
Proof.
  intros Hij. unfold thread_step.
  destruct (nth_error (threads p) i) as [t|] eqn:N; [|reflexivity].
  destruct (terminated (th_pc t)); [reflexivity|].
  destruct (fetch_data_step _ _ _ _ _ _ _) as [[evs s'] pc']. cbn.
  destruct (update_split _ _ _ (mkThread (th_fn t) (th_desc t) pc') N)
    as (l1 & l2 & Hl & Hlen & ->).
  rewrite Hl. apply nth_error_middle_other. congruence.
Qed.

Lemma thread_step_progress i p t :
  nth_error (threads p) i = Some t ->
  exists t', nth_error (threads (tstep i p)) i = Some t'
             /\ steps_left (th_pc t') <= pred (steps_left (th_pc t)).
Proof.
  intros N. unfold thread_step. rewrite N.
  destruct (terminated (th_pc t)) eqn:T.
  - exists t. split; [exact N|]. destruct (th_pc t); try discriminate. cbn. lia.
  - destruct (fetch_data_step _ _ _ _ _ _ _) as [[evs s'] pc'] eqn:F. cbn.
    destruct (update_split _ _ _ (mkThread (th_fn t) (th_desc t) pc') N)
      as (l1 & l2 & Hl & Hlen & ->).
    eexists. split; [rewrite <- Hlen; apply nth_error_middle|]. cbn.
    destruct (th_pc t); cbn in F; injection F as _ _ <-; cbn; try lia.
    destruct (fst (getapi env (th_fn t) bearer_token serial_item (heap p)));
      cbn; lia.
Qed.

Lemma thread_step_keeps i j p : returned_at p j -> returned_at (tstep i p) j.
Proof.
  intros (t & N & R). destruct (Nat.eq_dec i j) as [->|Hij].
  - unfold thread_step. rewrite N, R. cbn. now exists t.
  - exists t. now rewrite thread_step_other.
Qed.

Lemma thread_run_returns n i p t :
  nth_error (threads p) i = Some t -> steps_left (th_pc t) <= n ->
  returned_at (Nat.iter n (tstep i) p) i.
Proof.
  revert p t. induction n as [|n IH]; intros p t N L.
  - exists t. split; [exact N|]. apply steps_left_zero. lia.
  - rewrite Nat.iter_succ_r.
    destruct (thread_step_progress i p t N) as (t' & N' & L').
    apply (IH _ t' N'). lia.
Qed.

Lemma thread_run_frame n i p :
  let p' := Nat.iter n (tstep i) p in
  pending p' = pending p /\ joined p' = joined p /\ finished p' = finished p
  /\ length (threads p') = length (threads p)
  /\ forall j, returned_at p j -> returned_at p' j.
Proof.
  cbv zeta. induction n as [|n IH]; [cbn; tauto|].
  rewrite Nat.iter_succ.
  destruct IH as (H1 & H2 & H3 & H4 & H5).
  destruct (thread_step_frame i (Nat.iter n (tstep i) p)) as (G1 & G2 & G3 & G4).
  repeat split; try congruence.
  intros j R. apply thread_step_keeps, H5, R.
Qed.

Lemma steps_left_bound pc : steps_left pc <= 5.
Proof. destruct pc; cbn; lia. Qed.

Lemma threads_run_all l p :
  let p' := fold_left (fun q i => Nat.iter 5 (tstep i) q) l p in
  pending p' = pending p /\ joined p' = joined p /\ finished p' = finished p
  /\ length (threads p') = length (threads p)
  /\ (forall j, returned_at p j -> returned_at p' j)
  /\ (forall j, In j l -> j < length (threads p) -> returned_at p' j).
Proof.
  revert p. induction l as [|i l IH]; intros p; cbn [fold_left].
  - repeat split; auto. intros j [].
  - destruct (thread_run_frame 5 i p) as (F1 & F2 & F3 & F4 & F5).
    destruct (IH (Nat.iter 5 (tstep i) p)) as (H1 & H2 & H3 & H4 & H5 & H6).
    cbv zeta in *.
    repeat split; try congruence.
    + intros j R. apply H5, F5, R.
    + intros j [<-|Hin] Hlt.
      * apply H5.
        destruct (nth_error (threads p) i) as [t|] eqn:N.
        -- apply (thread_run_returns 5 i p t N), steps_left_bound.
        -- apply nth_error_None in N. lia.
      * apply H6; [exact Hin | congruence].
Qed.

Lemma main_step_finished (p : pool (X:=X)) :
  finished p = true -> main_step p = p.
Proof. intros F. unfold main_step. now rewrite F. Qed.

Lemma main_run_finished n (p : pool (X:=X)) :
  finished p = true -> Nat.iter n main_step p = p.
Proof.
  intros F. induction n as [|n IH]; [reflexivity|].
  rewrite Nat.iter_succ, IH. now apply main_step_finished.
Qed.

Lemma main_step_start (p : pool (X:=X)) f d rest :
  finished p = false -> pending p = (f, d) :: rest ->
  pending (main_step p) = rest /\ finished (main_step p) = false.
Proof. intros F P. unfold main_step. rewrite F, P. split; reflexivity. Qed.

Lemma main_step_join (p : pool (X:=X)) :
  finished p = false -> pending p = [] ->
  (forall j, j < length (threads p) -> returned_at p j) ->
  let p' := main_step p in
  pending p' = [] /\ threads p' = threads p
  /\ ((joined p < length (threads p) /\ joined p' = S (joined p)
       /\ finished p' = false)
      \/ finished p' = true).
Proof.
  intros F P R. unfold main_step. rewrite F, P.
  destruct (nth_error (threads p) (joined p)) as [t|] eqn:N.
  - assert (Hlt : joined p < length (threads p))
      by (apply nth_error_Some; congruence).
    destruct (R _ Hlt) as (t' & N' & Hr). rewrite N in N'. injection N' as <-.
    rewrite Hr. cbn. split; [reflexivity|]. split; [reflexivity|]. left. auto.
  - cbn. auto.
Qed.

Lemma start_all n (p : pool (X:=X)) :
  finished p = false -> length (pending p) = n ->
  pending (Nat.iter n main_step p) = [].
Proof.
  revert p. induction n as [|n IH]; intros p F L.
  - cbn. now apply length_zero_iff_nil.
  - rewrite Nat.iter_succ_r.
    destruct (pending p) as [|[f d] rest] eqn:P; [discriminate|].
    destruct (main_step_start p f d rest F P) as [P' F'].
    apply IH; [exact F'|]. rewrite P'. cbn in L. lia.
Qed.

Lemma join_all n (p : pool (X:=X)) :
  pending p = [] ->
  (forall j, j < length (threads p) -> returned_at p j) ->
  length (threads p) - joined p < n ->
  finished (Nat.iter n main_step p) = true.
Proof.
  revert p. induction n as [|n IH]; intros p P R L; [lia|].
  rewrite Nat.iter_succ_r.
  destruct (finished p) eqn:F.
  { rewrite (main_step_finished p F), main_run_finished; assumption. }
  destruct (main_step_join p F P R) as (P' & T' & [(Hlt & J' & F')|F']).
  - apply IH; [exact P'| |].
    + intros j Hj. rewrite T' in Hj. destruct (R j Hj) as (t & N & Hr).
      exists t. rewrite T'. auto.
    + rewrite T', J'. lia.
  - rewrite main_run_finished; assumption.
Qed.

Lemma drain_finished p :
  pool_inv bearer_token serial_item p ->
  finished (drain env bearer_token serial_item p) = true.
Proof.
  intros I. unfold drain.
  set (p1 := Nat.iter (length (pending p)) main_step p).
  assert (I1 : pool_inv bearer_token serial_item p1)
    by (apply iter_inv; [apply main_step_inv | exact I]).
  assert (P1 : pending p1 = []).
  { destruct (finished p) eqn:F.
    - destruct (inv_finished _ _ p I F) as [P _]. subst p1. rewrite P. exact P.
    - now apply start_all. }
  destruct (threads_run_all (seq 0 (length (threads p1))) p1)
    as (H1 & H2 & H3 & H4 & H5 & H6).
  set (p2 := fold_left _ _ p1) in *.
  apply join_all.
  - congruence.
  - intros j Hj. apply H6; [apply in_seq; lia | congruence].
  - lia.
Qed.

Lemma api_pool_finished s :
  finished (api_pool env bearer_token serial_item s) = true.
Proof. apply drain_finished, run_inv, pool_inv_init. Qed.

End PoolProgress.

(** *** One telemetry function fails *)

Lemma api_fn_eqb_eq a b : api_fn_eqb a b = true <-> a = b.
Proof. destruct a, b; cbn; split; congruence. Qed.

Lemma threads_at_end (l : list thread) reg :
  map (fun t => (th_fn t, th_desc t)) l = reg ->
  Forall (fun t => th_pc t = Returned) l ->
  l = map (fun fd => mkThread (fst fd) (snd fd) Returned) reg.
Proof.
  intros <- H. induction H as [|[f d pc] l Hpc _ IH]; cbn in *; [reflexivity|].
  now rewrite Hpc, <- IH.
Qed.

Section OneFailure.

Context {X : Type} (env : Env X) (bearer_token : json) (serial_item : string).

Variable failing : api_fn.
Variable e : exn.

Hypothesis fails :
  forall s, fst (getapi env failing bearer_token serial_item s) = Raises e.
Hypothesis others_return :
  forall f s, f <> failing ->
              fst (getapi env f bearer_token serial_item s) = Returns tt.

(** The thread has written its error to the log. *)
Definition logged (t : thread) : bool :=
  api_fn_eqb (th_fn t) failing &&
  match th_pc t with
  | AtPrintError _ | AtTraceback _ | Returned => true
  | _ => false
  end.

Definition log_of (t : thread) : list fstring :=
  if logged t then [error_fetching (th_desc t) e] else [].

Definition handler_ok (t : thread) : Prop :=
  match th_pc t with
  | AtLogError e' | AtPrintError e' | AtTraceback e' =>
      th_fn t = failing /\ e' = e
  | _ => True
  end.

Definition log_inv (p : pool (X:=X)) : Prop :=
  Forall handler_ok (threads p)
  /\ Permutation (logged_errors (trace p)) (flat_map log_of (threads p)).

Lemma log_inv_init s : log_inv (init_pool s).
Proof. split; constructor. Qed.

Lemma main_step_log_inv p : log_inv p -> log_inv (main_step p).
Proof.
  intros [H L]. unfold main_step.
  destruct (finished p); [now split|].
  destruct (pending p) as [|[f d] rest].
  - destruct (nth_error (threads p) (joined p)) as [t|].
    + destruct (terminated (th_pc t)); [|now split].
      split; cbn [threads trace]; [exact H|].
      rewrite logged_errors_app. cbn. now rewrite app_nil_r.
    + split; cbn [threads trace]; [exact H|].
      rewrite logged_errors_app. cbn. now rewrite app_nil_r.
  - split; cbn [threads trace].
    + apply Forall_app. split; [exact H|]. repeat constructor.
    + rewrite logged_errors_app, flat_map_app. cbn.
      unfold log_of at 2, logged. cbn. rewrite andb_false_r. cbn.
      now rewrite !app_nil_r.
Qed.

Lemma thread_step_log_inv i p :
  log_inv p -> log_inv (thread_step env bearer_token serial_item i p).
Proof.
  intros [H L]. unfold thread_step.
  destruct (nth_error (threads p) i) as [t|] eqn:N; [|now split].
  destruct (terminated (th_pc t)) eqn:T; [now split|].
  destruct (update_split _ _ _
              (mkThread (th_fn t) (th_desc t)
                 (snd (fetch_data_step env (th_fn t) bearer_token serial_item
                         (th_desc t) (th_pc t) (heap p)))) N)
    as (l1 & l2 & Hl & Hlen & Hup).
  destruct (fetch_data_step _ _ _ _ _ _ _) as [[evs s'] pc'] eqn:F.
  cbn [snd] in Hup. cbn [threads trace]. rewrite Hup.
  rewrite Hl in H, L. apply Forall_app in H. destruct H as [H1 H2].
  inversion H2 as [|? ? Ht H3]; subst.
  rewrite flat_map_app in *. cbn [flat_map] in *.
  unfold handler_ok in Ht.
  destruct t as [f d pc]. cbn [th_fn th_desc th_pc] in *.
  destruct pc; cbn in F; injection F as <- <- <-; try discriminate.
  - (* AtPrint *)
    split; cbn [threads trace].
    + apply Forall_app. split; [exact H1|]. now constructor.
    + rewrite logged_errors_app, flat_map_app. cbn. rewrite app_nil_r.
      unfold log_of, logged in *. cbn in *. now rewrite andb_false_r in *.
  - (* AtCall *)
    destruct (api_fn_eqb f failing) eqn:E.
    + apply api_fn_eqb_eq in E. subst f. rewrite fails.
      split; cbn [threads trace].
      * apply Forall_app. split; [exact H1|]. constructor; [|exact H3].
        unfold handler_ok. cbn. auto.
      * rewrite logged_errors_app, flat_map_app. cbn. rewrite app_nil_r.
        unfold log_of, logged in *. cbn in *. now rewrite andb_false_r in *.
    + assert (Hne : f <> failing)
        by (intros ->; rewrite (proj2 (api_fn_eqb_eq _ _) eq_refl) in E;
            discriminate).
      rewrite (others_return _ _ Hne).
      split; cbn [threads trace].
      * apply Forall_app. split; [exact H1|]. now constructor.
      * rewrite logged_errors_app, flat_map_app. cbn. rewrite app_nil_r.
        unfold log_of, logged in *. cbn in *. now rewrite E in *.
  - (* AtLogError *)
    destruct Ht as [-> ->].
    split; cbn [threads trace].
    + apply Forall_app. split; [exact H1|]. constructor; [|exact H3].
      unfold handler_ok. cbn. auto.
    + rewrite logged_errors_app, flat_map_app. cbn.
      unfold log_of at 2, logged. cbn.
      rewrite (proj2 (api_fn_eqb_eq _ _) eq_refl). cbn.
      unfold log_of at 2, logged in L. cbn in L. rewrite andb_false_r in L.
      cbn in L. rewrite Permutation_app_comm. cbn.
      now apply Permutation_cons_app.
  - (* AtPrintError *)
    destruct Ht as [-> ->].
    split; cbn [threads trace].
    + apply Forall_app. split; [exact H1|]. constructor; [|exact H3].
      unfold handler_ok. cbn. auto.
    + rewrite logged_errors_app, flat_map_app. cbn. rewrite app_nil_r. exact L.
  - (* AtTraceback *)
    destruct Ht as [-> ->].
    split; cbn [threads trace].
    + apply Forall_app. split; [exact H1|]. now constructor.
    + rewrite logged_errors_app, flat_map_app. cbn. rewrite app_nil_r. exact L.
Qed.

Lemma api_pool_log_inv s : log_inv (api_pool env bearer_token serial_item s).
Proof.
  unfold api_pool, drain, run.
  assert (Hiter : forall (f : pool -> pool) n p,
             (forall q, log_inv q -> log_inv (f q)) -> log_inv p ->
             log_inv (Nat.iter n f p)).
  { intros f n p Hf I. induction n; [exact I|]. rewrite Nat.iter_succ. auto. }
  assert (Hfold : forall A (f : pool -> A -> pool) l p,
             (forall q a, log_inv q -> log_inv (f q a)) -> log_inv p ->
             log_inv (fold_left f l p)).
  { intros A f l. induction l as [|a l IH]; intros p Hf I; cbn; auto. }
  apply Hiter; [apply main_step_log_inv|].
  apply Hfold.
  { intros q i Iq. apply Hiter; [apply thread_step_log_inv | exact Iq]. }
  apply Hiter; [apply main_step_log_inv|].
  apply Hfold; [|apply log_inv_init].
  intros q [|i] Iq; [apply main_step_log_inv | apply thread_step_log_inv]; exact Iq.
Qed.

End OneFailure.

(** The log at the end: the one line of the failing function. *)
Lemma log_at_end failing e :
  exists d, In (failing, d) api_calls /\
            flat_map (log_of failing e)
              (map (fun fd => mkThread (fst fd) (snd fd) Returned) api_calls)
            = [error_fetching d e].
Proof.
  unfold log_of, logged. destruct failing; cbn; eexists; (split; [|reflexivity]);
    cbn; tauto.
Qed.

Section FanOut.

Context {X : Type} (env : Env X) (bearer_token : json) (serial_item : string).

(** An invariant of the pool is kept by every schedule. *)
Lemma api_pool_rule (I : pool (X:=X) -> Prop) s :
  I (init_pool s) ->
  (forall q, I q -> I (main_step q)) ->
  (forall i q, I q -> I (thread_step env bearer_token serial_item i q)) ->
  I (api_pool env bearer_token serial_item s).
Proof.
  intros H0 Hm Ht. unfold api_pool, drain, run.
  assert (Hiter : forall (f : pool -> pool) n p,
             (forall q, I q -> I (f q)) -> I p -> I (Nat.iter n f p)).
  { intros f n p Hf Hp. induction n; [exact Hp|]. rewrite Nat.iter_succ. auto. }
  assert (Hfold : forall A (f : pool -> A -> pool) l p,
             (forall q a, I q -> I (f q a)) -> I p -> I (fold_left f l p)).
  { intros A f l. induction l as [|a l IH]; intros p Hf Hp; cbn; auto. }
  apply Hiter; [exact Hm|].
  apply Hfold.
  { intros q i Iq. apply Hiter; [apply Ht | exact Iq]. }
  apply Hiter; [exact Hm|].
  apply Hfold; [|exact H0].
  intros q [|i] Iq; [apply Hm | apply Ht]; exact Iq.
Qed.

(** The trace falls into two parts: threads are started in the first
    only and joined in the second only, and the second begins when
    nothing is left to start. *)
Definition fan_inv (p : pool (X:=X)) : Prop :=
  exists tr1 tr2,
    trace p = tr1 ++ tr2 /\ joins tr1 = [] /\ starts tr2 = []
    /\ (pending p <> [] -> tr2 = []).

Lemma fan_inv_init s : fan_inv (init_pool s).
Proof. exists [], []. repeat split. Qed.

Lemma main_step_fan p : fan_inv p -> fan_inv (main_step p).
Proof.
  intros (tr1 & tr2 & Htr & Hj & Hs & Hp). unfold main_step.
  destruct (finished p); [exists tr1, tr2; auto|].
  destruct (pending p) as [|[f d] rest] eqn:P.
  - destruct (nth_error (threads p) (joined p)) as [t|].
    + destruct (terminated (th_pc t)).
      * exists tr1, (tr2 ++ [ThreadJoin (th_fn t)]).
        cbn [trace pending]. rewrite Htr, app_assoc, starts_app, Hs.
        repeat split; auto; intros H; now contradiction H.
      * exists tr1, tr2. rewrite P.
        repeat split; auto; intros H; now contradiction H.
    + exists tr1, (tr2 ++ [completed_message]).
      cbn [trace pending events print_colored print emit app].
      rewrite Htr, app_assoc, starts_app, Hs.
      repeat split; auto; intros H; now contradiction H.
  - assert (E : tr2 = []) by (apply Hp; discriminate). subst tr2.
    exists (tr1 ++ [ThreadStart f]), [].
    cbn [trace pending]. rewrite Htr, !app_nil_r, joins_app, Hj.
    repeat split; auto.
Qed.

Lemma thread_step_fan i p :
  fan_inv p -> fan_inv (thread_step env bearer_token serial_item i p).
Proof.
  intros (tr1 & tr2 & Htr & Hj & Hs & Hp). unfold thread_step.
  destruct (nth_error (threads p) i) as [t|]; [|exists tr1, tr2; auto].
  destruct (terminated (th_pc t)); [exists tr1, tr2; auto|].
  pose proof (fetch_data_step_events env bearer_token serial_item
                (th_fn t) (th_desc t) (th_pc t) (heap p)) as Hev.
  destruct (fetch_data_step env (th_fn t) bearer_token serial_item (th_desc t)
              (th_pc t) (heap p)) as [[evs s'] pc'].
  destruct Hev as (Hst & Hjo & _).
  cbn [trace pending].
  destruct (pending p) as [|fd rest] eqn:P.
  - exists tr1, (tr2 ++ evs). rewrite Htr, app_assoc, starts_app, Hs, Hst.
    repeat split; auto; intros H; now contradiction H.
  - assert (E : tr2 = []) by (apply Hp; discriminate). subst tr2.
    exists (tr1 ++ evs), []. rewrite Htr, !app_nil_r, joins_app, Hj, Hjo.
    repeat split; auto.
Qed.

Lemma api_pool_fan s : fan_inv (api_pool env bearer_token serial_item s).
Proof.
  apply api_pool_rule;
    [apply fan_inv_init | apply main_step_fan | apply thread_step_fan].
Qed.

End FanOut.

Section ApiCalls.

Context {X : Type} (env : Env X).

(** C4.  Whatever the scheduler does, [execute_api_calls] returns, without
    raising, after it has started one thread for each of the eight
    registered functions, in the order of the registry, and joined every
    one of them.  It fans out and then joins: every thread is started
    before the first one is joined, so that all eight are under way
    together before [execute_api_calls] waits for any of them.  When it
    returns, every thread has run [fetch_data] to its end, each function
    has been called exactly once with the token and the serial, and the
    message that all calls are completed is the last event.  If one
    function raises and the others return, the log holds exactly one error
    line, the one with the label of the failing function. *)
Theorem execute_api_calls_joins_all bearer_token serial_item s :
  let p := api_pool env bearer_token serial_item s in
  let o := execute_api_calls env bearer_token serial_item s in
  value o = Ok tt /\ events o = trace p
  /\ finished p = true /\ pending p = []
  /\ threads p = map (fun fd => mkThread (fst fd) (snd fd) Returned) api_calls
  /\ length (threads p) = 8 /\ joined p = 8
  /\ starts (trace p) = map fst api_calls
  /\ joins (trace p) = map fst api_calls
  /\ Permutation (calls (trace p))
       (map (fun fd => (Api (fst fd), [bearer_token; JStr serial_item]))
            api_calls)
  /\ (exists evs, trace p = evs ++ [completed_message])
  /\ map fst api_calls
     = [GetInverterInfo; GetPvData; GetGridData; GetBatteryData; GetLoadData;
        GetOutputData; GetDCACTemp; GetInverterSettingsData]
  /\ (exists fan_out join,
        trace p = fan_out ++ join
        /\ starts fan_out = map fst api_calls /\ joins fan_out = []
        /\ starts join = [] /\ joins join = map fst api_calls)
  /\ (forall failing e,
        (forall s', fst (getapi env failing bearer_token serial_item s') = Raises e) ->
        (forall f s', f <> failing ->
                      fst (getapi env f bearer_token serial_item s') = Returns tt) ->
        exists d, In (failing, d) api_calls
                  /\ logged_errors (trace p) = [error_fetching d e]).
Proof.
  intros p o.
  pose proof (api_pool_inv env bearer_token serial_item s) as I. fold p in I.
  pose proof (api_pool_finished env bearer_token serial_item s) as F. fold p in F.
  destruct (inv_finished _ _ p I F) as [P J].
  pose proof (finished_all_returned _ _ p I F) as R.
  pose proof (inv_registry _ _ p I) as G. rewrite P, app_nil_r in G.
  pose proof (threads_at_end _ _ G R) as T.
  assert (Len : length (threads p) = 8) by (rewrite T; reflexivity).
  assert (Hstarts : starts (trace p) = map fst api_calls)
    by (rewrite (inv_starts _ _ p I), T; reflexivity).
  assert (Hjoins : joins (trace p) = map fst api_calls)
    by (rewrite (inv_joins _ _ p I), J, firstn_all, T; reflexivity).
  split; [reflexivity|]. split; [reflexivity|].
  split; [exact F|]. split; [exact P|]. split; [exact T|].
  split; [exact Len|]. split; [congruence|].
  split; [exact Hstarts|]. split; [exact Hjoins|].
  split.
  { pose proof (inv_calls _ _ p I) as C. rewrite T in C. exact C. }
  split; [exact (inv_last _ _ p I F)|].
  split; [reflexivity|].
  split.
  { destruct (api_pool_fan env bearer_token serial_item s)
      as (tr1 & tr2 & Htr & Hj1 & Hs2 & _).
    fold p in Htr. exists tr1, tr2.
    rewrite Htr, starts_app, Hs2, app_nil_r in Hstarts.
    rewrite Htr, joins_app, Hj1 in Hjoins. cbn [app] in Hjoins.
    repeat split; assumption. }
  intros failing e Hf Ho.
  destruct (api_pool_log_inv env bearer_token serial_item failing e Hf Ho s)
    as [_ L].
  fold p in L. rewrite T in L.
  destruct (log_at_end failing e) as (d & Hd & Hlog). rewrite Hlog in L.
  exists d. split; [exact Hd|].
  apply Permutation_sym, Permutation_length_1_inv in L. exact L.
Qed.

End ApiCalls.

(** ** One inverter *)

Section MoreRuns.

Context {X : Type}.

Lemma after_after ev1 ev2 A (o : outcome X A) :
  after ev1 (after ev2 o) = after (ev1 ++ ev2) o.
Proof. destruct o. cbn. now rewrite app_assoc. Qed.

Lemma bind_assoc A B C (m : M X A) (f : A -> M X B) (g : B -> M X C) s :
  bind (bind m f) g s = bind m (fun a => bind (f a) g) s.
Proof.
  unfold bind. destruct (m s) as [ev1 s1 [a|e|c]]; try reflexivity.
  destruct (f a s1) as [ev2 s2 [b|e|c]]; try reflexivity.
  destruct (g b s2) as [ev3 s3 v]. now rewrite app_assoc.
Qed.

Lemma bind_after A B ev (o : outcome X A) (f : A -> M X B) :
  match after ev o with
  | mkOut ev1 s1 (Ok a) => after ev1 (f a s1)
  | mkOut ev1 s1 (Raise e) => mkOut ev1 s1 (Raise e)
  | mkOut ev1 s1 (Exit c) => mkOut ev1 s1 (Exit c)
  end =
  after ev match o with
           | mkOut ev1 s1 (Ok a) => after ev1 (f a s1)
           | mkOut ev1 s1 (Raise e) => mkOut ev1 s1 (Raise e)
           | mkOut ev1 s1 (Exit c) => mkOut ev1 s1 (Exit c)
           end.
Proof.
  destruct o as [ev1 s1 [a|e|c]]; cbn; try reflexivity.
  now rewrite after_after.
Qed.

Lemma bind_ext A B (m : M X A) (f g : A -> M X B) s :
  (forall a s', f a s' = g a s') -> bind m f s = bind m g s.
Proof.
  intros H. unfold bind. destruct (m s) as [ev1 s1 [a|e|c]]; try reflexivity.
  now rewrite H.
Qed.

Lemma for_each_app A (body : A -> M X unit) l1 l2 s :
  for_each body (l1 ++ l2) s =
  bind (for_each body l1) (fun _ => for_each body l2) s.
Proof.
  revert s. induction l1 as [|x l1 IH]; intros s; cbn [for_each app].
  - unfold bind, ret. destruct (for_each body l2 s); reflexivity.
  - rewrite bind_assoc. apply bind_ext. intros _ s'. apply IH.
Qed.

End MoreRuns.

Section Inverter.

Context {X : Type} (env : Env X) (json_settings : json).

(** The two lines [process_inverter] prints first. *)
Definition greeting (serial_item : string) (current_date : Z) (refresh_rate : json)
  : list event :=
  [Print [Col OKCYAN; Lit "Getting "; Val (JStr serial_item); Lit " @ ";
          Date current_date; Col ENDC];
   Print [Lit "Script refresh rate set to: "; Col OKCYAN; Val refresh_rate;
          Col ENDC; Lit " milliseconds"]].

(** The error with which cleaning the cache ends in [s], if it does:
    [settings.json] exists and [os.remove] fails. *)
Definition cleaning_error (s : store X) : option exn :=
  match settings_json s with
  | Some _ => os_remove_error env "settings.json" s
  | None => None
  end.

(** What cleaning the cache shows, given the store it starts in. *)
Definition cleaning (s : store X) : list event :=
  Print [Lit "Cleaning cache..."] ::
  match settings_json s with
  | Some _ =>
      Remove "settings.json" ::
      match os_remove_error env "settings.json" s with
      | Some _ => []
      | None => [Print [Lit "Old settings.json file removed."]]
      end
  | None => []
  end.

(** The store without [settings.json]. *)
Definition without_cache (s : store X) : store X := mkStore None (ext s).

Lemma clean_cache_run s :
  clean_cache env s =
  match cleaning_error s with
  | Some e => mkOut (cleaning s) s (Raise e)
  | None => mkOut (cleaning s) (without_cache s) (Ok tt)
  end.
Proof.
  unfold clean_cache, cleaning_error, cleaning, without_cache, bind, print, emit,
    settings_file_exists, read, remove_settings_file, ret.
  destruct s as [[c|] x]; cbn [settings_json ext]; [|reflexivity].
  destruct (os_remove_error env "settings.json" _); reflexivity.
Qed.

Lemma process_inverter_run bearer_token serial_item current_date s refresh_rate :
  py_getitem json_settings "Refresh_rate" = Returns refresh_rate ->
  cleaning_error s = None ->
  process_inverter env json_settings bearer_token serial_item current_date s =
  after (greeting serial_item current_date refresh_rate ++ cleaning s)
        (test_and_run env bearer_token serial_item (without_cache s)).
Proof.
  intros H Hc. unfold process_inverter.
  unfold bind at 1. cbn [print_colored print emit app].
  unfold bind at 1, lift. rewrite H. cbn [of_reply].
  unfold bind at 1. cbn [print emit].
  unfold bind at 1. rewrite clean_cache_run, Hc.
  unfold after. destruct (test_and_run _ _ _ _) as [ev s' v]. reflexivity.
Qed.

(** When [settings.json] cannot be removed, [process_inverter] ends with
    the error of [os.remove], which nothing handles; the file stays. *)
Lemma process_inverter_unremovable bearer_token serial_item current_date s
  refresh_rate e :
  py_getitem json_settings "Refresh_rate" = Returns refresh_rate ->
  cleaning_error s = Some e ->
  process_inverter env json_settings bearer_token serial_item current_date s =
  mkOut (greeting serial_item current_date refresh_rate ++ cleaning s) s (Raise e).
Proof.
  intros H Hc. unfold process_inverter.
  unfold bind at 1. cbn [print_colored print emit app].
  unfold bind at 1, lift. rewrite H. cbn [of_reply].
  unfold bind at 1. cbn [print emit].
  unfold bind at 1. rewrite clean_cache_run, Hc. reflexivity.
Qed.

Lemma settings_cycle_run bearer_token serial_item s :
  let d := settingsmanager_DownloadProviderSettings env bearer_token serial_item s in
  let g := settingsmanager_GetNewSettingsFromHAEntity env bearer_token serial_item
             (snd d) in
  let r := settingsmanager_ResetSettingsEntity env serial_item (snd g) in
  execute_settings_management env bearer_token serial_item s =
  match fst d with
  | Raises e =>
      mkOut [Call DownloadProviderSettings [bearer_token; JStr serial_item]]
            (snd d) (Raise e)
  | Returns _ =>
      match fst g with
      | Raises e =>
          mkOut [Call DownloadProviderSettings [bearer_token; JStr serial_item];
                 Call GetNewSettingsFromHAEntity [bearer_token; JStr serial_item]]
                (snd g) (Raise e)
      | Returns _ =>
          mkOut [Call DownloadProviderSettings [bearer_token; JStr serial_item];
                 Call GetNewSettingsFromHAEntity [bearer_token; JStr serial_item];
                 Print [Lit "Cleaning out previous settings..."];
                 Call ResetSettingsEntity [JStr serial_item]]
                (snd r) (of_reply (fst r))
      end
  end.
Proof.
  intros d g r. unfold execute_settings_management, bind, call_ext, print, emit.
  fold d. destruct (fst d); cbn [of_reply]; [|reflexivity].
  fold g. destruct (fst g); cbn [of_reply]; [|reflexivity].
  fold r. reflexivity.
Qed.

(** C1, as the code has it.  When the download of the provider settings
    and the forwarding of the staged setting return to
    [execute_settings_management] (having succeeded, or having dealt with
    their failure themselves), the cycle calls [ResetSettingsEntity] for
    the inverter, once and as its last step, and ends in the state that
    this call leaves: with the staging entity empty, for every reading
    [staged_setting] of the outside world under which the reset empties
    the entity. *)
Theorem settings_cycle_resets bearer_token serial_item s :
  let d := settingsmanager_DownloadProviderSettings env bearer_token serial_item s in
  let g := settingsmanager_GetNewSettingsFromHAEntity env bearer_token serial_item
             (snd d) in
  let r := settingsmanager_ResetSettingsEntity env serial_item (snd g) in
  let o := execute_settings_management env bearer_token serial_item s in
  (exists u, fst d = Returns u) ->
  (exists u, fst g = Returns u) ->
  events o =
    [Call DownloadProviderSettings [bearer_token; JStr serial_item];
     Call GetNewSettingsFromHAEntity [bearer_token; JStr serial_item];
     Print [Lit "Cleaning out previous settings..."];
     Call ResetSettingsEntity [JStr serial_item]]
  /\ final o = snd r
  /\ value o = of_reply (fst r)
  /\ forall staged_setting : X -> string -> string,
       (forall s', staged_setting
                     (ext (snd (settingsmanager_ResetSettingsEntity env serial_item s')))
                     serial_item = "") ->
       staged_setting (ext (final o)) serial_item = "".
Proof.
  intros d g r o [u Hd] [u' Hg].
  pose proof (settings_cycle_run bearer_token serial_item s) as Ho.
  cbv zeta in Ho. fold d in Ho. fold g in Ho. fold r in Ho. fold o in Ho.
  rewrite Hd, Hg in Ho. rewrite Ho. cbn [events final value].
  repeat split. intros staged H. apply H.
Qed.

End Inverter.

Section Devices.

Context {X : Type} (env : Env X) (json_settings : json).

(** The last line of [process_inverter]. *)
Definition say_completion : M X unit :=
  completion_time <- read (datetime_now env) ;;
  print [Lit "Script completion time: "; Col OKBLUE; Lit " ";
         Date completion_time; Lit " "; Col ENDC].

Definition testing : event := Print [Col WARNING; Lit "Testing HA API"; Col ENDC].

Definition test_call : event := Call ConnectionTest connection_test_args.

Lemma test_and_run_run bearer_token serial_item s :
  let a := postapi_ConnectionTest env connection_test_args s in
  test_and_run env bearer_token serial_item s =
  match fst a with
  | Raises e => mkOut [testing; test_call] (snd a) (Raise e)
  | Returns r =>
      if py_eq_str r "Connection Success" then
        after [testing; test_call; Print [Val r]]
          (bind (bind (execute_api_calls env bearer_token serial_item)
                      (fun _ => execute_settings_management env bearer_token
                                  serial_item))
                (fun _ => say_completion) (snd a))
      else
        after [testing; test_call;
               Print [Col FAIL; Val r; Col ENDC];
               Print [Col MAGENTA;
                      Lit "Ensure correct IP, port, and Home Assistant accessibility.";
                      Col ENDC]]
          (say_completion (snd a))
  end.
Proof.
  intros a. unfold test_and_run. fold say_completion.
  unfold bind at 1. cbn [print_colored print emit app].
  unfold bind at 1, call_ext. fold a.
  destruct (fst a) as [r|e]; cbn [of_reply]; [|reflexivity].
  destruct (py_eq_str r "Connection Success").
  - rewrite bind_assoc. unfold bind at 1. cbn [print emit].
    unfold after.
    destruct (bind (bind _ _) _ _) as [ev s' v]. reflexivity.
  - rewrite bind_assoc. unfold bind at 1. cbn [print_colored print emit app].
    unfold bind at 1. cbn [print_colored print emit app].
    unfold after. destruct (say_completion (snd a)) as [ev s' v]. reflexivity.
Qed.

Lemma say_completion_run s :
  say_completion s =
  mkOut [Print [Lit "Script completion time: "; Col OKBLUE; Lit " ";
                Date (datetime_now env s); Lit " "; Col ENDC]] s (Ok tt).
Proof. reflexivity. Qed.

(** The settings cycle starts with the download. *)
Lemma settings_cycle_first A bearer_token serial_item (k : unit -> M X A) s :
  exists rest,
    events (bind (execute_settings_management env bearer_token serial_item) k s)
    = Call DownloadProviderSettings [bearer_token; JStr serial_item] :: rest.
Proof.
  rewrite bind_run, settings_cycle_run.
  destruct (fst (settingsmanager_DownloadProviderSettings _ _ _ _));
    [|eexists; reflexivity].
  destruct (fst (settingsmanager_GetNewSettingsFromHAEntity _ _ _ _));
    [|eexists; reflexivity].
  cbn [value events final].
  destruct (of_reply _); cbn [events]; try (eexists; reflexivity).
  rewrite events_after. eexists; reflexivity.
Qed.

Lemma in_calls f args tr : In (f, args) (calls tr) <-> In (Call f args) tr.
Proof.
  unfold calls. rewrite in_flat_map. split.
  - intros (ev & Hin & H). destruct ev; cbn in H; try contradiction.
    destruct H as [[= <- <-]|[]]. exact Hin.
  - intros H. exists (Call f args). split; [exact H | now left].
Qed.

(** Every registered function is called while [execute_api_calls] runs. *)
Lemma api_calls_made bearer_token serial_item s f d :
  In (f, d) api_calls ->
  In (Call (Api f) [bearer_token; JStr serial_item])
     (events (execute_api_calls env bearer_token serial_item s)).
Proof.
  intros Hin. cbn [execute_api_calls events].
  set (p := api_pool env bearer_token serial_item s).
  pose proof (api_pool_inv env bearer_token serial_item s) as I. fold p in I.
  pose proof (api_pool_finished env bearer_token serial_item s) as F. fold p in F.
  destruct (inv_finished _ _ p I F) as [P _].
  pose proof (inv_registry _ _ p I) as G. rewrite P, app_nil_r in G.
  pose proof (threads_at_end _ _ G (finished_all_returned _ _ p I F)) as T.
  pose proof (inv_calls _ _ p I) as C. rewrite T in C.
  apply in_calls. eapply Permutation_in; [apply Permutation_sym, C|].
  apply in_map_iff. exists (mkThread f d Returned). split; [reflexivity|].
  apply filter_In. split; [|reflexivity].
  apply in_map_iff. exists (f, d). split; [reflexivity | exact Hin].
Qed.

(** The calls and the threads of [execute_api_calls]: one call for each
    registered function, one thread for each in the order of the
    registry. *)
Lemma api_pool_calls bearer_token serial_item s :
  Permutation
    (calls (events (execute_api_calls env bearer_token serial_item s)))
    (map (fun fd => (Api (fst fd), [bearer_token; JStr serial_item])) api_calls)
  /\ starts (events (execute_api_calls env bearer_token serial_item s))
     = map fst api_calls.
Proof.
  cbn [execute_api_calls events].
  set (p := api_pool env bearer_token serial_item s).
  pose proof (api_pool_inv env bearer_token serial_item s) as I. fold p in I.
  pose proof (api_pool_finished env bearer_token serial_item s) as F. fold p in F.
  destruct (inv_finished _ _ p I F) as [P _].
  pose proof (inv_registry _ _ p I) as G. rewrite P, app_nil_r in G.
  pose proof (threads_at_end _ _ G (finished_all_returned _ _ p I F)) as T.
  split.
  - pose proof (inv_calls _ _ p I) as C. rewrite T in C. exact C.
  - rewrite (inv_starts _ _ p I), T. reflexivity.
Qed.

(** The settings cycle and the last line of [process_inverter]: the
    download is called first, and no thread is started. *)
Lemma settings_cycle_then_completion bearer_token serial_item s :
  exists rest,
    events (bind (execute_settings_management env bearer_token serial_item)
                 (fun _ => say_completion) s)
    = Call DownloadProviderSettings [bearer_token; JStr serial_item] :: rest
    /\ starts rest = [].
Proof.
  rewrite bind_run, settings_cycle_run.
  destruct (fst (settingsmanager_DownloadProviderSettings _ _ _ _));
    [|eexists; split; reflexivity].
  destruct (fst (settingsmanager_GetNewSettingsFromHAEntity _ _ _ _));
    [|eexists; split; reflexivity].
  cbn [value events final].
  destruct (of_reply _); cbn [events];
    rewrite ?events_after, ?say_completion_run; eexists; split; reflexivity.
Qed.

(** What processing one inverter shows when the connection test answers
    ["Connection Success"]. *)
Lemma device_connected bearer_token serial_item current_date s refresh_rate r :
  py_getitem json_settings "Refresh_rate" = Returns refresh_rate ->
  cleaning_error env s = None ->
  fst (postapi_ConnectionTest env connection_test_args (without_cache s)) = Returns r ->
  py_eq_str r "Connection Success" = true ->
  let dev := process_inverter env json_settings bearer_token serial_item
               current_date s in
  exists apis rest,
    calls (events dev)
    = (ConnectionTest, connection_test_args)
      :: apis ++ (DownloadProviderSettings, [bearer_token; JStr serial_item]) :: rest
    /\ Permutation apis
         (map (fun fd => (Api (fst fd), [bearer_token; JStr serial_item])) api_calls)
    /\ starts (events dev) = map fst api_calls.
Proof.
  intros Hrr Hc Ha Hr dev. subst dev.
  rewrite (process_inverter_run _ _ _ _ _ _ _ Hrr Hc), test_and_run_run.
  cbv zeta. rewrite Ha, Hr, after_after, events_after, bind_assoc, bind_run.
  set (s1 := snd (postapi_ConnectionTest env _ _)).
  change (value (execute_api_calls env bearer_token serial_item s1))
    with (@Ok unit tt).
  cbv iota. rewrite events_after.
  destruct (settings_cycle_then_completion bearer_token serial_item
              (final (execute_api_calls env bearer_token serial_item s1)))
    as (rest & -> & Hrest).
  destruct (api_pool_calls bearer_token serial_item s1) as [Hcalls Hstarts].
  exists (calls (events (execute_api_calls env bearer_token serial_item s1))),
         (calls rest).
  split; [|split; [exact Hcalls|]].
  - rewrite !calls_app. unfold greeting, cleaning.
    destruct (settings_json s); [destruct (os_remove_error env _ _)|]; reflexivity.
  - unfold starts in *. rewrite !flat_map_app, Hstarts.
    cbn [flat_map app greeting]. rewrite Hrest, app_nil_r.
    unfold cleaning.
    destruct (settings_json s); [destruct (os_remove_error env _ _)|];
      reflexivity.
Qed.

Lemma device_skipped bearer_token serial_item current_date s refresh_rate r :
  py_getitem json_settings "Refresh_rate" = Returns refresh_rate ->
  cleaning_error env s = None ->
  fst (postapi_ConnectionTest env connection_test_args (without_cache s)) = Returns r ->
  py_eq_str r "Connection Success" = false ->
  let a := postapi_ConnectionTest env connection_test_args (without_cache s) in
  process_inverter env json_settings bearer_token serial_item current_date s =
  mkOut (greeting serial_item current_date refresh_rate ++ cleaning env s ++
         [testing; test_call;
          Print [Col FAIL; Val r; Col ENDC];
          Print [Col MAGENTA;
                 Lit "Ensure correct IP, port, and Home Assistant accessibility.";
                 Col ENDC];
          Print [Lit "Script completion time: "; Col OKBLUE; Lit " ";
                 Date (datetime_now env (snd a)); Lit " "; Col ENDC]])
        (snd a) (Ok tt).
Proof.
  intros Hrr Hc Ha Hr a.
  rewrite (process_inverter_run _ _ _ _ _ _ _ Hrr Hc), test_and_run_run.
  cbv zeta. rewrite Ha, Hr, say_completion_run. cbn [after].
  rewrite <- app_assoc. reflexivity.
Qed.

(** The connection test is called without a handler: when it raises,
    [process_inverter] ends with its exception. *)
Lemma device_test_raises bearer_token serial_item current_date s refresh_rate e :
  py_getitem json_settings "Refresh_rate" = Returns refresh_rate ->
  cleaning_error env s = None ->
  fst (postapi_ConnectionTest env connection_test_args (without_cache s)) = Raises e ->
  let a := postapi_ConnectionTest env connection_test_args (without_cache s) in
  process_inverter env json_settings bearer_token serial_item current_date s =
  mkOut (greeting serial_item current_date refresh_rate ++ cleaning env s ++
         [testing; test_call])
        (snd a) (Raise e).
Proof.
  intros Hrr Hc Ha a.
  rewrite (process_inverter_run _ _ _ _ _ _ _ Hrr Hc), test_and_run_run.
  cbv zeta. rewrite Ha. cbn [after].
  rewrite <- app_assoc. reflexivity.
Qed.

Lemma cleaning_quiet s : calls (cleaning env s) = [] /\ starts (cleaning env s) = [].
Proof.
  unfold cleaning.
  destruct (settings_json s); [destruct (os_remove_error env _ _)|];
    split; reflexivity.
Qed.

End Devices.

(** ** The loop over the inverters *)

Section Loop.

Context {X : Type} (env : Env X) (json_settings : json).

Lemma bind_shift A B (m m' : M X A) (f : A -> M X B) s s' ev :
  m s = after ev (m' s') -> bind m f s = after ev (bind m' f s').
Proof.
  intros H. unfold bind. rewrite H.
  destruct (m' s') as [ev' s'' [a|e|c]]; cbn; try reflexivity.
  destruct (f a s'') as [ev2 s2 v]. cbn. now rewrite app_assoc.
Qed.

Lemma loop_reaches A (body : A -> M X unit) pre x post s :
  value (for_each body pre s) = Ok tt ->
  for_each body (pre ++ x :: post) s =
  after (events (for_each body pre s))
        (bind (body x) (fun _ => for_each body post) (final (for_each body pre s))).
Proof.
  intros H. rewrite for_each_app, bind_run, H. reflexivity.
Qed.

Lemma events_bind_prefix A B (m : M X A) (k : A -> M X B) s :
  exists rest, events (bind m k s) = events (m s) ++ rest.
Proof.
  rewrite bind_run. destruct (value (m s)); cbn [events].
  - rewrite events_after. eexists; reflexivity.
  - exists []. now rewrite app_nil_r.
  - exists []. now rewrite app_nil_r.
Qed.

(** The connection test comes first in [test_and_run]. *)
Lemma test_and_run_first bearer_token serial_item s :
  exists rest,
    events (test_and_run env bearer_token serial_item s)
    = testing :: test_call :: rest.
Proof.
  rewrite test_and_run_run. cbv zeta.
  destruct (fst (postapi_ConnectionTest env _ _)) as [r|e].
  - destruct (py_eq_str r "Connection Success"); rewrite events_after;
      eexists; reflexivity.
  - eexists; reflexivity.
Qed.

(** A raising step of the loop ends the loop. *)
Lemma loop_raises A (body : A -> M X unit) pre x post s e :
  value (for_each body pre s) = Ok tt ->
  value (body x (final (for_each body pre s))) = Raise e ->
  for_each body (pre ++ x :: post) s =
  mkOut (events (for_each body pre s)
         ++ events (body x (final (for_each body pre s))))
        (final (body x (final (for_each body pre s)))) (Raise e).
Proof.
  intros H He. rewrite (loop_reaches _ body pre x post s H), bind_run, He.
  reflexivity.
Qed.

(** C10, as the code has it.  For every inverter of the list that the run
    reaches, with [Refresh_rate] in the settings: if [settings.json]
    exists, [process_inverter] calls [os.remove] on it before it does
    anything else than print.  When the file is not there or is removed,
    the connection test, and with it the telemetry and the settings cycle
    of this inverter and the processing of all later ones, run from a
    store in which the file does not exist, whatever an earlier inverter
    or an earlier run has left there, and whether or not the connection
    test then succeeds.  When [os.remove] raises, nothing handles the
    error: the file stays, the connection test is not called, and the
    loop ends there with the error. *)
Theorem cache_removed_before_each_device bearer_token current_date
  pre serial_item post s refresh_rate :
  py_getitem json_settings "Refresh_rate" = Returns refresh_rate ->
  let body := fun x => process_inverter env json_settings bearer_token x current_date in
  let before := for_each body pre s in
  let dev := body serial_item (final before) in
  value before = Ok tt ->
  (settings_json (final before) <> None ->
   exists rest,
     events dev
     = greeting serial_item current_date refresh_rate
       ++ Print [Lit "Cleaning cache..."] :: Remove "settings.json" :: rest)
  /\ (cleaning_error env (final before) = None ->
      for_each body (pre ++ serial_item :: post) s =
        after (events before ++ greeting serial_item current_date refresh_rate
               ++ cleaning env (final before))
              (bind (test_and_run env bearer_token serial_item)
                    (fun _ => for_each body post) (without_cache (final before)))
      /\ settings_json (without_cache (final before)) = None
      /\ (exists rest,
            events (bind (test_and_run env bearer_token serial_item)
                         (fun _ => for_each body post)
                         (without_cache (final before)))
            = testing :: test_call :: rest))
  /\ (forall e,
        cleaning_error env (final before) = Some e ->
        dev = mkOut (greeting serial_item current_date refresh_rate
                     ++ cleaning env (final before))
                    (final before) (Raise e)
        /\ settings_json (final dev) <> None
        /\ ~ In test_call (events dev)
        /\ for_each body (pre ++ serial_item :: post) s =
             mkOut (events before ++ events dev) (final before) (Raise e)).
Proof.
  intros Hrr body before dev Hbefore.
  split; [|split].
  - intros Hfile.
    destruct (cleaning_error env (final before)) as [e|] eqn:Hc.
    + subst dev. unfold body.
      rewrite (process_inverter_unremovable env json_settings bearer_token
                 serial_item current_date (final before) refresh_rate e Hrr Hc).
      cbn [events]. unfold cleaning.
      destruct (settings_json (final before)); [|congruence].
      eexists. reflexivity.
    + subst dev. unfold body.
      rewrite (process_inverter_run env json_settings bearer_token serial_item
                 current_date (final before) refresh_rate Hrr Hc).
      rewrite events_after. unfold cleaning.
      destruct (settings_json (final before)); [|congruence].
      rewrite <- app_assoc. cbn [app]. eexists. reflexivity.
  - intros Hc. split; [|split; [reflexivity|]].
    + rewrite (loop_reaches _ body pre serial_item post s Hbefore).
      fold before.
      rewrite (bind_shift _ _ (body serial_item)
                 (test_and_run env bearer_token serial_item) _ _ _ _
                 (process_inverter_run env json_settings bearer_token serial_item
                    current_date (final before) refresh_rate Hrr Hc)).
      now rewrite after_after, app_assoc.
    + destruct (events_bind_prefix _ _
                  (test_and_run env bearer_token serial_item)
                  (fun _ => for_each body post) (without_cache (final before)))
        as [rest1 ->].
      destruct (test_and_run_first bearer_token serial_item
                  (without_cache (final before))) as [rest2 ->].
      eexists. reflexivity.
  - intros e Hc.
    assert (Hdev : dev = mkOut (greeting serial_item current_date refresh_rate
                                ++ cleaning env (final before))
                               (final before) (Raise e)).
    { subst dev. unfold body.
      exact (process_inverter_unremovable env json_settings bearer_token
               serial_item current_date (final before) refresh_rate e Hrr Hc). }
    split; [exact Hdev|]. split; [|split].
    + rewrite Hdev. cbn [final]. unfold cleaning_error in Hc.
      destruct (settings_json (final before)); discriminate.
    + rewrite Hdev. cbn [events]. unfold greeting, cleaning, test_call.
      intros H.
      destruct (settings_json (final before));
        [destruct (os_remove_error env _ _)|];
        cbn in H; repeat (destruct H as [H|H]; [discriminate H|]); exact H.
    + assert (Hv : value (body serial_item (final before)) = Raise e)
        by (change (value dev = Raise e); now rewrite Hdev).
      rewrite (loop_raises _ body pre serial_item post s e Hbefore Hv).
      fold before. change (body serial_item (final before)) with dev.
      now rewrite Hdev.
Qed.

(** C6, as the code has it.  For every inverter of the list that the run
    reaches, with [Refresh_rate] in the settings and the cache cleaned:
    when the connection test answers ["Connection Success"], each of the
    eight telemetry functions is called once for the inverter, in a thread
    of its own, and the settings cycle is started after them; when it
    answers anything else, nothing but the connection test is called and
    no thread is started, the answer is printed as a failure,
    [process_inverter] returns, and the loop goes on with the next
    inverter from the state the test has left.  The test itself is called
    without a handler: when it raises, nothing else is called for the
    inverter and the loop ends there with the exception. *)
Theorem connectivity_gates_device_work bearer_token current_date
  pre serial_item post s refresh_rate :
  py_getitem json_settings "Refresh_rate" = Returns refresh_rate ->
  let body := fun x => process_inverter env json_settings bearer_token x current_date in
  let before := for_each body pre s in
  let dev := body serial_item (final before) in
  let answer := fst (postapi_ConnectionTest env connection_test_args
                       (without_cache (final before))) in
  value before = Ok tt ->
  cleaning_error env (final before) = None ->
  for_each body (pre ++ serial_item :: post) s =
    after (events before)
          (bind (body serial_item) (fun _ => for_each body post) (final before))
  /\ (answer = Returns (JStr "Connection Success") ->
      exists apis rest,
        calls (events dev)
        = (ConnectionTest, connection_test_args)
          :: apis
          ++ (DownloadProviderSettings, [bearer_token; JStr serial_item]) :: rest
        /\ Permutation apis
             (map (fun f => (Api f, [bearer_token; JStr serial_item]))
                  [GetInverterInfo; GetPvData; GetGridData; GetBatteryData;
                   GetLoadData; GetOutputData; GetDCACTemp;
                   GetInverterSettingsData])
        /\ starts (events dev)
           = [GetInverterInfo; GetPvData; GetGridData; GetBatteryData;
              GetLoadData; GetOutputData; GetDCACTemp; GetInverterSettingsData])
  /\ (forall r,
        answer = Returns r -> r <> JStr "Connection Success" ->
        calls (events dev) = [(ConnectionTest, connection_test_args)]
        /\ starts (events dev) = []
        /\ In (Print [Col FAIL; Val r; Col ENDC]) (events dev)
        /\ value dev = Ok tt
        /\ for_each body (pre ++ serial_item :: post) s =
             after (events before ++ events dev) (for_each body post (final dev)))
  /\ (forall e,
        answer = Raises e ->
        calls (events dev) = [(ConnectionTest, connection_test_args)]
        /\ starts (events dev) = []
        /\ value dev = Raise e
        /\ for_each body (pre ++ serial_item :: post) s =
             mkOut (events before ++ events dev) (final dev) (Raise e)).
Proof.
  intros Hrr body before dev answer Hbefore Hc.
  pose proof (loop_reaches _ body pre serial_item post s Hbefore) as Hloop.
  fold before in Hloop.
  destruct (cleaning_quiet env (final before)) as [Hqc Hqs].
  split; [exact Hloop|]. split; [|split].
  - intros Ha.
    exact (device_connected env json_settings bearer_token serial_item
             current_date (final before) refresh_rate _ Hrr Hc Ha eq_refl).
  - intros r Ha Hne. apply py_eq_str_false in Hne.
    pose proof (device_skipped env json_settings bearer_token serial_item
                  current_date (final before) refresh_rate r Hrr Hc Ha Hne) as Hdev.
    cbv zeta in Hdev.
    assert (Hdev' : dev = body serial_item (final before)) by reflexivity.
    unfold body at 1 in Hdev'. rewrite Hdev in Hdev'.
    rewrite Hloop, bind_run.
    change (body serial_item (final before)) with dev.
    rewrite Hdev'. cbn [events value final].
    repeat split.
    + rewrite !calls_app, Hqc. reflexivity.
    + rewrite !starts_app, Hqs. reflexivity.
    + apply in_or_app. right. apply in_or_app. right. cbn. auto.
    + now rewrite after_after.
  - intros e Ha.
    pose proof (device_test_raises env json_settings bearer_token serial_item
                  current_date (final before) refresh_rate e Hrr Hc Ha) as Hdev.
    cbv zeta in Hdev.
    assert (Hdev' : dev = body serial_item (final before)) by reflexivity.
    unfold body at 1 in Hdev'. rewrite Hdev in Hdev'.
    assert (Hv : value (body serial_item (final before)) = Raise e)
      by (change (value dev = Raise e); now rewrite Hdev').
    rewrite (loop_raises _ body pre serial_item post s e Hbefore Hv).
    fold before. change (body serial_item (final before)) with dev.
    rewrite Hdev'. cbn [events value final].
    repeat split.
    + rewrite !calls_app, Hqc. reflexivity.
    + rewrite !starts_app, Hqs. reflexivity.
Qed.

End Loop.

(** ** What ends the run and what does not *)

Section Returns.

Context {X : Type}.

(** A computation that returns from every store. *)
Definition returns {A} (m : M X A) : Prop :=
  forall s, exists a, value (m s) = Ok a.

Lemma value_bind A B (m : M X A) (f : A -> M X B) s :
  value (bind m f s) =
  match value (m s) with
  | Ok a => value (f a (final (m s)))
  | Raise e => Raise e
  | Exit c => Exit c
  end.
Proof. rewrite bind_run. destruct (value (m s)); now rewrite ?value_after. Qed.

Lemma returns_ret A (a : A) : returns (ret a).
Proof. intros s. now exists a. Qed.

Lemma returns_emit ev : returns (emit ev).
Proof. intros s. now exists tt. Qed.

Lemma returns_read A (f : store X -> A) : returns (read f).
Proof. intros s. now exists (f s). Qed.

Lemma returns_lift A (a : A) : returns (lift (Returns a)).
Proof. intros s. now exists a. Qed.

Lemma returns_call_ext A ev (f : ext_fn X A) :
  (forall s, exists a, fst (f s) = Returns a) -> returns (call_ext ev f).
Proof. intros H s. destruct (H s) as [a Ha]. exists a. cbn. now rewrite Ha. Qed.

Lemma returns_bind A B (m : M X A) (f : A -> M X B) :
  returns m -> (forall a, returns (f a)) -> returns (bind m f).
Proof.
  intros Hm Hf s. rewrite value_bind. destruct (Hm s) as [a ->]. apply Hf.
Qed.

Lemma returns_if A (b : bool) (m1 m2 : M X A) :
  returns m1 -> returns m2 -> returns (if b then m1 else m2).
Proof. destruct b; auto. Qed.

Lemma returns_for_each A (body : A -> M X unit) l :
  (forall x, returns (body x)) -> returns (for_each body l).
Proof.
  intros H. induction l as [|x l IH]; cbn [for_each].
  - apply returns_ret.
  - apply returns_bind; auto.
Qed.

(** A run that returns and whose last event is [x]. *)
Definition ends_with (x : event) (o : outcome X unit) : Prop :=
  value o = Ok tt /\ exists evs, events o = evs ++ [x].

Lemma bind_ends A (m : M X A) (f : A -> M X unit) s a x :
  value (m s) = Ok a -> ends_with x (f a (final (m s))) ->
  ends_with x (bind m f s).
Proof.
  intros Hm [Hv [evs He]]. unfold ends_with.
  rewrite bind_run, Hm, value_after, events_after, He. split; [exact Hv|].
  exists (events (m s) ++ evs). now rewrite app_assoc.
Qed.

End Returns.

Section Fatal.

Context {X : Type} (env : Env X).

Definition script_completed : event :=
  Print [Col OKBLUE; Lit "Script execution completed."; Col ENDC].

Lemma fetch_data_alone f bearer_token serial_item description s :
  let a := getapi env f bearer_token serial_item s in
  fetch_data env f bearer_token serial_item description s =
  mkOut ([Print [Col WARNING; Lit "Fetching "; Val (JStr description); Lit "...";
                 Col ENDC];
          Call (Api f) [bearer_token; JStr serial_item]]
         ++ match fst a with
            | Returns _ => []
            | Raises e =>
                [LogError (error_fetching description e);
                 Print ([Col FAIL] ++ error_fetching description e ++ [Col ENDC]);
                 Traceback e]
            end)
        (snd a) (Ok tt).
Proof.
  intros a. unfold fetch_data. cbn. fold a. destruct (fst a); reflexivity.
Qed.

Lemma load_settings_fails path s e s1 :
  open_json env path s = (Raises e, s1) ->
  value (load_settings env path s) = Exit 1.
Proof.
  intros H. unfold load_settings. rewrite try_except_run.
  unfold call_ext. rewrite H. reflexivity.
Qed.

Lemma gettoken_returns s settings s1 :
  open_json env "/data/options.json" s = (Returns settings, s1) ->
  exists v, value (gettoken env s) = Ok v.
Proof.
  intros H. rewrite (gettoken_value env _ _ _ H).
  destruct (value (gettoken_try env settings s1)) as [v|e|c] eqn:E; eauto.
  exfalso. exact (no_exit_gettoken_try env _ _ _ E).
Qed.

Section SequentialStepsReturn.

Variable json_settings : json.
Variable refresh_rate : json.

Hypothesis has_refresh_rate :
  py_getitem json_settings "Refresh_rate" = Returns refresh_rate.
Hypothesis remove_returns :
  forall s, os_remove_error env "settings.json" s = None.
Hypothesis test_returns :
  forall args s, exists r, fst (postapi_ConnectionTest env args s) = Returns r.
Hypothesis download_returns :
  forall tok ser s,
    exists u, fst (settingsmanager_DownloadProviderSettings env tok ser s) = Returns u.
Hypothesis update_returns :
  forall tok ser s,
    exists u, fst (settingsmanager_GetNewSettingsFromHAEntity env tok ser s) = Returns u.
Hypothesis reset_returns :
  forall ser s,
    exists u, fst (settingsmanager_ResetSettingsEntity env ser s) = Returns u.

Lemma process_inverter_returns bearer_token serial_item current_date :
  returns (process_inverter env json_settings bearer_token serial_item current_date).
Proof.
  unfold process_inverter, clean_cache, test_and_run, execute_settings_management,
    settings_file_exists, remove_settings_file, print_colored, print.
  rewrite has_refresh_rate.
  repeat first
    [ apply returns_bind; [|intros]
    | apply returns_if
    | apply returns_emit
    | apply returns_read
    | apply returns_lift
    | apply returns_ret
    | apply returns_call_ext; solve [auto]
    | (intros s; rewrite ?remove_returns; exists tt; reflexivity) ].
Qed.

End SequentialStepsReturn.

(** [main] once the token is known: it returns after its closing message
    when the loop, if it is entered, returns. *)
Lemma main_ends json_settings inverter_serials s api_server tok :
  py_getitem json_settings "API_Server" = Returns api_server ->
  value (gettoken env s) = Ok tok ->
  (py_truthy tok = true ->
   value (for_each (fun x => process_inverter env json_settings tok x
                               (datetime_now env s))
            inverter_serials (final (get_bearer_token env s))) = Ok tt) ->
  ends_with script_completed (main env json_settings inverter_serials s).
Proof.
  intros Hapi Htok Hloop. unfold main.
  eapply bind_ends; [reflexivity|]. cbn [final read].
  eapply bind_ends; [reflexivity|]. cbn [final print emit].
  eapply bind_ends; [reflexivity|]. cbn [final print_colored print emit].
  eapply bind_ends; [unfold lift; rewrite Hapi; reflexivity|]. cbn [final lift].
  eapply bind_ends; [reflexivity|]. cbn [final print emit].
  eapply bind_ends; [reflexivity|]. cbn [final print emit].
  eapply bind_ends; [reflexivity|]. cbn [final print emit].
  eapply bind_ends; [apply get_bearer_token_value, Htok|].
  eapply bind_ends.
  - destruct (py_truthy tok); [now apply Hloop | reflexivity].
  - split; [reflexivity|]. exists []. reflexivity.
Qed.

End Fatal.

(** ** gettoken.py: what is sent, and what comes back *)

(** The HTTP requests of a trace, in order. *)
Definition http_requests (tr : list event) : list event :=
  filter (fun ev => match ev with HttpGet _ | HttpPost _ => true | _ => false end) tr.

Lemma http_requests_app a b :
  http_requests (a ++ b) = http_requests a ++ http_requests b.
Proof. apply filter_app. Qed.

Section TokenRequests.

Context {X : Type} (env : Env X).

Definition pem_header : string := "-----BEGIN PUBLIC KEY-----".
Definition pem_footer : string := "-----END PUBLIC KEY-----".

Lemma public_key_file_returns data text :
  public_key_file data = Returns text <->
  exists d, data = JStr d /\ text = (pem_header ++ d ++ pem_footer)%string.
Proof.
  unfold public_key_file. split.
  - destruct data; cbn; try discriminate. intros [= <-]. eexists. split; reflexivity.
  - intros (d & -> & ->). reflexivity.
Qed.

(** What [_get_public_key] does, case by case. *)
Lemma get_public_key_run s :
  let req := public_key_request (time_ms env s) in
  let a := requests_get env req s in
  _get_public_key env s =
  mkOut [HttpGet req] (snd a)
    match fst a with
    | Raises e => Raise e
    | Returns r =>
        if http_error r then Raise (HTTPError (status_code r))
        else match body r with
             | Raises e => Raise e
             | Returns parsed =>
                 match py_getitem parsed "data" with
                 | Raises e => Raise e
                 | Returns data =>
                     match public_key_file data with
                     | Raises e => Raise e
                     | Returns text => of_reply (load_pem_public_key env text)
                     end
                 end
             end
    end.
Proof.
  intros req a. unfold _get_public_key, bind, read, call_ext, raise_for_status, lift.
  fold req. fold a.
  destruct (fst a) as [r|e]; cbn [of_reply]; [|reflexivity].
  destruct (http_error r); cbn [of_reply ret raise app]; [reflexivity|].
  destruct (body r) as [parsed|e]; cbn [of_reply app]; [|reflexivity].
  destruct (py_getitem parsed "data") as [data|e]; cbn [of_reply app]; [|reflexivity].
  destruct (public_key_file data) as [text|e]; cbn [of_reply app]; reflexivity.
Qed.

(** X1.  [_get_public_key] returns a key exactly when the request is answered
    with a status that is no error and a JSON object whose [data] is a
    string, and the loader accepts the header, that string and the footer
    put together; it sends its one request in every case. *)
Theorem get_public_key_returns_iff s key :
  let req := public_key_request (time_ms env s) in
  let a := requests_get env req s in
  events (_get_public_key env s) = [HttpGet req]
  /\ timeout req = 10%Z
  /\ params req = [("source", JStr "sunsynk"); ("nonce", JInt (time_ms env s))]
  /\ (value (_get_public_key env s) = Ok key <->
      exists r parsed d,
        fst a = Returns r /\ http_error r = false /\ body r = Returns parsed
        /\ py_getitem parsed "data" = Returns (JStr d)
        /\ load_pem_public_key env (pem_header ++ d ++ pem_footer)%string
           = Returns key).
Proof.
  intros req a. rewrite get_public_key_run. cbv zeta. fold req. fold a.
  cbn [events value]. repeat (split; [reflexivity|]).
  split.
  - destruct (fst a) as [r|e]; [|discriminate].
    destruct (http_error r) eqn:H1; [discriminate|].
    destruct (body r) as [parsed|e] eqn:H2; [|discriminate].
    destruct (py_getitem parsed "data") as [data|e] eqn:H3; [|discriminate].
    destruct (public_key_file data) as [text|e] eqn:F; [|discriminate].
    apply public_key_file_returns in F. destruct F as (d & -> & ->).
    destruct (load_pem_public_key env _) as [k|e] eqn:L; [|discriminate].
    intros [= <-]. exists r, parsed, d. auto.
  - intros (r & parsed & d & -> & -> & -> & -> & L).
    rewrite (proj2 (public_key_file_returns (JStr d) _)
               (ex_intro _ d (conj eq_refl eq_refl))).
    now rewrite L.
Qed.

End TokenRequests.

Section TokenRuns.

Context {X : Type} (env : Env X).

Lemma events_bind A B (m : M X A) (f : A -> M X B) s :
  events (bind m f s) =
  events (m s) ++ match value (m s) with
                  | Ok a => events (f a (final (m s)))
                  | _ => []
                  end.
Proof.
  rewrite bind_run. destruct (value (m s)); cbn [events];
    now rewrite ?events_after, ?app_nil_r.
Qed.

Lemma final_bind A B (m : M X A) (f : A -> M X B) s :
  final (bind m f s) =
  match value (m s) with
  | Ok a => final (f a (final (m s)))
  | _ => final (m s)
  end.
Proof.
  rewrite bind_run. destruct (value (m s)); cbn [final]; now rewrite ?final_after.
Qed.

Definition settings_path : string := "/data/options.json".

Definition load_failure (e : exn) : list event :=
  [OpenFile settings_path;
   LogError [Lit "Failed to load settings: "; Exc e];
   Print [Col FAIL;
          Lit "Error loading settings.json. Ensure the file exists and is valid JSON.";
          Col ENDC]].

Lemma gettoken_loaded s j s1 :
  open_json env settings_path s = (Returns j, s1) ->
  gettoken env s =
  after [OpenFile settings_path]
        (try_except (gettoken_try env j) gettoken_except s1).
Proof.
  intros H. unfold gettoken.
  exact (bind_ok _ _ _ _ _ _ _ _ (load_settings_ok env _ _ _ _ H)).
Qed.

Lemma gettoken_unloaded s e s1 :
  open_json env settings_path s = (Raises e, s1) ->
  gettoken env s = mkOut (load_failure e) s1 (Exit 1).
Proof.
  intros H. unfold settings_path in H.
  unfold gettoken, bind, load_settings, try_except, call_ext.
  rewrite H. reflexivity.
Qed.

(** X2.  When the settings file cannot be opened or parsed, whatever the
    error, [gettoken] logs it, prints the fixed message and leaves with
    [SystemExit(1)]; no request is sent. *)
Theorem gettoken_without_settings s e s1 :
  open_json env settings_path s = (Raises e, s1) ->
  value (gettoken env s) = Exit 1
  /\ events (gettoken env s) = load_failure e
  /\ http_requests (events (gettoken env s)) = []
  /\ final (gettoken env s) = s1.
Proof.
  intros H. rewrite (gettoken_unloaded _ _ _ H). repeat split.
Qed.

Lemma gettoken_except_prints e :
  exists msg,
    gettoken_except (X:=X) e
    = Some (print_colored msg FAIL ;; ret (JStr "")).
Proof.
  unfold gettoken_except.
  destruct (is_Timeout e); [|destruct (is_RequestException e);
                              [|destruct (is_JSONDecodeError e)]];
    eexists; reflexivity.
Qed.

Lemma gettoken_try_caught js s :
  let o := gettoken_try env js s in
  let t := try_except (gettoken_try env js) gettoken_except s in
  http_requests (events t) = http_requests (events o)
  /\ final t = final o
  /\ value t = match value o with Raise _ => Ok (JStr "") | v => v end.
Proof.
  cbv zeta. rewrite try_except_run.
  destruct (value (gettoken_try env js s)) as [v|e|c] eqn:E;
    try (rewrite E; repeat split).
  destruct (gettoken_except_prints e) as [msg ->].
  rewrite events_after, final_after, value_after, http_requests_app.
  cbn. rewrite app_nil_r. repeat split.
Qed.

Definition at_most_a_post (l : list event) : Prop :=
  http_requests l = [] \/ exists r, http_requests l = [HttpPost r].

Definition get_then_at_most_a_post (kr : request) (l : list event) : Prop :=
  http_requests l = [HttpGet kr]
  \/ exists r, http_requests l = [HttpGet kr; HttpPost r].

Lemma authenticate_requests js enc s :
  at_most_a_post (events (_authenticate env js enc s)).
Proof.
  unfold at_most_a_post, _authenticate, bind, call_ext, raise_for_status, lift.
  destruct (py_getitem js "API_Server") as [api|e]; cbn; [|auto].
  destruct (py_getitem js "sunsynk_user") as [user|e]; cbn; [|auto].
  right. exists (token_request api enc user).
  destruct (fst (requests_post env _ s)) as [r|e]; cbn; [|reflexivity].
  destruct (http_error r); cbn; [reflexivity|].
  destruct (body r) as [parsed|e]; cbn; [|reflexivity].
  destruct (py_get parsed "msg") as [status|e]; cbn; [|reflexivity].
  destruct (py_eq_str status "Success"); cbn;
    (destruct (py_getitem parsed "msg"); cbn; [|reflexivity]).
  - destruct (py_getitem parsed "data") as [data|e]; cbn; [|reflexivity].
    destruct (py_getitem data "access_token"); reflexivity.
  - reflexivity.
Qed.

Lemma encrypt_password_silent pw key s :
  events (_encrypt_password env pw key s) = []
  /\ final (_encrypt_password env pw key s) = s.
Proof.
  unfold _encrypt_password. destruct pw; try (split; reflexivity).
  unfold bind, lift. destruct (encrypt_PKCS1v15 env key s0); split; reflexivity.
Qed.

Lemma login_requests js key s :
  at_most_a_post
    (events ((password <- lift (py_getitem js "sunsynk_pass") ;;
              encrypted_password <- _encrypt_password env password key ;;
              _authenticate env js encrypted_password) s)).
Proof.
  rewrite events_bind. unfold lift at 1 2 3. cbn [events value final app].
  destruct (py_getitem js "sunsynk_pass") as [pw|e]; cbn [of_reply];
    [|now left].
  rewrite events_bind.
  destruct (encrypt_password_silent pw key s) as [-> ->]. cbn [app].
  destruct (value (_encrypt_password env pw key s)) as [enc|e|c];
    try now left.
  apply authenticate_requests.
Qed.

Lemma gettoken_try_requests js s :
  get_then_at_most_a_post (public_key_request (time_ms env s))
                          (events (gettoken_try env js s)).
Proof.
  unfold gettoken_try.
  rewrite events_bind, get_public_key_run. cbv zeta. cbn [events value final].
  unfold get_then_at_most_a_post.
  set (v := match fst (requests_get env _ s) with Raises e => _ | Returns r => _ end).
  destruct v as [key|e|c]; try now left.
  destruct (login_requests js key (snd (requests_get env
              (public_key_request (time_ms env s)) s))) as [H|[r H]];
    [left|right; exists r]; rewrite http_requests_app, H; reflexivity.
Qed.

(** X3.  [gettoken] never raises, and it makes one attempt: at most the
    public-key GET followed by at most one login POST, never a second
    request of either kind and never the POST without the GET. *)
Theorem gettoken_single_attempt s :
  let kr := public_key_request
              (time_ms env (snd (open_json env settings_path s))) in
  (forall e, value (gettoken env s) <> Raise e)
  /\ (http_requests (events (gettoken env s)) = []
      \/ get_then_at_most_a_post kr (events (gettoken env s))).
Proof.
  cbv zeta. destruct (open_json env settings_path s) as [[j|e] s1] eqn:H.
  - rewrite (gettoken_loaded _ _ _ H), value_after, events_after.
    destruct (gettoken_try_caught j s1) as (He & _ & Hv). cbv zeta in *.
    unfold get_then_at_most_a_post.
    rewrite http_requests_app, He, Hv. cbn [snd http_requests filter app]. split.
    + intros e. destruct (value (gettoken_try env j s1)); discriminate.
    + right. exact (gettoken_try_requests j s1).
  - rewrite (gettoken_unloaded _ _ _ H). cbn. split; [discriminate | auto].
Qed.

(** X4.  When every step succeeds, [gettoken] returns [data.access_token] of the
    login answer after exactly two requests; the [password] field of the
    login body is the base64 text of what the key, loaded from the framed
    key body, made of the configured password. *)
Theorem gettoken_grants s settings s1 r1 s2 parsed1 d key pw c api_server username
  r2 s3 parsed2 data token :
  open_json env settings_path s = (Returns settings, s1) ->
  requests_get env (public_key_request (time_ms env s1)) s1 = (Returns r1, s2) ->
  http_error r1 = false ->
  body r1 = Returns parsed1 ->
  py_getitem parsed1 "data" = Returns (JStr d) ->
  load_pem_public_key env (pem_header ++ d ++ pem_footer)%string = Returns key ->
  py_getitem settings "sunsynk_pass" = Returns (JStr pw) ->
  encrypt_PKCS1v15 env key pw = Returns c ->
  py_getitem settings "API_Server" = Returns api_server ->
  py_getitem settings "sunsynk_user" = Returns username ->
  let req := token_request api_server (JStr (b64encode env c)) username in
  requests_post env req s2 = (Returns r2, s3) ->
  http_error r2 = false ->
  body r2 = Returns parsed2 ->
  py_getitem parsed2 "msg" = Returns (JStr "Success") ->
  py_getitem parsed2 "data" = Returns data ->
  py_getitem data "access_token" = Returns token ->
  gettoken env s =
  mkOut [OpenFile settings_path;
         HttpGet (public_key_request (time_ms env s1));
         HttpPost req;
         Print [Col OKGREEN; Lit "Sunsynk Login: "; Val (JStr "Success"); Col ENDC]]
        s3 (Ok token).
Proof.
  intros Hload Hget He1 Hb1 Hd Hkey Hpw Henc Hapi Huser req Hpost He2 Hb2 Hmsg
    Hdata Htok.
  rewrite (gettoken_loaded _ _ _ Hload).
  assert (Hk : _get_public_key env s1
               = mkOut [HttpGet (public_key_request (time_ms env s1))] s2 (Ok key)).
  { rewrite get_public_key_run. cbv zeta. rewrite Hget. cbn [fst snd].
    rewrite He1, Hb1, Hd.
    rewrite (proj2 (public_key_file_returns (JStr d) _)
               (ex_intro _ d (conj eq_refl eq_refl))).
    now rewrite Hkey. }
  assert (Ha : _authenticate env settings (JStr (b64encode env c)) s2
               = mkOut [HttpPost req;
                        Print [Col OKGREEN; Lit "Sunsynk Login: ";
                               Val (JStr "Success"); Col ENDC]]
                       s3 (Ok token)).
  { rewrite (authenticate_answered env settings (JStr (b64encode env c))
               api_server username s2 r2 parsed2 (JStr "Success") Hapi Huser).
    - fold req. rewrite Hpost, Hdata, Htok. reflexivity.
    - fold req. now rewrite Hpost.
    - exact He2.
    - exact Hb2.
    - exact Hmsg. }
  assert (Ht : gettoken_try env settings s1
               = mkOut [HttpGet (public_key_request (time_ms env s1));
                        HttpPost req;
                        Print [Col OKGREEN; Lit "Sunsynk Login: ";
                               Val (JStr "Success"); Col ENDC]]
                       s3 (Ok token)).
  { unfold gettoken_try.
    rewrite (bind_ok _ _ _ _ _ _ _ _ Hk).
    unfold bind at 1, lift. rewrite Hpw. cbn [of_reply].
    unfold _encrypt_password. unfold bind at 1. unfold bind at 1, lift.
    rewrite Henc. cbn [of_reply ret]. rewrite Ha. reflexivity. }
  unfold try_except. rewrite Ht. reflexivity.
Qed.

(** X5.  Without a usable [sunsynk_pass] (the key is missing, or its value is
    not a string) [gettoken] still fetches the public key, but sends no
    login request and returns the empty token. *)
Theorem gettoken_without_password s settings s1 :
  open_json env settings_path s = (Returns settings, s1) ->
  (forall pw, py_getitem settings "sunsynk_pass" <> Returns (JStr pw)) ->
  value (gettoken env s) = Ok (JStr "")
  /\ http_requests (events (gettoken env s))
     = [HttpGet (public_key_request (time_ms env s1))].
Proof.
  intros Hload Hpw.
  rewrite (gettoken_loaded _ _ _ Hload), value_after, events_after.
  destruct (gettoken_try_caught settings s1) as (He & _ & Hv). cbv zeta in *.
  rewrite http_requests_app, He, Hv. cbn [http_requests filter app].
  unfold gettoken_try.
  rewrite value_bind, events_bind, get_public_key_run. cbv zeta.
  cbn [events value final]. rewrite http_requests_app. cbn [http_requests filter app].
  set (v := match fst (requests_get env _ s1) with Raises e => _ | Returns r => _ end).
  destruct v as [key|e|c] eqn:Ev.
  - rewrite value_bind, events_bind. unfold lift at 1 2 3 4.
    cbn [events value final app].
    destruct (py_getitem settings "sunsynk_pass") as [pw|e] eqn:P;
      cbn [of_reply]; [|split; reflexivity].
    rewrite value_bind, events_bind.
    destruct pw; try (now contradiction (Hpw s0)); split; reflexivity.
  - split; reflexivity.
  - exfalso. pose proof (no_exit_get_public_key env s1 c) as N.
    rewrite get_public_key_run in N. cbv zeta in N. cbn [value] in N.
    fold v in N. now rewrite Ev in N.
Qed.

End TokenRuns.

Section TokenFailures.

Context {X : Type} (env : Env X).

Lemma gettoken_try_key_failure js s e :
  value (_get_public_key env s) = Raise e ->
  gettoken_try env js s =
  mkOut [HttpGet (public_key_request (time_ms env s))]
        (snd (requests_get env (public_key_request (time_ms env s)) s))
        (Raise e).
Proof.
  intros H. unfold gettoken_try. rewrite bind_run.
  rewrite H. rewrite get_public_key_run. reflexivity.
Qed.

(** X6.  What [gettoken] tells the user when the public key cannot be fetched:
    the time-out message for a time-out, and the connection message
    followed by the error for any other request error and for an answer
    with an error status.  In each case nothing else is requested and the
    empty token is returned. *)
Theorem gettoken_reports_key_failure s settings s1 :
  open_json env settings_path s = (Returns settings, s1) ->
  let kr := public_key_request (time_ms env s1) in
  let a := requests_get env kr s1 in
  let said msg :=
    gettoken env s =
    mkOut [OpenFile settings_path; HttpGet kr;
           Print ([Col FAIL] ++ msg ++ [Col ENDC])]
          (snd a) (Ok (JStr "")) in
  (fst a = Raises Timeout ->
   said [Lit "Error: Request timed out while connecting to Sunsynk API."])
  /\ (forall e, fst a = Raises e -> is_Timeout e = false ->
                is_RequestException e = true ->
                said [Lit "Error: Failed to connect to Sunsynk API. "; Exc e])
  /\ (forall r, fst a = Returns r -> http_error r = true ->
                said [Lit "Error: Failed to connect to Sunsynk API. ";
                      Exc (HTTPError (status_code r))]).
Proof.
  intros Hload kr a said. subst said. cbv beta.
  rewrite (gettoken_loaded env _ _ _ Hload).
  assert (K : forall e, value (_get_public_key env s1) = Raise e ->
              forall k, gettoken_except e = Some k ->
              after [OpenFile settings_path]
                (try_except (gettoken_try env settings) gettoken_except s1)
              = after [OpenFile settings_path] (after [HttpGet kr] (k (snd a)))).
  { intros e He k Hk. unfold try_except.
    rewrite (gettoken_try_key_failure settings s1 e He), Hk. reflexivity. }
  repeat split.
  - intros Ha. rewrite (K Timeout) with (k := print_colored
        [Lit "Error: Request timed out while connecting to Sunsynk API."] FAIL ;;
        ret (JStr "")); try reflexivity.
    rewrite get_public_key_run. cbv zeta. fold kr a. now rewrite Ha.
  - intros e Ha Ht Hr.
    rewrite (K e) with (k := print_colored
        [Lit "Error: Failed to connect to Sunsynk API. "; Exc e] FAIL ;;
        ret (JStr "")); try reflexivity.
    + rewrite get_public_key_run. cbv zeta. fold kr a. now rewrite Ha.
    + unfold gettoken_except. now rewrite Ht, Hr.
  - intros r Ha Hr.
    rewrite (K (HTTPError (status_code r))) with (k := print_colored
        [Lit "Error: Failed to connect to Sunsynk API. ";
         Exc (HTTPError (status_code r))] FAIL ;;
        ret (JStr "")); try reflexivity.
    rewrite get_public_key_run. cbv zeta. fold kr a. now rewrite Ha, Hr.
Qed.

(** X7.  A login answer whose JSON object has no [msg] field is taken as a
    refusal, since [.get] gives [None]; the refusal message then reads
    [msg] by subscript, so [_authenticate] raises [KeyError] instead of
    returning the empty string, and prints nothing. *)
Theorem authenticate_without_msg json_settings encrypted_password api_server
  username s r fields :
  py_getitem json_settings "API_Server" = Returns api_server ->
  py_getitem json_settings "sunsynk_user" = Returns username ->
  let req := token_request api_server encrypted_password username in
  fst (requests_post env req s) = Returns r ->
  http_error r = false ->
  body r = Returns (JObj fields) ->
  assoc "msg" fields = None ->
  _authenticate env json_settings encrypted_password s =
  mkOut [HttpPost req] (snd (requests_post env req s)) (Raise (KeyError "msg")).
Proof.
  intros Hs Hu req Hr Hst Hb Hm.
  unfold _authenticate, bind, lift, call_ext, raise_for_status.
  rewrite Hs, Hu. cbn [of_reply value final events app]. fold req.
  rewrite Hr. cbn [of_reply]. rewrite Hst. cbn [of_reply ret]. rewrite Hb.
  cbn [of_reply py_get py_getitem]. rewrite Hm. reflexivity.
Qed.

(** X8.  A login answer that says ["Success"] but carries no token (no [data],
    or a [data] without [access_token]) is announced in green as a
    successful login, after which [_authenticate] raises the lookup
    error. *)
Theorem authenticate_success_without_token json_settings encrypted_password
  api_server username s r parsed e :
  py_getitem json_settings "API_Server" = Returns api_server ->
  py_getitem json_settings "sunsynk_user" = Returns username ->
  let req := token_request api_server encrypted_password username in
  fst (requests_post env req s) = Returns r ->
  http_error r = false ->
  body r = Returns parsed ->
  py_getitem parsed "msg" = Returns (JStr "Success") ->
  py_getitem parsed "data" = Raises e
  \/ (exists data, py_getitem parsed "data" = Returns data
                   /\ py_getitem data "access_token" = Raises e) ->
  _authenticate env json_settings encrypted_password s =
  mkOut [HttpPost req;
         Print [Col OKGREEN; Lit "Sunsynk Login: "; Val (JStr "Success"); Col ENDC]]
        (snd (requests_post env req s)) (Raise e).
Proof.
  intros Hs Hu req Hr Hst Hb Hm Hd.
  rewrite (authenticate_answered env json_settings encrypted_password api_server
             username s r parsed (JStr "Success") Hs Hu Hr Hst Hb Hm).
  fold req. cbn [py_eq_str String.eqb].
  change (py_eq_str (JStr "Success") "Success") with true. cbv iota.
  destruct Hd as [->|(data & -> & ->)]; reflexivity.
Qed.

End TokenFailures.

(** ** A run whose token acquisition fails *)

Section FailedToken.

Context {X : Type} (env : Env X).

Lemma in_events_bind A B (m : M X A) (f : A -> M X B) s a ev :
  value (m s) = Ok a -> In ev (events (f a (final (m s)))) ->
  In ev (events (bind m f s)).
Proof.
  intros Hv Hin. rewrite events_bind, Hv. apply in_or_app. now right.
Qed.

Lemma in_events_try A (m : M X A) h s ev :
  In ev (events (m s)) -> In ev (events (try_except m h s)).
Proof.
  intros Hin. rewrite try_except_run.
  destruct (value (m s)); try exact Hin.
  destruct (h e); [|exact Hin].
  rewrite events_after. apply in_or_app. now left.
Qed.

(** [_authenticate] when the settings name the server and the user: the
    request goes out, and an answer that grants nothing gives no token. *)
Lemma authenticate_refused js enc s api_server username :
  py_getitem js "API_Server" = Returns api_server ->
  py_getitem js "sunsynk_user" = Returns username ->
  let req := token_request api_server enc username in
  In (HttpPost req) (events (_authenticate env js enc s))
  /\ (login_fails (requests_post env req s) = true ->
      no_token (_authenticate env js enc s)).
Proof.
  intros Ha Hu req.
  unfold no_token, login_fails, _authenticate, bind, call_ext, raise_for_status,
    lift.
  rewrite Ha, Hu. cbn [of_reply value final events app]. fold req.
  destruct (requests_post env req s) as [[r|e] s']; cbn [fst snd of_reply];
    [|split; [now left | cbn; eauto]].
  destruct (http_error r); cbn [raise ret orb];
    [split; [now left | cbn; eauto]|].
  destruct (body r) as [parsed|e]; cbn [of_reply];
    [|split; [now left | cbn; eauto]].
  destruct (py_get parsed "msg") as [status|e]; cbn [of_reply];
    [|split; [now left | cbn; eauto]].
  destruct (py_eq_str status "Success"); cbn [negb].
  - split; [|discriminate].
    destruct (py_getitem parsed "msg"); cbn; [|now left].
    destruct (py_getitem parsed "data") as [data|e]; cbn; [|now left].
    destruct (py_getitem data "access_token"); cbn; now left.
  - split; destruct (py_getitem parsed "msg"); cbn; eauto.
Qed.

(** The [try] block gives no token when the key cannot be fetched, and
    when the login request it sends is answered with a failure. *)
Lemma gettoken_try_refused js s :
  let key_answer := requests_get env (public_key_request (time_ms env s)) s in
  key_fetch_fails key_answer = true
  \/ (forall req, In (HttpPost req) (events (gettoken_try env js s)) ->
                  login_fails (requests_post env req (snd key_answer)) = true) ->
  no_token (gettoken_try env js s).
Proof.
  intros key_answer [H|H].
  - apply gettoken_try_fails. now left.
  - revert H. unfold gettoken_try. intros H.
    destruct (value (_get_public_key env s)) as [key|e|c] eqn:E.
    + assert (Hs : final (_get_public_key env s) = snd key_answer)
        by (rewrite get_public_key_run; reflexivity).
      unfold no_token. rewrite value_bind, E, value_bind.
      destruct (py_getitem js "sunsynk_pass") as [pw|e] eqn:Ep;
        cbn [lift value final of_reply]; [|right; eexists; reflexivity].
      rewrite value_bind.
      destruct (encrypt_password_silent env pw key
                  (final (_get_public_key env s))) as [Hev Hfin].
      rewrite Hfin.
      destruct (value (_encrypt_password env pw key
                         (final (_get_public_key env s)))) as [enc|e|c] eqn:E2;
        [|right; eexists; reflexivity
         |exfalso; exact (no_exit_encrypt_password env _ _ _ _ E2)].
      destruct (py_getitem js "API_Server") as [api|e] eqn:Ea;
        [|right; unfold _authenticate, bind, lift; rewrite Ea; cbn; eauto].
      destruct (py_getitem js "sunsynk_user") as [user|e] eqn:Eu;
        [|right; unfold _authenticate, bind, lift; rewrite Ea, Eu; cbn; eauto].
      destruct (authenticate_refused js enc (final (_get_public_key env s))
                  api user Ea Eu) as [Hin Hno].
      apply Hno. rewrite Hs. apply H.
      apply (in_events_bind _ _ _ _ _ key _ E).
      apply (in_events_bind _ _ (lift (Returns pw)) _ _ pw _ eq_refl).
      cbn [lift final].
      apply (in_events_bind _ _ _ _ _ enc _ E2).
      rewrite Hfin. exact Hin.
    + right. rewrite value_bind, E. eexists. reflexivity.
    + exfalso. exact (no_exit_get_public_key env _ _ E).
Qed.

(** C3.  When the settings file loads and token acquisition fails, because
    the public-key request raises (time-out or any other failure of the
    transport), is answered with an error status or with a body that is
    not JSON, or because the login request that the run sends meets one of
    these or is answered with a [msg] that is not ["Success"], [gettoken]
    returns the empty string, and [main] calls no telemetry function, no
    settings step and no connection test, and starts no thread.  The
    failure is the one of this run's own requests: other requests to the
    same endpoint may well be granted. *)
Theorem failed_token_stops_the_run json_settings inverter_serials s settings s1 :
  open_json env "/data/options.json" s = (Returns settings, s1) ->
  let key_answer := requests_get env (public_key_request (time_ms env s1)) s1 in
  key_fetch_fails key_answer = true
  \/ (forall req, In (HttpPost req) (events (gettoken env s)) ->
                  login_fails (requests_post env req (snd key_answer)) = true) ->
  value (gettoken env s) = Ok (JStr "")
  /\ Forall no_device_work (events (main env json_settings inverter_serials s)).
Proof.
  intros Hload key_answer Hfail.
  assert (Hv : value (gettoken env s) = Ok (JStr "")).
  { rewrite (gettoken_value env _ _ _ Hload).
    assert (Hno : no_token (gettoken_try env settings s1)).
    { apply gettoken_try_refused. destruct Hfail as [H|H]; [now left | right].
      intros req Hin. apply H.
      rewrite (gettoken_loaded env _ _ _ Hload), events_after.
      apply in_or_app. right. now apply in_events_try. }
    destruct Hno as [-> | [e ->]]; reflexivity. }
  split; [exact Hv|].
  now apply main_without_token with (tok := JStr "").
Qed.

End FailedToken.

(** ** Creating an input_text helper *)

(** How a POST followed by [raise_for_status] fails, if it does. *)
Definition post_failure (a : reply response) : option exn :=
  match a with
  | Raises e => Some e
  | Returns r => if http_error r then Some (HTTPError (status_code r)) else None
  end.

Section CreateHelper.

Context {X : Type} (env : Env X).

Lemma post_then A req (k : M X A) s :
  (response <- call_ext (HttpPost req) (requests_post env req) ;;
   raise_for_status response ;; k) s =
  match post_failure (fst (requests_post env req s)) with
  | None => after [HttpPost req] (k (snd (requests_post env req s)))
  | Some e => mkOut [HttpPost req] (snd (requests_post env req s)) (Raise e)
  end.
Proof.
  unfold bind, call_ext, raise_for_status, post_failure, after.
  destruct (fst (requests_post env req s)) as [r|e]; cbn [of_reply]; [|reflexivity].
  destruct (http_error r); cbn [raise ret app]; [reflexivity|].
  destruct (k _); reflexivity.
Qed.

Variables (entity_id friendly_name : string) (max_length : Z)
  (initial_value config_path : string).
Variables (s s1 : store X) (settings https ip port token : json).

Hypothesis loaded : open_json env config_path s = (Returns settings, s1).
Hypothesis has_https : py_getitem settings "Enable_HTTPS" = Returns https.
Hypothesis has_ip : py_getitem settings "Home_Assistant_IP" = Returns ip.
Hypothesis has_port : py_getitem settings "Home_Assistant_PORT" = Returns port.
Hypothesis has_token : py_getitem settings "HA_LongLiveToken" = Returns token.

Let base_url := ha_base_url https ip port.
Let hdrs := ha_headers token.
Let primary := helper_request base_url hdrs entity_id friendly_name max_length
                              initial_value.
Let fallback := fallback_request base_url hdrs entity_id friendly_name max_length
                                 initial_value.
Let p1 := requests_post env primary s1.
Let p2 := requests_post env fallback (snd p1).

Let create := create_input_text_helper env entity_id friendly_name max_length
                                       initial_value config_path.

Definition helper_created : event :=
  Print [Col OKGREEN; Lit "Created input_text helper: ";
         Val (JStr entity_id); Col ENDC].

Definition helper_error (e : exn) : event :=
  Print [Col FAIL; Lit "Error creating input_text helper ";
         Val (JStr entity_id); Lit ": "; Exc e; Col ENDC].

Definition trying_fallback : event :=
  Print [Col WARNING; Lit "Trying fallback method for ";
         Val (JStr entity_id); Col ENDC].

Definition fallback_created : event :=
  Print [Col OKGREEN; Lit "Created input_text helper via fallback: ";
         Val (JStr entity_id); Col ENDC].

Definition fallback_failed (e : exn) : event :=
  Print [Col FAIL; Lit "Fallback also failed for ";
         Val (JStr entity_id); Lit ": "; Exc e; Col ENDC].

Lemma create_loaded :
  create s =
  after [OpenFile config_path]
    match post_failure (fst p1) with
    | None => mkOut [HttpPost primary; helper_created] (snd p1) (Ok true)
    | Some e =>
        if is_RequestException e then
          after [HttpPost primary; helper_error e; trying_fallback]
            match post_failure (fst p2) with
            | None => mkOut [HttpPost fallback; fallback_created] (snd p2) (Ok true)
            | Some e2 =>
                if is_RequestException e2 then
                  mkOut [HttpPost fallback; fallback_failed e2] (snd p2) (Ok false)
                else mkOut [HttpPost fallback] (snd p2) (Raise e2)
            end
        else mkOut [HttpPost primary] (snd p1) (Raise e)
    end.
Proof.
  unfold create, create_input_text_helper.
  pose proof (get_ha_url_and_headers_ok env _ _ _ _ _ _ _ _
                loaded has_https has_ip has_port has_token) as Hcfg.
  assert (Hb : try_except
                 (cfg <- get_ha_url_and_headers env config_path ;; ret (inl cfg))
                 (fun e => if is_RequestException e
                           then Some (ret (inr e)) else None) s
               = mkOut [OpenFile config_path] s1 (Ok (inl (base_url, hdrs)))).
  { unfold try_except. rewrite (bind_ok _ _ _ _ _ _ _ _ Hcfg). reflexivity. }
  rewrite (bind_ok _ _ _ _ _ _ _ _ Hb). f_equal.
  cbv beta iota. cbn [fst snd]. fold primary. rewrite try_except_run, post_then. fold p1.
  destruct (post_failure (fst p1)) as [e|]; [|reflexivity].
  cbn [value events final].
  destruct (is_RequestException e); [|reflexivity].
  unfold create_except. rewrite bind_run. cbn [print emit value events final].
  rewrite after_after. cbn [app].
  rewrite try_except_run, bind_run. cbn [print emit value events final].
  fold fallback. rewrite post_then. fold p2.
  destruct (post_failure (fst p2)) as [e2|]; [|reflexivity].
  cbn [after value events final app].
  destruct (is_RequestException e2); reflexivity.
Qed.

(** X9.  With the Home Assistant settings loaded, a helper whose creation
    request is accepted costs one POST, to [/api/config/input_text] with
    the helper's fields under its name: [create_input_text_helper]
    returns [True] and the states API is not tried. *)
Theorem create_helper_primary :
  post_failure (fst p1) = None ->
  create s = mkOut [OpenFile config_path; HttpPost primary; helper_created]
                   (snd p1) (Ok true)
  /\ url primary = base_url ++ [Lit "/api/config/input_text"]
  /\ json_body primary
     = Some (JObj [(py_replace entity_id "input_text." "",
                    JObj [("name", JStr friendly_name);
                          ("max", JInt max_length);
                          ("initial", JStr initial_value)])]).
Proof.
  intros H. rewrite create_loaded, H. repeat split.
Qed.

(** X10.  With the settings loaded and a [requests] library that raises request
    exceptions only, [create_input_text_helper] does not raise.  It
    returns [True] exactly when the creation request or, after its
    failure, the fallback request to [/api/states/{entity_id}] is
    accepted; the fallback is sent only after the creation request
    failed, and nothing is sent a second time. *)
Theorem create_helper_result :
  (forall req st e, fst (requests_post env req st) = Raises e ->
                    is_RequestException e = true) ->
  exists b,
    value (create s) = Ok b
    /\ (b = true <-> post_failure (fst p1) = None \/ post_failure (fst p2) = None)
    /\ http_requests (events (create s))
       = match post_failure (fst p1) with
         | None => [HttpPost primary]
         | Some _ => [HttpPost primary; HttpPost fallback]
         end
    /\ url fallback = base_url ++ [Lit "/api/states/"; Val (JStr entity_id)]
    /\ json_body fallback
       = Some (JObj [("state", JStr initial_value);
                     ("attributes", JObj [("friendly_name", JStr friendly_name);
                                          ("max", JInt max_length)])]).
Proof.
  intros Hreq.
  assert (Hf : forall req st e, post_failure (fst (requests_post env req st)) = Some e ->
                                is_RequestException e = true).
  { intros req st e. unfold post_failure.
    destruct (fst (requests_post env req st)) as [r|e'] eqn:E.
    - destruct (http_error r); [|discriminate]. now intros [= <-].
    - intros [= <-]. exact (Hreq _ _ _ E). }
  rewrite create_loaded.
  destruct (post_failure (fst p1)) as [e|] eqn:E1.
  - rewrite (Hf _ _ _ E1).
    destruct (post_failure (fst p2)) as [e2|] eqn:E2.
    + rewrite (Hf _ _ _ E2). exists false. cbn. repeat split; try discriminate.
      intros [H|H]; discriminate H.
    + exists true. cbn. repeat split; auto.
  - exists true. cbn. repeat split; auto.
Qed.

End CreateHelper.

(** ** The name a helper is created under *)

Fixpoint no_dot (s : string) : bool :=
  match s with
  | EmptyString => true
  | String c rest => negb (Ascii.eqb c ".") && no_dot rest
  end.

Lemma no_dot_app a b : no_dot (a ++ b) = no_dot a && no_dot b.
Proof.
  induction a as [|c a IH]; [reflexivity|].
  cbn [append no_dot]. now rewrite IH, andb_assoc.
Qed.

Lemma no_dot_no_prefix t :
  no_dot t = true -> String.prefix "input_text." t = false.
Proof.
  intros H.
  do 11 (destruct t as [|? t]; [reflexivity|];
         cbn [String.prefix];
         match goal with
         | |- context [ascii_dec ?a ?b] =>
             destruct (ascii_dec a b) as [<-|]; [|reflexivity]
         end;
         cbn in H; try discriminate H).
Qed.

Lemma replace_no_dot t :
  no_dot t = true -> replace_from "input_text." "" 0 t = t.
Proof.
  induction t as [|c t IH]; intros H; [reflexivity|].
  cbn [replace_from]. rewrite (no_dot_no_prefix _ H).
  cbn [no_dot] in H. apply andb_prop in H as [_ H]. now rewrite IH.
Qed.

Lemma replace_skip old new p t :
  replace_from old new (String.length p) (p ++ t) = replace_from old new 0 t.
Proof. induction p as [|c p IH]; [reflexivity | exact IH]. Qed.

Lemma prefix_app p t : String.prefix p (p ++ t) = true.
Proof.
  induction p as [|c p IH]; cbn [append String.prefix].
  - now destruct t.
  - destruct (ascii_dec c c); [exact IH | contradiction].
Qed.

Lemma replace_prefix name :
  no_dot name = true ->
  py_replace ("input_text." ++ name) "input_text." "" = name.
Proof.
  intros H. unfold py_replace.
  pose proof (prefix_app "input_text." name) as P.
  change ("input_text." ++ name)%string
    with (String "i" ("nput_text." ++ name)) in *.
  cbn [replace_from]. rewrite P. cbn [append].
  change (String "n" (String "p" (String "u" (String "t" (String "_"
            (String "t" (String "e" (String "x" (String "t" (String "." name))))))))))
    with ("nput_text." ++ name)%string.
  rewrite (replace_skip "input_text." "" "nput_text." name).
  now apply replace_no_dot.
Qed.

(** X11.  For a serial without a dot, the settings entity
    [input_text.solarsynkv3_{serial}_settings] is created under the helper
    name [solarsynkv3_{serial}_settings]: the entity id without its
    domain. *)
Theorem settings_helper_name base_url hdrs serial friendly_name max_length
  initial_value :
  no_dot serial = true ->
  json_body (helper_request base_url hdrs (settings_entity serial) friendly_name
                            max_length initial_value)
  = Some (helper_payload ("solarsynkv3_" ++ serial ++ "_settings")
                         friendly_name max_length initial_value).
Proof.
  intros H. unfold helper_request. cbn [json_body]. do 2 f_equal.
  unfold settings_entity.
  change ("input_text.solarsynkv3_" ++ serial ++ "_settings")%string
    with ("input_text." ++ ("solarsynkv3_" ++ serial ++ "_settings"))%string.
  apply replace_prefix. rewrite !no_dot_app, H. reflexivity.
Qed.

(** ** Validating the required entities *)

Lemma length_append a b :
  String.length (a ++ b) = String.length a + String.length b.
Proof. induction a as [|c a IH]; cbn; [reflexivity | now rewrite IH]. Qed.

Lemma append_inv_tail a b t : (a ++ t = b ++ t)%string -> a = b.
Proof.
  revert b. induction a as [|c a IH]; intros [|d b] H; cbn in H.
  - reflexivity.
  - apply (f_equal String.length) in H. cbn in H. rewrite length_append in H. lia.
  - apply (f_equal String.length) in H. cbn in H. rewrite length_append in H. lia.
  - injection H as -> H. f_equal. now apply IH.
Qed.

Lemma settings_entity_inj a b : settings_entity a = settings_entity b -> a = b.
Proof.
  unfold settings_entity. intros H. cbn [append] in H.
  repeat match type of H with String _ _ = String _ _ => injection H as H end.
  exact (append_inv_tail _ _ _ H).
Qed.

(** An event that is not the line [Failed to create required entity]. *)
Definition other_line (ev : event) : Prop :=
  forall serial, ev <> Print (failed_to_create serial).

#[local] Hint Unfold other_line failed_to_create : run.

Ltac other_lines :=
  repeat first
    [ apply emits_bind; [|intros]
    | apply emits_if
    | apply emits_ret
    | apply emits_raise
    | apply emits_lift
    | apply emits_emit; intros ? ?; discriminate
    | apply emits_call_ext; intros ? ?; discriminate
    | apply emits_try_except; [|intros ? ? ?]
    | match goal with
      | H : (if ?b then _ else _) = Some _ |- _ =>
          destruct b; [injection H as <- | discriminate H]
      | H : Some _ = Some _ |- _ => injection H as <-
      | |- emits _ (match ?x with _ => _ end) => destruct x
      end ].

Section Validation.

Context {X : Type} (env : Env X).

Lemma emits_print (P : event -> Prop) msg : P (Print msg) -> emits (X:=X) P (print msg).
Proof. apply emits_emit. Qed.

Lemma other_get_ha_url_and_headers path :
  emits other_line (get_ha_url_and_headers env path).
Proof.
  unfold get_ha_url_and_headers, load_ha_settings, print. other_lines.
Qed.

Lemma other_check_entity_exists entity path :
  emits other_line (check_entity_exists env entity path).
Proof.
  unfold check_entity_exists, raise_for_status, print.
  apply emits_try_except.
  - apply emits_bind; [apply other_get_ha_url_and_headers|intros].
    other_lines.
  - intros e k H. other_lines.
Qed.

Lemma other_create_except cfg entity name max init e :
  emits other_line (create_except env cfg entity name max init e).
Proof.
  unfold create_except, raise_for_status, print. other_lines.
Qed.

Lemma other_create_input_text_helper entity name max init path :
  emits other_line (create_input_text_helper env entity name max init path).
Proof.
  unfold create_input_text_helper, raise_for_status, print.
  apply emits_bind.
  - apply emits_try_except.
    + apply emits_bind; [apply other_get_ha_url_and_headers|intros].
      other_lines.
    + intros e k H. other_lines.
  - intros [cfg|e]; [|apply other_create_except].
    apply emits_try_except; [other_lines|].
    intros e k H. destruct (is_RequestException e); [|discriminate H].
    injection H as <-. apply other_create_except.
Qed.

Lemma other_print_entities l : emits (X:=X) other_line (print_entities l).
Proof.
  unfold print_entities, print.
  induction l as [|x l IH]; cbn [for_each]; other_lines. exact IH.
Qed.

Lemma other_report_results m c : emits other_line (report_results (X:=X) m c).
Proof.
  unfold report_results, validation_complete, print.
  destruct (nonempty m); [|other_lines].
  apply emits_bind; [other_lines|intros].
  apply emits_bind; [|intros].
  - destruct (nonempty c); [|other_lines].
    apply emits_bind; [other_lines|intros]. apply other_print_entities.
  - destruct (nonempty (failed_entities m c)); [|other_lines].
    apply emits_bind; [other_lines|intros].
    apply emits_bind; [apply other_print_entities|intros]. other_lines.
Qed.

Definition fails_at (ev : list event) (serial : string) : Prop :=
  In (Print (failed_to_create serial)) ev.

Lemma fails_at_app a b x : fails_at (a ++ b) x <-> fails_at a x \/ fails_at b x.
Proof. apply in_app_iff. Qed.

Lemma others_never_fail ev x : Forall other_line ev -> ~ fails_at ev x.
Proof.
  intros H Hin. rewrite Forall_forall in H. exact (H _ Hin x eq_refl).
Qed.

(** What one round of the loop does to the two lists. *)
Inductive round (serial : string) (ev : list event)
  : list string -> list string -> Prop :=
| round_found : (forall x, ~ fails_at ev x) -> round serial ev [] []
| round_created :
    (forall x, ~ fails_at ev x) ->
    round serial ev [settings_entity serial] [settings_entity serial]
| round_failed :
    (forall x, fails_at ev x <-> x = serial) ->
    round serial ev [settings_entity serial] [].

Lemma fails_at_cons e l x :
  fails_at (e :: l) x <-> e = Print (failed_to_create x) \/ fails_at l x.
Proof. reflexivity. Qed.

Lemma fails_at_nil x : fails_at [] x <-> False.
Proof. reflexivity. Qed.

Ltac split_trace :=
  repeat first [ rewrite fails_at_app | rewrite fails_at_cons
               | rewrite fails_at_nil ].

Lemma validate_entity_round path lists serial s m c :
  value (validate_entity env path lists serial s) = Ok (m, c) ->
  exists dm dc,
    m = fst lists ++ dm /\ c = snd lists ++ dc
    /\ round serial (events (validate_entity env path lists serial s)) dm dc.
Proof.
  destruct lists as [m0 c0]. unfold validate_entity. cbn [fst snd].
  rewrite bind_run.
  cbn [print emit value events final]. rewrite value_after, events_after.
  pose proof (fun x => others_never_fail _ x
                (other_check_entity_exists (settings_entity serial) path s)) as Hc.
  rewrite bind_run.
  destruct (value (check_entity_exists env (settings_entity serial) path s))
    as [found|?|?]; try discriminate.
  rewrite value_after, events_after.
  set (evc := events (check_entity_exists env (settings_entity serial) path s)) in *.
  set (s1 := final (check_entity_exists env (settings_entity serial) path s)).
  destruct found; cbn [negb].
  - (* the entity exists *)
    cbn [bind print emit ret value events app]. intros [= <- <-].
    exists [], []. rewrite !app_nil_r. repeat split.
    apply round_found. intros x. split_trace.
    intros [H|[H|[H|[]]]]; try discriminate H. exact (Hc x H).
  - rewrite bind_run. cbn [print emit value events final].
    rewrite value_after, events_after.
    pose proof (fun x => others_never_fail _ x
                  (other_create_input_text_helper (settings_entity serial)
                     (settings_friendly_name serial) 255%Z "" path s1)) as Hk.
    rewrite bind_run.
    destruct (value (create_input_text_helper env (settings_entity serial)
                       (settings_friendly_name serial) 255 "" path s1))
      as [created|?|?]; try discriminate.
    rewrite value_after, events_after.
    set (evk := events (create_input_text_helper env (settings_entity serial)
                          (settings_friendly_name serial) 255 "" path s1)) in *.
    destruct created.
    + cbn [ret value events app]. intros [= <- <-].
      exists [settings_entity serial], [settings_entity serial]. repeat split.
      apply round_created. intros x. split_trace.
      intros [H|[H|[H|[H|[]]]]]; try discriminate H;
        [exact (Hc x H) | exact (Hk x H)].
    + cbn [bind print emit ret value events app]. intros [= <- <-].
      exists [settings_entity serial], []. rewrite app_nil_r. repeat split.
      apply round_failed. intros x. split_trace. split.
      * intros [H|[H|[H|[H|[H|[H|[H|[H|[]]]]]]]]]; try discriminate H;
          try (now destruct (Hc x H)); try (now destruct (Hk x H)).
        injection H as H. symmetry. exact (append_inv_tail _ _ _ H).
      * intros ->. do 4 right. left. reflexivity.
Qed.

(** What the loop leaves in [missing_entities] and [created_entities]. *)
Lemma validate_loop path l :
  forall lists s m c,
    value (for_fold (validate_entity env path) l lists s) = Ok (m, c) ->
    exists dm dc,
      m = fst lists ++ dm /\ c = snd lists ++ dc
      /\ (forall e, In e dm ->
            exists x, In x l /\ e = settings_entity x
                      /\ (In e dc
                          \/ fails_at (events (for_fold (validate_entity env path)
                                                 l lists s)) x))
      /\ (forall x, fails_at (events (for_fold (validate_entity env path)
                                        l lists s)) x ->
                    In x l /\ In (settings_entity x) dm)
      /\ (NoDup l ->
          forall e, In e dc ->
            exists x, In x l /\ e = settings_entity x
                      /\ ~ fails_at (events (for_fold (validate_entity env path)
                                               l lists s)) x).
Proof.
  induction l as [|serial l IH]; intros lists s m c;
    destruct lists as [m0 c0]; set (lists := (m0, c0)).
  - cbn [for_fold ret value events]. subst lists. intros [= <- <-].
    exists [], []. cbn [fst snd]. rewrite !app_nil_r.
    repeat split; try contradiction.
  - cbn [for_fold]. rewrite bind_run.
    destruct (value (validate_entity env path lists serial s)) as [[m1 c1]|?|?] eqn:E1;
      try discriminate.
    rewrite value_after, events_after. intros E2.
    destruct (validate_entity_round _ _ _ _ _ _ E1) as (dm1 & dc1 & -> & -> & R).
    destruct (IH _ _ _ _ E2) as (dm2 & dc2 & -> & -> & I1 & I2 & I3).
    cbn [fst snd] in *.
    set (ev1 := events (validate_entity env path lists serial s)) in *.
    set (ev2 := events (for_fold (validate_entity env path) l
                          (fst lists ++ dm1, snd lists ++ dc1)
                          (final (validate_entity env path lists serial s)))) in *.
    exists (dm1 ++ dm2), (dc1 ++ dc2). rewrite <- !app_assoc.
    split; [reflexivity|]. split; [reflexivity|].
    split; [|split].
    + intros e He. apply in_app_or in He as [He|He].
      * exists serial. split; [now left|].
        destruct R as [R|R|R]; try contradiction;
          destruct He as [<-|[]]; split; try reflexivity.
        -- left. now left.
        -- right. apply fails_at_app. left. now apply R.
      * destruct (I1 e He) as (x & Hx & -> & Hor).
        exists x. split; [now right|]. split; [reflexivity|].
        destruct Hor as [H|H]; [left; apply in_or_app; now right|].
        right. apply fails_at_app. now right.
    + intros x Hx. apply fails_at_app in Hx as [Hx|Hx].
      * destruct R as [R|R|R]; try (now destruct (R x Hx)).
        apply R in Hx as ->. split; [now left|]. now left.
      * destruct (I2 x Hx) as [H1 H2]. split; [now right|].
        apply in_or_app. now right.
    + intros Hnd e He. inversion Hnd as [|? ? Hnotin Hnd']; subst.
      apply in_app_or in He as [He|He].
      * exists serial. split; [now left|].
        destruct R as [R|R|R]; try contradiction.
        destruct He as [<-|[]]. split; [reflexivity|].
        intros Hf. apply fails_at_app in Hf as [Hf|Hf]; [exact (R _ Hf)|].
        apply Hnotin. exact (proj1 (I2 _ Hf)).
      * destruct (I3 Hnd' e He) as (x & Hx & -> & Hn).
        exists x. split; [now right|]. split; [reflexivity|].
        intros Hf. apply fails_at_app in Hf as [Hf|Hf]; [|exact (Hn Hf)].
        destruct R as [R|R|R]; try (now destruct (R x Hf)).
        apply R in Hf as ->. exact (Hnotin Hx).
Qed.

Lemma report_results_value m c s :
  value (report_results (X:=X) m c s)
  = Ok (negb (nonempty (failed_entities m c))).
Proof.
  unfold report_results, validation_complete.
  destruct (nonempty m) eqn:Em.
  - rewrite value_bind. cbn [print emit value final].
    rewrite value_bind.
    assert (R : returns (X:=X) (if nonempty c
                 then print [Col OKGREEN; Lit "Successfully created ";
                             Val (len c); Lit " entities automatically";
                             Col ENDC] ;;
                      print_entities c
                 else ret tt)).
    { apply returns_if; [|apply returns_ret].
      apply returns_bind; [apply returns_emit|intros _].
      apply returns_for_each. intros x. apply returns_emit. }
    destruct (R s) as [[] ->].
    destruct (nonempty (failed_entities m c)); cbn [negb].
    + rewrite value_bind. cbn [print emit value final]. rewrite value_bind.
      assert (R2 : returns (X:=X) (print_entities (failed_entities m c))).
      { apply returns_for_each. intros x. apply returns_emit. }
      destruct (R2 (final ((if nonempty c
                 then print [Col OKGREEN; Lit "Successfully created ";
                             Val (len c); Lit " entities automatically";
                             Col ENDC] ;;
                      print_entities c
                 else ret tt) s))) as [[] ->].
      reflexivity.
    + reflexivity.
  - destruct m; [|discriminate Em]. reflexivity.
Qed.

Lemma failed_entities_nonempty m c :
  nonempty (failed_entities m c) = true <-> exists e, In e m /\ ~ In e c.
Proof.
  unfold failed_entities. split.
  - destruct (filter _ m) as [|e rest] eqn:F; [discriminate|]. intros _.
    assert (Hin : In e (filter (fun e => negb (existsb (String.eqb e) c)) m))
      by (rewrite F; now left).
    apply filter_In in Hin as [H1 H2]. exists e. split; [exact H1|].
    intros Hc. apply negb_true_iff in H2.
    assert (existsb (String.eqb e) c = true)
      by (apply existsb_exists; exists e; split; [exact Hc | apply String.eqb_refl]).
    congruence.
  - intros (e & H1 & H2).
    assert (Hin : In e (filter (fun e => negb (existsb (String.eqb e) c)) m)).
    { apply filter_In. split; [exact H1|]. apply negb_true_iff.
      destruct (existsb (String.eqb e) c) eqn:Ex; [|reflexivity].
      apply existsb_exists in Ex as (y & Hy & Heq).
      apply String.eqb_eq in Heq as <-. contradiction. }
    destruct (filter _ m); [destruct Hin | reflexivity].
Qed.

(** X12.  For distinct serials, [validate_and_create_required_entities] returns
    [False] exactly when the creation of some serial's settings entity
    failed, which is when the line [Failed to create required entity] was
    printed for it; an entity that was found, or that could be created,
    never makes the validation fail. *)
Theorem validation_fails_iff serials path s b :
  NoDup serials ->
  value (validate_and_create_required_entities env serials path s) = Ok b ->
  (b = false <->
   exists serial,
     In serial serials
     /\ In (Print (failed_to_create serial))
           (events (validate_and_create_required_entities env serials path s))).
Proof.
  intros Hnd. unfold validate_and_create_required_entities.
  rewrite bind_run. cbn [print emit value events final].
  rewrite value_after. setoid_rewrite events_after. rewrite bind_run.
  destruct (value (for_fold (validate_entity env path) serials ([], []) s))
    as [[m c]|?|?] eqn:E; try discriminate.
  rewrite value_after. setoid_rewrite events_after. cbn [fst snd].
  rewrite report_results_value. intros [= <-].
  destruct (validate_loop _ _ _ _ _ _ E) as (dm & dc & -> & -> & I1 & I2 & I3).
  cbn [fst snd app] in *.
  set (ev := events (for_fold (validate_entity env path) serials ([], []) s)) in *.
  pose proof (other_report_results dm dc
                (final (for_fold (validate_entity env path) serials ([], []) s)))
    as Hr.
  rewrite negb_false_iff, failed_entities_nonempty. split.
  - intros (e & He & Hn). destruct (I1 e He) as (x & Hx & -> & [H|H]);
      [contradiction|].
    exists x. split; [exact Hx|]. right. apply in_or_app. left. exact H.
  - intros (x & Hx & [H|H]); [discriminate H|].
    apply in_app_or in H as [H|H].
    + exists (settings_entity x). split; [exact (proj2 (I2 x H))|].
      intros Hc. destruct (I3 Hnd _ Hc) as (y & Hy & Heq & Hn).
      apply settings_entity_inj in Heq as <-. exact (Hn H).
    + destruct (others_never_fail _ x Hr H).
Qed.

End Validation.

Section AllPresent.

Context {X : Type} (env : Env X).

Variables (config_path : string) (settings https ip port token : json).

Hypothesis loaded : forall s, fst (open_json env config_path s) = Returns settings.
Hypothesis has_https : py_getitem settings "Enable_HTTPS" = Returns https.
Hypothesis has_ip : py_getitem settings "Home_Assistant_IP" = Returns ip.
Hypothesis has_port : py_getitem settings "Home_Assistant_PORT" = Returns port.
Hypothesis has_token : py_getitem settings "HA_LongLiveToken" = Returns token.

Definition state_request (serial : string) : request :=
  entity_request (ha_base_url https ip port) (ha_headers token)
                 (settings_entity serial).

(** The entity of [serial] answers the state request with status 200,
    whenever it is asked. *)
Definition present (serial : string) : Prop :=
  forall s, exists r,
    fst (requests_get env (state_request serial) s) = Returns r
    /\ status_code r = 200%Z.

(** What a round of the loop shows for an entity that exists. *)
Definition entity_found (serial : string) : list event :=
  [Print [Lit "Checking entity: "; Val (JStr (settings_entity serial))];
   OpenFile config_path;
   HttpGet (state_request serial);
   Print [Col OKGREEN; Lit "Entity "; Val (JStr (settings_entity serial));
          Lit " exists"; Col ENDC]].

Lemma check_found serial s :
  present serial ->
  exists s',
    check_entity_exists env (settings_entity serial) config_path s
    = mkOut [OpenFile config_path; HttpGet (state_request serial)] s' (Ok true).
Proof.
  intros Hp.
  destruct (open_json env config_path s) as [a s1] eqn:Hload.
  pose proof (loaded s) as Ha. rewrite Hload in Ha. cbn [fst] in Ha. subst a.
  destruct (Hp s1) as (r & Hr & H200).
  exists (snd (requests_get env (state_request serial) s1)).
  unfold check_entity_exists. rewrite try_except_run.
  rewrite (check_entity_exists_try env (settings_entity serial) config_path s
             settings s1 https ip port token _
             Hload has_https has_ip has_port has_token).
  cbv zeta. fold (state_request serial). rewrite Hr, H200.
  reflexivity.
Qed.

Lemma validate_found serial lists s :
  present serial ->
  exists s',
    validate_entity env config_path lists serial s
    = mkOut (entity_found serial) s' (Ok lists).
Proof.
  intros Hp. destruct (check_found serial s Hp) as (s' & Hc).
  exists s'. unfold validate_entity, bind at 1.
  cbn [print emit]. rewrite (bind_ok _ _ _ _ _ _ _ _ Hc). reflexivity.
Qed.

Lemma validate_all_found serials :
  Forall present serials ->
  forall lists s, exists s',
    for_fold (validate_entity env config_path) serials lists s
    = mkOut (flat_map entity_found serials) s' (Ok lists).
Proof.
  induction 1 as [|serial l Hp _ IH]; intros lists s.
  - exists s. reflexivity.
  - destruct (validate_found serial lists s Hp) as (s1 & H1).
    destruct (IH lists s1) as (s2 & H2). exists s2.
    cbn [for_fold flat_map]. rewrite (bind_ok _ _ _ _ _ _ _ _ H1), H2.
    reflexivity.
Qed.

(** X13.  When the settings entity of every serial exists,
    [validate_and_create_required_entities] returns [True] after one state
    request per serial, in the order of the list, and creates nothing:
    the trace holds no POST, and no line besides the check and its result
    for each serial between the opening line and the two closing ones.
    This holds for the empty list as well. *)
Theorem validation_all_present serials s :
  Forall present serials ->
  value (validate_and_create_required_entities env serials config_path s) = Ok true
  /\ events (validate_and_create_required_entities env serials config_path s)
     = [Print [Col OKBLUE;
               Lit "=== Validating Required Home Assistant Entities ===";
               Col ENDC]]
       ++ flat_map entity_found serials
       ++ [Print [Col OKGREEN; Lit "All required entities exist"; Col ENDC];
           Print [Col OKBLUE; Lit "=== Entity Validation Complete ===";
                  Col ENDC]]
  /\ http_requests
       (events (validate_and_create_required_entities env serials config_path s))
     = map (fun serial => HttpGet (state_request serial)) serials.
Proof.
  intros Hall.
  destruct (validate_all_found serials Hall ([], []) s) as (s' & Hloop).
  assert (Hrun : validate_and_create_required_entities env serials config_path s
                 = mkOut ([Print [Col OKBLUE;
                            Lit "=== Validating Required Home Assistant Entities ===";
                            Col ENDC]]
                          ++ flat_map entity_found serials
                          ++ [Print [Col OKGREEN;
                                     Lit "All required entities exist"; Col ENDC];
                              Print [Col OKBLUE;
                                     Lit "=== Entity Validation Complete ===";
                                     Col ENDC]])
                         s' (Ok true)).
  { unfold validate_and_create_required_entities, bind at 1. cbn [print emit].
    rewrite (bind_ok _ _ _ _ _ _ _ _ Hloop). reflexivity. }
  rewrite Hrun. cbn [value events]. repeat split.
  rewrite !http_requests_app. cbn [http_requests filter app]. rewrite app_nil_r.
  clear. induction serials as [|x l IH]; [reflexivity|].
  cbn [flat_map map]. rewrite http_requests_app, IH. reflexivity.
Qed.

End AllPresent.

(** ** The order of events in [execute_api_calls] *)

(** [a] occurs in the trace, and [b] occurs later. *)
Definition before (a b : event) (tr : list event) : Prop :=
  exists l1 l2 l3, tr = l1 ++ a :: l2 ++ b :: l3.

Lemma before_app a b tr evs : before a b tr -> before a b (tr ++ evs).
Proof.
  intros (l1 & l2 & l3 & ->). exists l1, l2, (l3 ++ evs).
  now rewrite <- app_assoc, <- app_comm_cons, <- app_assoc, <- app_comm_cons.
Qed.

Lemma before_snoc a b tr : In a tr -> before a b (tr ++ [b]).
Proof.
  intros H. apply in_split in H as (l1 & l2 & ->). exists l1, l2, [].
  now rewrite <- app_assoc, <- app_comm_cons.
Qed.

Lemma every_function_registered f : exists d, In (f, d) api_calls.
Proof. destruct f; eexists; cbn; tauto. Qed.

Section Order.

Context {X : Type} (env : Env X) (bearer_token : json) (serial_item : string).

Definition call_of_fn (f : api_fn) : event :=
  Call (Api f) [bearer_token; JStr serial_item].

Record order_inv (p : pool (X:=X)) : Prop := {
  ord_started :
    forall t, In t (threads p) -> In (ThreadStart (th_fn t)) (trace p);
  ord_called :
    forall t, In t (threads p) -> called t = true ->
              In (call_of_fn (th_fn t)) (trace p);
  ord_call :
    forall f, In (call_of_fn f) (trace p) ->
              before (ThreadStart f) (call_of_fn f) (trace p);
  ord_join :
    forall f, In (ThreadJoin f) (trace p) ->
              before (call_of_fn f) (ThreadJoin f) (trace p)
}.

Lemma order_inv_init s : order_inv (init_pool s).
Proof. constructor; cbn; intros; contradiction. Qed.

Lemma main_step_order p : order_inv p -> order_inv (main_step p).
Proof.
  intros I. unfold main_step.
  destruct (finished p); [exact I|].
  destruct (pending p) as [|[f d] rest].
  - destruct (nth_error (threads p) (joined p)) as [t|] eqn:N.
    + destruct (terminated (th_pc t)) eqn:T; [|exact I].
      assert (Hc : called t = true)
        by (unfold called; destruct (th_pc t); now try discriminate).
      constructor; cbn [threads trace].
      * intros t' H. apply in_or_app. left. now apply I.
      * intros t' H H'. apply in_or_app. left. now apply I.
      * intros g H. apply in_app_or in H as [H|[H|[]]]; [|discriminate H].
        apply before_app. now apply I.
      * intros g H. apply in_app_or in H as [H|[H|[]]].
        -- apply before_app. now apply I.
        -- injection H as <-. apply before_snoc.
           apply (ord_called p I t); [eapply nth_error_In, N | exact Hc].
    + constructor; cbn [threads trace events print_colored print emit app].
      * intros t' H. apply in_or_app. left. now apply I.
      * intros t' H H'. apply in_or_app. left. now apply I.
      * intros g H. apply in_app_or in H as [H|[H|[]]]; [|discriminate H].
        apply before_app. now apply I.
      * intros g H. apply in_app_or in H as [H|[H|[]]]; [|discriminate H].
        apply before_app. now apply I.
  - constructor; cbn [threads trace].
    + intros t' H. apply in_or_app. apply in_app_or in H as [H|[<-|[]]].
      * left. now apply I.
      * right. now left.
    + intros t' H H'. apply in_or_app. left.
      apply in_app_or in H as [H|[<-|[]]]; [now apply I | discriminate H'].
    + intros g H. apply in_app_or in H as [H|[H|[]]]; [|discriminate H].
      apply before_app. now apply I.
    + intros g H. apply in_app_or in H as [H|[H|[]]]; [|discriminate H].
      apply before_app. now apply I.
Qed.

(** What one statement of [fetch_data] adds to the trace: the call, when
    the thread is at its call, and otherwise lines of the console and of
    the log. *)
Lemma fetch_data_step_adds f d pc s :
  let '(evs, _, pc') := fetch_data_step env f bearer_token serial_item d pc s in
  (forall g, ~ In (ThreadJoin g) evs)
  /\ (forall g, In (call_of_fn g) evs -> pc = AtCall /\ g = f)
  /\ (pc = AtCall -> evs = [call_of_fn f])
  /\ (pc <> AtCall -> called (mkThread f d pc') = called (mkThread f d pc)).
Proof.
  unfold call_of_fn.
  destruct pc; cbn; (split; [|split; [|split]]);
    try (intros g H; destruct H as [H|H]; [discriminate H | destruct H]);
    try (intros g H; solve [destruct H]);
    try (intros E; first [reflexivity | discriminate E | now contradiction E]).
  intros g [H|[]]. injection H as ->. now split.
Qed.

Lemma thread_step_order i p :
  order_inv p -> order_inv (thread_step env bearer_token serial_item i p).
Proof.
  intros I. unfold thread_step.
  destruct (nth_error (threads p) i) as [t|] eqn:N; [|exact I].
  destruct (terminated (th_pc t)) eqn:T; [exact I|].
  pose proof (fetch_data_step_adds (th_fn t) (th_desc t) (th_pc t) (heap p)) as Hev.
  destruct (fetch_data_step env (th_fn t) bearer_token serial_item (th_desc t)
              (th_pc t) (heap p)) as [[evs s'] pc'].
  destruct Hev as (Hjo & Hca & Hcall & Hsame).
  destruct (update_split _ _ _ (mkThread (th_fn t) (th_desc t) pc') N)
    as (l1 & l2 & Hl & Hlen & Hup).
  assert (Hin : In t (threads p)) by (eapply nth_error_In, N).
  assert (Hold : forall t', In t' (l1 ++ mkThread (th_fn t) (th_desc t) pc' :: l2) ->
                   t' = mkThread (th_fn t) (th_desc t) pc' \/ In t' (threads p)).
  { intros t' H. rewrite Hl. apply in_app_or in H as [H|[H|H]].
    - right. apply in_or_app. now left.
    - left. now symmetry.
    - right. apply in_or_app. right. now right. }
  constructor; cbn [threads trace]; rewrite ?Hup.
  - intros t' H. apply in_or_app. left.
    destruct (Hold t' H) as [->|H']; [|now apply I].
    cbn [th_fn]. now apply I.
  - intros t' H Hc. apply in_or_app.
    destruct (Hold t' H) as [->|H']; [|left; now apply I].
    cbn [th_fn]. destruct (th_pc t) eqn:Epc.
    + left. apply (ord_called p I t Hin).
      rewrite Hsame in Hc by discriminate.
      unfold called in *. cbn [th_pc] in *. now rewrite Epc.
    + right. rewrite (Hcall eq_refl). now left.
    + left. apply (ord_called p I t Hin). unfold called. now rewrite Epc.
    + left. apply (ord_called p I t Hin). unfold called. now rewrite Epc.
    + left. apply (ord_called p I t Hin). unfold called. now rewrite Epc.
    + discriminate T.
  - intros g H. apply in_app_or in H as [H|H].
    + apply before_app. now apply I.
    + destruct (Hca g H) as [Hpc ->]. rewrite (Hcall Hpc).
      apply before_snoc. now apply I.
  - intros g H. apply in_app_or in H as [H|H]; [|destruct (Hjo g H)].
    apply before_app. now apply I.
Qed.

Lemma api_pool_order s : order_inv (api_pool env bearer_token serial_item s).
Proof.
  apply api_pool_rule;
    [apply order_inv_init | apply main_step_order | apply thread_step_order].
Qed.

Lemma in_joins f tr : In f (joins tr) -> In (ThreadJoin f) tr.
Proof.
  unfold joins. intros H. apply in_flat_map in H as (ev & Hev & H).
  destruct ev; try contradiction. destruct H as [<-|[]]. exact Hev.
Qed.

(** X14.  Whatever the scheduler does, each of the telemetry functions is
    called only after its thread has been started, its thread is joined
    only after the call has been made, and [execute_api_calls] announces
    that all calls are completed only after it has joined the thread. *)
Theorem threads_run_in_order s f :
  let tr := events (execute_api_calls env bearer_token serial_item s) in
  before (ThreadStart f) (call_of_fn f) tr
  /\ before (call_of_fn f) (ThreadJoin f) tr
  /\ before (ThreadJoin f) completed_message tr.
Proof.
  cbv zeta. destruct (every_function_registered f) as [d Hd].
  pose proof (api_calls_made env bearer_token serial_item s f d Hd) as Hcall.
  cbn [execute_api_calls events] in *.
  set (p := api_pool env bearer_token serial_item s) in *.
  pose proof (api_pool_order s) as O. fold p in O.
  pose proof (api_pool_inv env bearer_token serial_item s) as I. fold p in I.
  pose proof (api_pool_finished env bearer_token serial_item s) as F. fold p in F.
  assert (Hjoin : In (ThreadJoin f) (trace p)).
  { apply in_joins. rewrite (inv_joins _ _ p I).
    destruct (inv_finished _ _ p I F) as [P J]. rewrite J, firstn_all.
    pose proof (inv_registry _ _ p I) as G. rewrite P, app_nil_r in G.
    rewrite (threads_at_end _ _ G (finished_all_returned _ _ p I F)).
    rewrite map_map. cbn [th_fn].
    apply in_map_iff. exists (f, d). split; [reflexivity | exact Hd]. }
  split; [exact (ord_call p O f Hcall)|].
  split; [exact (ord_join p O f Hjoin)|].
  destruct (inv_last _ _ p I F) as [evs Hevs]. rewrite Hevs in *.
  apply before_snoc. apply in_app_or in Hjoin as [H|[H|[]]]; [exact H|].
  discriminate H.
Qed.

End Order.

(** ** The log of [execute_api_calls], whatever fails *)

Section Failures.

Context {X : Type} (env : Env X) (bearer_token : json) (serial_item : string).

(** How each telemetry function ends for this token and serial. *)
Variable outcome_of : api_fn -> reply unit.

Hypothesis steady :
  forall f s, fst (getapi env f bearer_token serial_item s) = outcome_of f.

(** The line a function's failure leaves in the log. *)
Definition error_line (f : api_fn) (description : string) : list fstring :=
  match outcome_of f with
  | Raises e => [error_fetching description e]
  | Returns _ => []
  end.

(** What the thread has written to the log so far. *)
Definition written (t : thread) : list fstring :=
  match th_pc t with
  | AtPrintError _ | AtTraceback _ | Returned => error_line (th_fn t) (th_desc t)
  | _ => []
  end.

Definition handles (t : thread) : Prop :=
  match th_pc t with
  | AtLogError e | AtPrintError e | AtTraceback e => outcome_of (th_fn t) = Raises e
  | _ => True
  end.

Definition errors_inv (p : pool (X:=X)) : Prop :=
  Forall handles (threads p)
  /\ Permutation (logged_errors (trace p)) (flat_map written (threads p)).

Lemma errors_inv_init s : errors_inv (init_pool s).
Proof. split; constructor. Qed.

Lemma main_step_errors p : errors_inv p -> errors_inv (main_step p).
Proof.
  intros [H L]. unfold main_step.
  destruct (finished p); [now split|].
  destruct (pending p) as [|[f d] rest].
  - destruct (nth_error (threads p) (joined p)) as [t|].
    + destruct (terminated (th_pc t)); [|now split].
      split; cbn [threads trace]; [exact H|].
      rewrite logged_errors_app. cbn. now rewrite app_nil_r.
    + split; cbn [threads trace]; [exact H|].
      rewrite logged_errors_app. cbn. now rewrite app_nil_r.
  - split; cbn [threads trace].
    + apply Forall_app. split; [exact H|]. repeat constructor.
    + rewrite logged_errors_app, flat_map_app. cbn. now rewrite !app_nil_r.
Qed.

Lemma thread_step_errors i p :
  errors_inv p -> errors_inv (thread_step env bearer_token serial_item i p).
Proof.
  intros [H L]. unfold thread_step.
  destruct (nth_error (threads p) i) as [t|] eqn:N; [|now split].
  destruct (terminated (th_pc t)) eqn:T; [now split|].
  destruct (update_split _ _ _
              (mkThread (th_fn t) (th_desc t)
                 (snd (fetch_data_step env (th_fn t) bearer_token serial_item
                         (th_desc t) (th_pc t) (heap p)))) N)
    as (l1 & l2 & Hl & Hlen & Hup).
  destruct (fetch_data_step _ _ _ _ _ _ _) as [[evs s'] pc'] eqn:F.
  cbn [snd] in Hup. cbn [threads trace]. rewrite Hup.
  rewrite Hl in H, L. apply Forall_app in H. destruct H as [H1 H2].
  inversion H2 as [|? ? Ht H3]; subst.
  rewrite flat_map_app in *. cbn [flat_map] in *.
  unfold handles in Ht.
  destruct t as [f d pc]. cbn [th_fn th_desc th_pc] in *.
  destruct pc; cbn in F; injection F as <- <- <-; try discriminate.
  - (* AtPrint *)
    split; cbn [threads trace].
    + apply Forall_app. split; [exact H1|]. now constructor.
    + rewrite logged_errors_app, flat_map_app. cbn. rewrite app_nil_r. exact L.
  - (* AtCall *)
    rewrite steady.
    split; cbn [threads trace].
    + apply Forall_app. split; [exact H1|]. constructor; [|exact H3].
      unfold handles. cbn. now destruct (outcome_of f).
    + rewrite logged_errors_app, flat_map_app. cbn. rewrite app_nil_r.
      unfold written, error_line in *. cbn in *.
      destruct (outcome_of f); exact L.
  - (* AtLogError *)
    split; cbn [threads trace].
    + apply Forall_app. split; [exact H1|]. now constructor.
    + rewrite logged_errors_app, flat_map_app. cbn.
      unfold written at 2, error_line. cbn. rewrite Ht.
      unfold written at 2 in L. cbn in L.
      rewrite Permutation_app_comm. cbn.
      now apply Permutation_cons_app.
  - (* AtPrintError *)
    split; cbn [threads trace].
    + apply Forall_app. split; [exact H1|]. now constructor.
    + rewrite logged_errors_app, flat_map_app. cbn. rewrite app_nil_r. exact L.
  - (* AtTraceback *)
    split; cbn [threads trace].
    + apply Forall_app. split; [exact H1|]. now constructor.
    + rewrite logged_errors_app, flat_map_app. cbn. rewrite app_nil_r. exact L.
Qed.

(** X15.  When each telemetry function ends the same way whenever it is called,
    the log of [execute_api_calls] holds, in some order, one error line
    for every function that raises, with the function's label and its
    error, and nothing else: no line for a function that returns, and an
    empty log when all return. *)
Theorem one_log_line_per_failure s :
  Permutation
    (logged_errors (events (execute_api_calls env bearer_token serial_item s)))
    (flat_map (fun fd => error_line (fst fd) (snd fd)) api_calls).
Proof.
  cbn [execute_api_calls events].
  set (p := api_pool env bearer_token serial_item s).
  assert (E : errors_inv p).
  { apply api_pool_rule;
      [apply errors_inv_init | apply main_step_errors | apply thread_step_errors]. }
  pose proof (api_pool_inv env bearer_token serial_item s) as I. fold p in I.
  pose proof (api_pool_finished env bearer_token serial_item s) as F. fold p in F.
  destruct (inv_finished _ _ p I F) as [P _].
  pose proof (inv_registry _ _ p I) as G. rewrite P, app_nil_r in G.
  pose proof (threads_at_end _ _ G (finished_all_returned _ _ p I F)) as T.
  destruct E as [_ L]. rewrite T in L.
  rewrite flat_map_concat_map, map_map, <- flat_map_concat_map in L.
  exact L.
Qed.

End Failures.

(** ** A run whose settings lack the refresh rate *)

Section NoRefreshRate.

Context {X : Type} (env : Env X).

Variable json_settings : json.

Definition getting (serial_item : string) (current_date : Z) : event :=
  Print [Col OKCYAN; Lit "Getting "; Val (JStr serial_item); Lit " @ ";
         Date current_date; Col ENDC].

Lemma process_inverter_without_refresh_rate bearer_token serial_item
  current_date s e :
  py_getitem json_settings "Refresh_rate" = Raises e ->
  process_inverter env json_settings bearer_token serial_item current_date s
  = mkOut [getting serial_item current_date] s (Raise e).
Proof.
  intros H. unfold process_inverter.
  unfold bind at 1. cbn [print_colored print emit app].
  unfold bind at 1, lift. rewrite H. reflexivity.
Qed.

Definition not_the_closing_line (ev : event) : Prop := ev <> script_completed.

Lemma gettoken_not_closing : emits not_the_closing_line (gettoken env).
Proof.
  unfold not_the_closing_line, gettoken. apply emits_bind.
  - unfold load_settings. apply emits_try_except.
    + apply emits_call_ext. discriminate.
    + intros e k [= <-]. unfold logging_error, print. by_parts; discriminate.
  - intros js. apply emits_try_except.
    + unfold gettoken_try, _get_public_key, _encrypt_password, _authenticate,
        raise_for_status, print_colored, print.
      by_parts; discriminate.
    + intros e k. unfold gettoken_except, print_colored, print.
      destruct (is_Timeout e); [|destruct (is_RequestException e);
                                  [|destruct (is_JSONDecodeError e)]];
        intros [= <-]; by_parts; discriminate.
Qed.

Lemma get_bearer_token_not_closing :
  emits not_the_closing_line (get_bearer_token env).
Proof.
  unfold get_bearer_token. apply emits_try_except.
  - apply emits_bind; [apply gettoken_not_closing|]. intros tok.
    unfold not_the_closing_line, print. by_parts; discriminate.
  - intros e k [= <-].
    unfold not_the_closing_line, logging_error, print_colored, print.
    by_parts; discriminate.
Qed.

(** X16.  [Refresh_rate] is read by subscript for every inverter and nowhere
    checked: when the settings lack it, a run that got a token announces
    the first inverter and ends there with the [KeyError].  No cache is
    cleaned, no connection is tested, no telemetry is fetched, and the
    closing message is not printed. *)
Theorem run_without_refresh_rate s api_server e bearer_token serial_item rest :
  py_getitem json_settings "API_Server" = Returns api_server ->
  py_getitem json_settings "Refresh_rate" = Raises e ->
  value (gettoken env s) = Ok bearer_token ->
  py_truthy bearer_token = true ->
  let o := main env json_settings (serial_item :: rest) s in
  value o = Raise e
  /\ Forall no_device_work (events o)
  /\ (exists evs, events o = evs ++ [getting serial_item (datetime_now env s)])
  /\ ~ In script_completed (events o).
Proof.
  intros Hapi Hrr Htok Htruthy o.
  pose proof (emits_get_bearer_token env s) as Hquiet.
  pose proof (get_bearer_token_value env s bearer_token Htok) as Hgot.
  assert (Hsilent : ~ In script_completed (events (get_bearer_token env s))).
  { intros H. pose proof (get_bearer_token_not_closing s) as Hn.
    rewrite Forall_forall in Hn. exact (Hn _ H eq_refl). }
  subst o. unfold main.
  rewrite bind_run. cbn [read value events final].
  rewrite bind_run. cbn [print emit value events final].
  rewrite bind_run. cbn [print_colored print emit value events final].
  rewrite bind_run, Hapi. cbn [lift of_reply value events final].
  rewrite bind_run. cbn [print emit value events final].
  rewrite bind_run. cbn [print emit value events final].
  rewrite bind_run. cbn [print emit value events final].
  rewrite bind_run, Hgot. rewrite Htruthy.
  rewrite bind_run. cbn [for_each].
  rewrite bind_run, (process_inverter_without_refresh_rate _ _ _ _ e Hrr).
  cbn [value events final].
  rewrite !value_after, !events_after. cbn [value events app].
  split; [reflexivity|]. split; [|split].
  - repeat (constructor; [exact (fun H => H)|]).
    apply Forall_app. split; [exact Hquiet|].
    repeat constructor. exact (fun H => H).
  - eexists (_ :: _ :: _ :: _ :: _ :: events (get_bearer_token env s)).
    reflexivity.
  - intros H. repeat (destruct H as [H|H]; [discriminate H|]).
    apply in_app_or in H as [H|[H|[]]]; [exact (Hsilent H) | discriminate H].
Qed.

End NoRefreshRate.

(** ** The inverters a run announces *)

(** The serial and the date of a line [Getting {serial} @ {date}]. *)
Definition announcement (ev : event) : option (string * Z) :=
  match ev with
  | Print [Col OKCYAN; Lit l1; Val (JStr x); Lit l2; Date d; Col ENDC] =>
      if ((l1 =? "Getting ") && (l2 =? " @ "))%string then Some (x, d) else None
  | _ => None
  end.

Definition announced (tr : list event) : list (string * Z) :=
  flat_map (fun ev => match announcement ev with
                      | Some a => [a]
                      | None => []
                      end) tr.

Definition silent (ev : event) : Prop := announcement ev = None.

Lemma announced_app a b : announced (a ++ b) = announced a ++ announced b.
Proof. apply flat_map_app. Qed.

Lemma silent_announced tr : Forall silent tr -> announced tr = [].
Proof.
  induction 1 as [|ev tr H _ IH]; [reflexivity|].
  unfold announced in *. cbn [flat_map]. unfold silent in H. now rewrite H, IH.
Qed.

Lemma announced_cons ev tr :
  announced (ev :: tr)
  = match announcement ev with Some a => [a] | None => [] end ++ announced tr.
Proof. reflexivity. Qed.

Ltac silence :=
  repeat first
    [ apply emits_bind; [|intros]
    | apply emits_if
    | apply emits_ret
    | apply emits_raise
    | apply emits_lift
    | apply emits_read
    | apply emits_emit; reflexivity
    | apply emits_call_ext; reflexivity
    | match goal with
      | |- emits _ (match ?x with _ => _ end) => destruct x
      end ].

Section Announcements.

Context {X : Type} (env : Env X).

Lemma announced_bind A B (m : M X A) (f : A -> M X B) s :
  emits silent m ->
  announced (events (bind m f s))
  = match value (m s) with
    | Ok a => announced (events (f a (final (m s))))
    | _ => []
    end.
Proof.
  intros H. rewrite events_bind, announced_app, (silent_announced _ (H s)).
  destruct (value (m s)); reflexivity.
Qed.

Lemma silent_gettoken : emits silent (gettoken env).
Proof.
  unfold gettoken. apply emits_bind.
  - unfold load_settings, logging_error, print. apply emits_try_except; [silence|].
    intros e k [= <-]. unfold sys_exit. silence. intros s. constructor.
  - intros js. apply emits_try_except.
    + unfold gettoken_try, _get_public_key, _encrypt_password, _authenticate,
        raise_for_status, print_colored, print.
      silence.
    + intros e k. unfold gettoken_except, print_colored, print.
      destruct (is_Timeout e); [|destruct (is_RequestException e);
                                  [|destruct (is_JSONDecodeError e)]];
        intros [= <-]; silence.
Qed.

Lemma silent_get_bearer_token : emits silent (get_bearer_token env).
Proof.
  unfold get_bearer_token, logging_error, print_colored, print.
  apply emits_try_except.
  - apply emits_bind; [apply silent_gettoken|]. intros tok. silence.
  - intros e k [= <-]. silence.
Qed.

Lemma silent_execute_api_calls bearer_token serial_item :
  emits silent (execute_api_calls env bearer_token serial_item).
Proof.
  intros s. cbn [execute_api_calls events].
  apply (api_pool_rule env bearer_token serial_item
           (fun p => Forall silent (trace p))).
  - constructor.
  - intros q H. unfold main_step.
    destruct (finished q); [exact H|].
    destruct (pending q) as [|[f d] rest].
    + destruct (nth_error (threads q) (joined q)) as [t|].
      * destruct (terminated (th_pc t)); [|exact H].
        cbn [trace]. apply Forall_app. split; [exact H|]. now repeat constructor.
      * cbn [trace]. apply Forall_app. split; [exact H|]. now repeat constructor.
    + cbn [trace]. apply Forall_app. split; [exact H|]. now repeat constructor.
  - intros i q H. unfold thread_step.
    destruct (nth_error (threads q) i) as [t|]; [|exact H].
    destruct (terminated (th_pc t)); [exact H|].
    destruct (fetch_data_step env (th_fn t) bearer_token serial_item (th_desc t)
                (th_pc t) (heap q)) as [[evs s'] pc'] eqn:F.
    cbn [trace]. apply Forall_app. split; [exact H|].
    destruct (th_pc t); cbn in F; injection F as <- <- <-;
      now repeat constructor.
Qed.

Lemma silent_test_and_run bearer_token serial_item :
  emits silent (test_and_run env bearer_token serial_item).
Proof.
  unfold test_and_run, execute_settings_management, print_colored, print.
  apply emits_bind; [silence|intros _].
  apply emits_bind; [silence|intros r].
  apply emits_bind; [|intros _; silence].
  apply emits_if; [|silence].
  apply emits_bind; [silence|intros _].
  apply emits_bind; [apply silent_execute_api_calls|intros _].
  silence.
Qed.

Variable json_settings : json.

Lemma process_inverter_announces bearer_token serial_item current_date s :
  announced (events (process_inverter env json_settings bearer_token serial_item
                       current_date s))
  = [(serial_item, current_date)].
Proof.
  unfold process_inverter.
  rewrite events_bind. cbn [print_colored print emit app events value final].
  rewrite announced_cons.
  change (announcement (Print [Col OKCYAN; Lit "Getting "; Val (JStr serial_item);
                               Lit " @ "; Date current_date; Col ENDC]))
    with (Some (serial_item, current_date)).
  rewrite silent_announced; [reflexivity|].
  revert s. change (emits silent
    (refresh_rate <- lift (py_getitem json_settings "Refresh_rate") ;;
     print [Lit "Script refresh rate set to: "; Col OKCYAN; Val refresh_rate;
            Col ENDC; Lit " milliseconds"] ;;
     clean_cache env ;;
     test_and_run env bearer_token serial_item)).
  apply emits_bind; [silence|intros rr].
  apply emits_bind; [unfold print; silence|intros _].
  apply emits_bind; [|intros _; apply silent_test_and_run].
  unfold clean_cache, settings_file_exists, remove_settings_file, print.
  apply emits_bind; [silence|intros _].
  apply emits_bind; [silence|intros there].
  apply emits_if; [|silence].
  apply emits_bind; [|intros _; silence].
  intros s. destruct (os_remove_error env "settings.json" s);
    now repeat constructor.
Qed.

Lemma loop_announces bearer_token current_date l :
  forall s,
    let o := for_each (fun x => process_inverter env json_settings bearer_token x
                                  current_date) l s in
    (exists n, announced (events o) = map (fun x => (x, current_date)) (firstn n l))
    /\ (value o = Ok tt ->
        announced (events o) = map (fun x => (x, current_date)) l).
Proof.
  induction l as [|x l IH]; intros s; cbv zeta.
  - split; [exists 0|]; reflexivity.
  - cbn [for_each]. rewrite events_bind, value_bind, announced_app,
      process_inverter_announces.
    destruct (value (process_inverter env json_settings bearer_token x
                       current_date s)) as [[]|e|c].
    + destruct (IH (final (process_inverter env json_settings bearer_token x
                             current_date s))) as [[n Hn] Hall].
      split.
      * exists (S n). cbn [firstn map app]. now rewrite Hn.
      * intros Hv. cbn [map app]. now rewrite (Hall Hv).
    + split; [exists 1; reflexivity | discriminate].
    + split; [exists 1; reflexivity | discriminate].
Qed.

(** X17.  Whatever fails, a run announces the inverters in the order of the
    list, none twice and none skipped, up to the one where it ended, and
    each with the date taken when the run began; a run that got a token
    and returned has announced every inverter of the list. *)
Theorem inverters_announced_in_order inverter_serials s :
  let o := main env json_settings inverter_serials s in
  let started := datetime_now env s in
  (exists n,
      announced (events o)
      = map (fun x => (x, started)) (firstn n inverter_serials))
  /\ (forall bearer_token,
        value (gettoken env s) = Ok bearer_token ->
        py_truthy bearer_token = true ->
        value o = Ok tt ->
        announced (events o) = map (fun x => (x, started)) inverter_serials).
Proof.
  cbv zeta. unfold main.
  rewrite announced_bind by silence. cbn [read value final].
  rewrite value_bind. cbn [read value final].
  rewrite announced_bind by (unfold print; silence). cbn [print emit value final].
  rewrite value_bind. cbn [print emit value final].
  rewrite announced_bind by (unfold print_colored, print; silence).
  cbn [print_colored print emit value final].
  rewrite value_bind. cbn [print_colored print emit value final].
  rewrite announced_bind by silence. rewrite value_bind.
  destruct (py_getitem json_settings "API_Server") as [api_server|e];
    cbn [lift of_reply value final];
    [|split; [exists 0; reflexivity | discriminate]].
  rewrite announced_bind by (unfold print; silence). cbn [print emit value final].
  rewrite value_bind. cbn [print emit value final].
  rewrite announced_bind by (unfold print; silence). cbn [print emit value final].
  rewrite value_bind. cbn [print emit value final].
  rewrite announced_bind by (unfold print; silence). cbn [print emit value final].
  rewrite value_bind. cbn [print emit value final].
  rewrite announced_bind by apply silent_get_bearer_token.
  rewrite value_bind.
  destruct (value (get_bearer_token env s)) as [[tok|]|e|c] eqn:Hg;
    try (split; [exists 0; reflexivity|];
         intros tok' Htok; rewrite (get_bearer_token_value env s tok' Htok) in Hg;
         discriminate Hg).
  rewrite events_bind, value_bind, announced_app.
  assert (Hsame : forall tok', value (gettoken env s) = Ok tok' -> tok' = tok).
  { intros tok' Htok. rewrite (get_bearer_token_value env s tok' Htok) in Hg.
    now injection Hg. }
  destruct (py_truthy tok) eqn:Ht.
  - destruct (loop_announces tok (datetime_now env s) inverter_serials
                (final (get_bearer_token env s))) as [[n Hn] Hall].
    cbv zeta in *.
    destruct (value (for_each _ inverter_serials _)) as [[]|e|c] eqn:Hv;
      rewrite app_nil_r.
    + split; [exists n; exact Hn|]. intros _ _ _ _. now apply Hall.
    + split; [exists n; exact Hn | discriminate].
    + split; [exists n; exact Hn | discriminate].
  - cbn [ret events value final print_colored print emit].
    split; [exists 0; reflexivity|].
    intros tok' Htok Hb. rewrite (Hsame tok' Htok) in Hb. congruence.
Qed.

End Announcements.

(** ** What ends the run and what does not *)

(** The arguments of the connection tests of a trace, in order. *)
Definition test_calls (tr : list event) : list (list json) :=
  flat_map (fun ev => match ev with
                      | Call ConnectionTest args => [args]
                      | _ => []
                      end) tr.

(** An event that is no connection test. *)
Definition untested (ev : event) : Prop :=
  match ev with
  | Call ConnectionTest _ => False
  | _ => True
  end.

Lemma test_calls_app a b : test_calls (a ++ b) = test_calls a ++ test_calls b.
Proof. apply flat_map_app. Qed.

Lemma untested_test_calls tr : Forall untested tr -> test_calls tr = [].
Proof.
  induction 1 as [|ev tr H _ IH]; [reflexivity|].
  unfold test_calls in *. cbn [flat_map]. rewrite IH.
  destruct ev as [| | | | | | |[]| |]; try reflexivity. destruct H.
Qed.

Lemma quiet_untested tr : Forall no_device_work tr -> Forall untested tr.
Proof.
  apply Forall_impl. intros ev H. destruct ev as [| | | | | | |[]| |]; try exact I.
  apply H. exact I.
Qed.

Ltac no_test :=
  repeat first
    [ apply emits_bind; [|intros]
    | apply emits_if
    | apply emits_ret
    | apply emits_raise
    | apply emits_lift
    | apply emits_read
    | apply emits_emit; exact I
    | apply emits_call_ext; exact I
    | match goal with
      | |- emits _ (match ?x with _ => _ end) => destruct x
      end ].

Section WholeList.

Context {X : Type} (env : Env X).

Lemma untested_execute_api_calls bearer_token serial_item :
  emits untested (execute_api_calls env bearer_token serial_item).
Proof.
  intros s. cbn [execute_api_calls events].
  apply (api_pool_rule env bearer_token serial_item
           (fun p => Forall untested (trace p))).
  - constructor.
  - intros q H. unfold main_step.
    destruct (finished q); [exact H|].
    destruct (pending q) as [|[f d] rest].
    + destruct (nth_error (threads q) (joined q)) as [t|].
      * destruct (terminated (th_pc t)); [|exact H].
        cbn [trace]. apply Forall_app. split; [exact H|]. now repeat constructor.
      * cbn [trace]. apply Forall_app. split; [exact H|]. now repeat constructor.
    + cbn [trace]. apply Forall_app. split; [exact H|]. now repeat constructor.
  - intros i q H. unfold thread_step.
    destruct (nth_error (threads q) i) as [t|]; [|exact H].
    destruct (terminated (th_pc t)); [exact H|].
    destruct (fetch_data_step env (th_fn t) bearer_token serial_item (th_desc t)
                (th_pc t) (heap q)) as [[evs s'] pc'] eqn:F.
    cbn [trace]. apply Forall_app. split; [exact H|].
    destruct (th_pc t); cbn in F; injection F as <- <- <-;
      now repeat constructor.
Qed.

(** [test_and_run] makes one connection test, whatever comes of it. *)
Lemma test_and_run_tests bearer_token serial_item s :
  test_calls (events (test_and_run env bearer_token serial_item s))
  = [connection_test_args].
Proof.
  rewrite test_and_run_run. cbv zeta.
  destruct (fst (postapi_ConnectionTest env connection_test_args s)) as [r|e];
    [|reflexivity].
  destruct (py_eq_str r "Connection Success"); rewrite events_after, test_calls_app.
  - change (test_calls [testing; test_call; Print [Val r]])
      with [connection_test_args].
    rewrite untested_test_calls; [reflexivity|].
    generalize (snd (postapi_ConnectionTest env connection_test_args s)).
    change (emits untested
      (bind (bind (execute_api_calls env bearer_token serial_item)
                  (fun _ => execute_settings_management env bearer_token
                              serial_item))
            (fun _ => say_completion env))).
    unfold execute_settings_management, say_completion, print.
    apply emits_bind; [|intros _; no_test].
    apply emits_bind; [apply untested_execute_api_calls|intros _]. no_test.
  - reflexivity.
Qed.

Variable json_settings : json.

Lemma process_inverter_tests bearer_token serial_item current_date s refresh_rate :
  py_getitem json_settings "Refresh_rate" = Returns refresh_rate ->
  cleaning_error env s = None ->
  test_calls (events (process_inverter env json_settings bearer_token serial_item
                        current_date s))
  = [connection_test_args].
Proof.
  intros Hrr Hc.
  rewrite (process_inverter_run env json_settings _ _ _ _ _ Hrr Hc).
  rewrite events_after, !test_calls_app, test_and_run_tests.
  unfold greeting, cleaning.
  destruct (settings_json s); [destruct (os_remove_error env _ _)|]; reflexivity.
Qed.

Lemma loop_tests bearer_token current_date refresh_rate l :
  py_getitem json_settings "Refresh_rate" = Returns refresh_rate ->
  (forall s, os_remove_error env "settings.json" s = None) ->
  forall s,
    value (for_each (fun x => process_inverter env json_settings bearer_token x
                                current_date) l s) = Ok tt ->
    test_calls (events (for_each (fun x => process_inverter env json_settings
                                             bearer_token x current_date) l s))
    = map (fun _ => connection_test_args) l.
Proof.
  intros Hrr Hrm. induction l as [|x l IH]; intros s; [reflexivity|].
  cbn [for_each map]. rewrite events_bind, value_bind, test_calls_app.
  rewrite (process_inverter_tests _ _ _ _ _ Hrr)
    by (unfold cleaning_error; rewrite Hrm; now destruct (settings_json s)).
  destruct (value (process_inverter env json_settings bearer_token x
                     current_date s)) as [[]|e|c]; try discriminate.
  intros Hv. now rewrite (IH _ Hv).
Qed.

(** The lines with which [main] opens. *)
Definition opening (api_server : json) : list event :=
  [Print [Lit dashes];
   Print [Col MAGENTA; Lit "Running Script SolarSynkV3"; Col ENDC];
   Print [Lit "Using API Endpoint: "; Col MAGENTA; Val api_server; Col ENDC];
   Print [Lit "https://github.com/martinville/solarsynkv3"];
   Print [Lit dashes]].

(** [main] once it holds a token: the opening, the token block, the loop
    and the closing line. *)
Lemma main_with_token inverter_serials s api_server bearer_token :
  py_getitem json_settings "API_Server" = Returns api_server ->
  value (gettoken env s) = Ok bearer_token ->
  py_truthy bearer_token = true ->
  main env json_settings inverter_serials s =
  after (opening api_server ++ events (get_bearer_token env s))
        (bind (for_each (fun x => process_inverter env json_settings bearer_token x
                                    (datetime_now env s)) inverter_serials)
              (fun _ => print_colored [Lit "Script execution completed."] OKBLUE)
              (final (get_bearer_token env s))).
Proof.
  intros Hapi Htok Htruthy.
  pose proof (get_bearer_token_value env s bearer_token Htok) as Hgot.
  destruct (get_bearer_token env s) as [evg sg vg] eqn:Eg.
  cbn [value events final] in *. subst vg.
  unfold main.
  rewrite (bind_ok _ _ (read (datetime_now env)) _ s [] s (datetime_now env s)
             eq_refl), after_nil.
  rewrite (bind_ok _ _ (print [Lit dashes]) _ s [Print [Lit dashes]] s tt eq_refl).
  rewrite (bind_ok _ _ (print_colored [Lit "Running Script SolarSynkV3"] MAGENTA)
             _ s [Print [Col MAGENTA; Lit "Running Script SolarSynkV3"; Col ENDC]]
             s tt eq_refl).
  rewrite (bind_ok _ _ (lift (py_getitem json_settings "API_Server")) _ s [] s
             api_server) by (unfold lift; now rewrite Hapi).
  rewrite after_nil.
  rewrite (bind_ok _ _ (print [Lit "Using API Endpoint: "; Col MAGENTA;
                               Val api_server; Col ENDC]) _ s
             [Print [Lit "Using API Endpoint: "; Col MAGENTA; Val api_server;
                     Col ENDC]] s tt eq_refl).
  rewrite (bind_ok _ _ (print [Lit "https://github.com/martinville/solarsynkv3"])
             _ s [Print [Lit "https://github.com/martinville/solarsynkv3"]] s tt
             eq_refl).
  rewrite (bind_ok _ _ (print [Lit dashes]) _ s [Print [Lit dashes]] s tt eq_refl).
  rewrite (bind_ok _ _ (get_bearer_token env) _ s evg sg (Some bearer_token) Eg).
  rewrite Htruthy, !after_after. reflexivity.
Qed.

(** C2, as the code has it.  An exception raised by a telemetry function
    never leaves [fetch_data]: it is logged and printed under the label of
    the function, and [fetch_data] and [execute_api_calls] return.  The
    removal of the cache file, the connection test and the steps of the
    settings cycle are called without a handler, and [Refresh_rate] is
    read by subscript: when the settings hold it and these calls return, a
    run with a token announces and tests every inverter of the list, in
    the order of the list, and returns after its closing message.  Without
    a token [main] processes no inverter and returns after its closing
    message.  A settings file that cannot be loaded ends the run with
    [SystemExit(1)]. *)
Theorem what_ends_the_run :
  (forall f bearer_token serial_item description s,
     let o := fetch_data env f bearer_token serial_item description s in
     value o = Ok tt
     /\ forall e,
          fst (getapi env f bearer_token serial_item s) = Raises e ->
          events o =
            [Print [Col WARNING; Lit "Fetching "; Val (JStr description);
                    Lit "..."; Col ENDC];
             Call (Api f) [bearer_token; JStr serial_item];
             LogError (error_fetching description e);
             Print ([Col FAIL] ++ error_fetching description e ++ [Col ENDC]);
             Traceback e])
  /\ (forall bearer_token serial_item s,
        finished (api_pool env bearer_token serial_item s) = true
        /\ value (execute_api_calls env bearer_token serial_item s) = Ok tt)
  /\ (forall inverter_serials s api_server refresh_rate bearer_token,
        py_getitem json_settings "API_Server" = Returns api_server ->
        py_getitem json_settings "Refresh_rate" = Returns refresh_rate ->
        value (gettoken env s) = Ok bearer_token ->
        py_truthy bearer_token = true ->
        (forall s', os_remove_error env "settings.json" s' = None) ->
        (forall args s', exists r,
            fst (postapi_ConnectionTest env args s') = Returns r) ->
        (forall tok ser s', exists u,
            fst (settingsmanager_DownloadProviderSettings env tok ser s') = Returns u) ->
        (forall tok ser s', exists u,
            fst (settingsmanager_GetNewSettingsFromHAEntity env tok ser s') = Returns u) ->
        (forall ser s', exists u,
            fst (settingsmanager_ResetSettingsEntity env ser s') = Returns u) ->
        let o := main env json_settings inverter_serials s in
        ends_with script_completed o
        /\ announced (events o)
           = map (fun x => (x, datetime_now env s)) inverter_serials
        /\ test_calls (events o)
           = map (fun _ => connection_test_args) inverter_serials)
  /\ (forall inverter_serials s api_server tok,
        py_getitem json_settings "API_Server" = Returns api_server ->
        value (gettoken env s) = Ok tok ->
        py_truthy tok = false ->
        ends_with script_completed (main env json_settings inverter_serials s)
        /\ Forall no_device_work
             (events (main env json_settings inverter_serials s)))
  /\ (forall inverter_serials s e s1 api_server,
        py_getitem json_settings "API_Server" = Returns api_server ->
        open_json env "/data/options.json" s = (Raises e, s1) ->
        value (main env json_settings inverter_serials s) = Exit 1).
Proof.
  split; [|split; [|split; [|split]]].
  - intros f tok ser d s o. subst o. rewrite fetch_data_alone. cbv zeta.
    split; [reflexivity|]. intros e ->. reflexivity.
  - intros tok ser s. split; [apply api_pool_finished | reflexivity].
  - intros serials s api rr tok Hapi Hrr Htok Htruthy Hrm Ht Hd Hu Hr o.
    destruct (returns_for_each _
                (fun x => process_inverter env json_settings tok x
                            (datetime_now env s))
                serials
                (fun x => process_inverter_returns env json_settings rr Hrr Hrm
                            Ht Hd Hu Hr tok x _)
                (final (get_bearer_token env s))) as [[] Hloop].
    split; [|split].
    + apply (main_ends env json_settings serials s api tok Hapi Htok).
      intros _. exact Hloop.
    + subst o. rewrite (main_with_token serials s api tok Hapi Htok Htruthy).
      rewrite events_after, events_bind, Hloop, !announced_app.
      rewrite (silent_announced _ (silent_get_bearer_token env s)).
      rewrite (proj2 (loop_announces env json_settings tok (datetime_now env s)
                        serials (final (get_bearer_token env s))) Hloop).
      cbn. now rewrite app_nil_r.
    + subst o. rewrite (main_with_token serials s api tok Hapi Htok Htruthy).
      rewrite events_after, events_bind, Hloop, !test_calls_app.
      rewrite (untested_test_calls _
                 (quiet_untested _ (emits_get_bearer_token env s))).
      rewrite (loop_tests tok (datetime_now env s) rr serials Hrr Hrm _ Hloop).
      cbn. now rewrite app_nil_r.
  - intros serials s api tok Hapi Htok Hfalse. split.
    + apply (main_ends env json_settings serials s api tok Hapi Htok).
      rewrite Hfalse. discriminate.
    + now apply main_without_token with (tok := tok).
  - intros serials s e s1 api Hapi Hload.
    assert (Hg : value (gettoken env s) = Exit 1).
    { unfold gettoken. rewrite value_bind.
      now rewrite (load_settings_fails env _ _ _ _ Hload). }
    assert (Hb : value (get_bearer_token env s) = Exit 1).
    { unfold get_bearer_token. rewrite try_except_run, value_bind, Hg.
      rewrite value_bind, Hg. reflexivity. }
    unfold main.
    rewrite value_bind. cbn [value final read].
    rewrite value_bind. cbn [value final print emit].
    rewrite value_bind. cbn [value final print_colored print emit].
    rewrite value_bind. unfold lift at 1 2. rewrite Hapi. cbn [value final of_reply].
    rewrite value_bind. cbn [value final print emit].
    rewrite value_bind. cbn [value final print emit].
    rewrite value_bind. cbn [value final print emit].
    rewrite value_bind, Hb. reflexivity.
Qed.

End WholeList.

(** * Concrete runs *)

(** A small outside world: how many connection tests Home Assistant has
    answered, and the staged setting of each inverter. *)
Record house : Type := mkHouse {
  tests_done : nat;
  staged : list (string * string)
}.

Fixpoint staged_value (serial : string) (l : list (string * string)) : string :=
  match l with
  | [] => ""
  | (k, v) :: rest => if String.eqb serial k then v else staged_value serial rest
  end.

Definition clear_staged (serial : string) (l : list (string * string))
  : list (string * string) :=
  map (fun kv => if String.eqb serial (fst kv) then (fst kv, "") else kv) l.

(** What the collaborators do in a scenario. *)
Record scenario : Type := mkScenario {
  sc_options : reply json;
  sc_key : reply response;
  sc_login : reply response;
  sc_entity : reply response;
  sc_reachable : nat -> bool;
  sc_api : api_fn -> reply unit;
  sc_download : reply unit;
  sc_update : reply unit;
  sc_choices : list nat
}.

Definition scenario_env (sc : scenario) : Env house :=
  {| time_ms := fun _ => 1700000000000%Z;
     datetime_now := fun s => Z.of_nat (tests_done (ext s));
     open_json := fun _ s => (sc_options sc, s);
     os_remove_error := fun _ _ => None;
     requests_get := fun req s =>
                       (if verify req then sc_key sc else sc_entity sc, s);
     requests_post := fun _ s => (sc_login sc, s);
     load_pem_public_key := fun text => Returns (mkKey text);
     encrypt_PKCS1v15 := fun _ data => Returns data;
     b64encode := fun data => data;
     postapi_ConnectionTest :=
       fun _ s =>
         (Returns (JStr (if sc_reachable sc (tests_done (ext s))
                         then "Connection Success" else "Connection Failed")),
          mkStore (settings_json s)
                  (mkHouse (S (tests_done (ext s))) (staged (ext s))));
     getapi := fun f _ _ s => (sc_api sc f, s);
     settingsmanager_DownloadProviderSettings := fun _ _ s => (sc_download sc, s);
     settingsmanager_GetNewSettingsFromHAEntity := fun _ _ s => (sc_update sc, s);
     settingsmanager_ResetSettingsEntity :=
       fun serial s =>
         (Returns tt,
          mkStore (settings_json s)
                  (mkHouse (tests_done (ext s))
                           (clear_staged serial (staged (ext s)))));
     scheduler := fun _ => sc_choices sc |}.

Definition options : json :=
  JObj [("sunsynk_user", JStr "user@example.org");
        ("sunsynk_pass", JStr "secret");
        ("sunsynk_serial", JStr "A1;A2");
        ("API_Server", JStr "api.sunsynk.net");
        ("Refresh_rate", JInt 300);
        ("Enable_HTTPS", JBool false);
        ("Home_Assistant_IP", JStr "192.168.1.10");
        ("Home_Assistant_PORT", JInt 8123);
        ("HA_LongLiveToken", JStr "ha-token")].

Definition key_answer : response :=
  mkResponse 200 (Returns (JObj [("data", JStr "QUJD")])).

Definition login_granted : json :=
  JObj [("msg", JStr "Success");
        ("data", JObj [("access_token", JStr "token-1")])].

Definition login_answer : response := mkResponse 200 (Returns login_granted).

Definition entity_answer : response := mkResponse 200 (Returns (JObj [])).

(** Everything works; the first connection test succeeds, the later ones
    fail; the scheduler lets the threads run while others are started. *)
Definition fair : scenario :=
  mkScenario (Returns options) (Returns key_answer) (Returns login_answer)
             (Returns entity_answer) (fun n => Nat.eqb n 0)
             (fun _ => Returns tt) (Returns tt) (Returns tt)
             [0; 0; 1; 2; 0; 1; 9; 0; 3; 3; 0; 2].

(** The public-key request times out. *)
Definition key_times_out : scenario :=
  mkScenario (Returns options) (Raises Timeout) (Returns login_answer)
             (Returns entity_answer) (fun n => Nat.eqb n 0)
             (fun _ => Returns tt) (Returns tt) (Returns tt) [].

(** [GetGridData] raises, the other telemetry functions return. *)
Definition grid_fails : scenario :=
  mkScenario (Returns options) (Returns key_answer) (Returns login_answer)
             (Returns entity_answer) (fun n => Nat.eqb n 0)
             (fun f => match f with
                       | GetGridData => Raises Timeout
                       | _ => Returns tt
                       end)
             (Returns tt) (Returns tt)
             [0; 0; 0; 3; 1; 3; 0; 3; 2; 3; 3; 0].

(** [DownloadProviderSettings] raises; every connection test succeeds. *)
Definition download_raises : scenario :=
  mkScenario (Returns options) (Returns key_answer) (Returns login_answer)
             (Returns entity_answer) (fun _ => true)
             (fun _ => Returns tt)
             (Raises (KeyError "data")) (Returns tt) [].

(** The options file of Home Assistant is missing. *)
Definition no_options : scenario :=
  mkScenario (Raises (OSError "No such file or directory: /data/options.json"))
             (Returns key_answer) (Returns login_answer)
             (Returns entity_answer) (fun _ => true)
             (fun _ => Returns tt) (Returns tt) (Returns tt) [].

(** A store with a cache file left behind and a setting staged for [A1]. *)
Definition home : store house :=
  mkStore (Some "{}") (mkHouse 0 [("A1", "batteryCap=80"); ("A2", "")]).

Definition token_1 : json := JStr "token-1".

(** An environment with another login endpoint, another connection test,
    or another [os.remove]. *)
Definition with_login (e : Env house) (post : request -> ext_fn house response)
  : Env house :=
  {| time_ms := time_ms e;
     datetime_now := datetime_now e;
     open_json := open_json e;
     os_remove_error := os_remove_error e;
     requests_get := requests_get e;
     requests_post := post;
     load_pem_public_key := load_pem_public_key e;
     encrypt_PKCS1v15 := encrypt_PKCS1v15 e;
     b64encode := b64encode e;
     postapi_ConnectionTest := postapi_ConnectionTest e;
     getapi := getapi e;
     settingsmanager_DownloadProviderSettings :=
       settingsmanager_DownloadProviderSettings e;
     settingsmanager_GetNewSettingsFromHAEntity :=
       settingsmanager_GetNewSettingsFromHAEntity e;
     settingsmanager_ResetSettingsEntity := settingsmanager_ResetSettingsEntity e;
     scheduler := scheduler e |}.

Definition with_connection_test (e : Env house)
  (test : list json -> ext_fn house json) : Env house :=
  {| time_ms := time_ms e;
     datetime_now := datetime_now e;
     open_json := open_json e;
     os_remove_error := os_remove_error e;
     requests_get := requests_get e;
     requests_post := requests_post e;
     load_pem_public_key := load_pem_public_key e;
     encrypt_PKCS1v15 := encrypt_PKCS1v15 e;
     b64encode := b64encode e;
     postapi_ConnectionTest := test;
     getapi := getapi e;
     settingsmanager_DownloadProviderSettings :=
       settingsmanager_DownloadProviderSettings e;
     settingsmanager_GetNewSettingsFromHAEntity :=
       settingsmanager_GetNewSettingsFromHAEntity e;
     settingsmanager_ResetSettingsEntity := settingsmanager_ResetSettingsEntity e;
     scheduler := scheduler e |}.

Definition with_remove_error (e : Env house)
  (err : string -> store house -> option exn) : Env house :=
  {| time_ms := time_ms e;
     datetime_now := datetime_now e;
     open_json := open_json e;
     os_remove_error := err;
     requests_get := requests_get e;
     requests_post := requests_post e;
     load_pem_public_key := load_pem_public_key e;
     encrypt_PKCS1v15 := encrypt_PKCS1v15 e;
     b64encode := b64encode e;
     postapi_ConnectionTest := postapi_ConnectionTest e;
     getapi := getapi e;
     settingsmanager_DownloadProviderSettings :=
       settingsmanager_DownloadProviderSettings e;
     settingsmanager_GetNewSettingsFromHAEntity :=
       settingsmanager_GetNewSettingsFromHAEntity e;
     settingsmanager_ResetSettingsEntity := settingsmanager_ResetSettingsEntity e;
     scheduler := scheduler e |}.

Definition login_refused : response :=
  mkResponse 200 (Returns (JObj [("msg", JStr "Invalid username or password")])).

(** The login endpoint grants a token to [owner@example.org] and refuses
    every other user. *)
Definition one_user : Env house :=
  with_login (scenario_env fair)
    (fun req s =>
       (Returns
          match json_body req with
          | Some payload =>
              match py_getitem payload "username" with
              | Returns (JStr u) =>
                  if (u =? "owner@example.org")%string then login_answer
                  else login_refused
              | _ => login_refused
              end
          | None => login_refused
          end, s)).

(** The connection test cannot reach Home Assistant and raises. *)
Definition test_breaks : Env house :=
  with_connection_test (scenario_env fair)
    (fun _ s => (Raises (ConnectionError "Max retries exceeded"), s)).

(** The path [settings.json] is a directory. *)
Definition cache_is_a_directory : Env house :=
  with_remove_error (scenario_env fair)
    (fun _ _ => Some (OSError "[Errno 21] Is a directory: settings.json")).

(** ** C8 at a granted login *)
Lemma authenticate_contract_witness :
  py_getitem options "API_Server" = Returns (JStr "api.sunsynk.net")
  /\ py_getitem options "sunsynk_user" = Returns (JStr "user@example.org")
  /\ http_error login_answer = false
  /\ py_getitem login_granted "msg" = Returns (JStr "Success")
  /\ value (_authenticate (scenario_env fair) options (JStr "secret") home)
     = Ok token_1.
Proof.
  repeat (split; [reflexivity|]).
  destruct (authenticate_contract (scenario_env fair) options (JStr "secret")
              (JStr "api.sunsynk.net") (JStr "user@example.org") home
              login_answer login_granted (JStr "Success")
              eq_refl eq_refl eq_refl eq_refl eq_refl eq_refl)
    as (_ & _ & _ & Hgranted & _).
  destruct (Hgranted eq_refl) as [_ Htoken].
  exact (Htoken (JObj [("access_token", JStr "token-1")]) token_1 eq_refl eq_refl).
Defined.

(** ** C3 when the login is refused; and when the key request times out *)
Lemma failed_token_stops_the_run_witness :
  login_fails
    (requests_post one_user
       (token_request (JStr "api.sunsynk.net") (JStr "secret")
                      (JStr "owner@example.org")) home) = false
  /\ login_fails
       (requests_post one_user
          (token_request (JStr "api.sunsynk.net") (JStr "secret")
                         (JStr "user@example.org")) home) = true
  /\ value (gettoken one_user home) = Ok (JStr "")
  /\ Forall no_device_work (events (main one_user options ["A1"; "A2"] home))
  /\ key_fetch_fails
       (requests_get (scenario_env key_times_out)
          (public_key_request (time_ms (scenario_env key_times_out) home)) home)
     = true
  /\ value (gettoken (scenario_env key_times_out) home) = Ok (JStr "")
  /\ Forall no_device_work
       (events (main (scenario_env key_times_out) options ["A1"; "A2"] home)).
Proof.
  split; [reflexivity|]. split; [reflexivity|].
  assert (Hrefused :
            forall req, In (HttpPost req) (events (gettoken one_user home)) ->
                        login_fails (requests_post one_user req home) = true).
  { intros req Hin. vm_compute in Hin.
    destruct Hin as [H|[H|[H|[H|[]]]]]; try discriminate H.
    injection H as <-. reflexivity. }
  destruct (failed_token_stops_the_run one_user options ["A1"; "A2"] home
              options home eq_refl (or_intror Hrefused)) as [H1 H2].
  split; [exact H1|]. split; [exact H2|].
  split; [reflexivity|].
  exact (failed_token_stops_the_run (scenario_env key_times_out) options
           ["A1"; "A2"] home options home eq_refl (or_introl eq_refl)).
Defined.

(** ** C9 once the options are loaded; and when they are not *)
Lemma check_entity_exists_result_witness :
  open_json (scenario_env fair) "/data/options.json" home = (Returns options, home)
  /\ value (check_entity_exists (scenario_env fair)
              "input_text.solarsynkv3_A1_settings" "/data/options.json" home)
     = Ok true.
Proof.
  split; [reflexivity|].
  destruct (check_entity_exists_result (scenario_env fair)
              "input_text.solarsynkv3_A1_settings" "/data/options.json"
              home options home (JBool false) (JStr "192.168.1.10") (JInt 8123)
              (JStr "ha-token") eq_refl eq_refl eq_refl eq_refl eq_refl)
    as (b & Hv & Hb).
  - intros e H. discriminate H.
  - rewrite Hv. f_equal. apply Hb. exists entity_answer. split; reflexivity.
Defined.

(** C9 as stated fails: with the options file missing, the error of
    [load_ha_settings] is no request exception and leaves
    [check_entity_exists]. *)
Lemma check_entity_exists_raises :
  value (check_entity_exists (scenario_env no_options)
           "input_text.solarsynkv3_A1_settings" "/data/options.json" home)
  = Raise (OSError "No such file or directory: /data/options.json").
Proof. reflexivity. Qed.

(** ** The text handed to the PEM loader *)

(** C5, at the key body ["QUJD"].  [_get_public_key] frames the body with
    the header and the footer and hands the result to the loader, but
    [writelines] puts no line break between them: the text is one line,
    not the header, the body and the footer on lines of their own. *)
Lemma public_key_file_is_one_line :
  value (_get_public_key (scenario_env fair) home)
  = Ok (mkKey "-----BEGIN PUBLIC KEY-----QUJD-----END PUBLIC KEY-----")
  /\ lines "-----BEGIN PUBLIC KEY-----QUJD-----END PUBLIC KEY-----"
     = ["-----BEGIN PUBLIC KEY-----QUJD-----END PUBLIC KEY-----"]
  /\ lines "-----BEGIN PUBLIC KEY-----QUJD-----END PUBLIC KEY-----"
     <> ["-----BEGIN PUBLIC KEY-----"; "QUJD"; "-----END PUBLIC KEY-----"].
Proof.
  split; [reflexivity|]. split; [reflexivity|]. discriminate.
Qed.

(** ** C4 with one failing function *)
Lemma execute_api_calls_joins_all_witness :
  (forall s, fst (getapi (scenario_env grid_fails) GetGridData token_1 "A1" s)
             = Raises Timeout)
  /\ logged_errors
       (events (execute_api_calls (scenario_env grid_fails) token_1 "A1" home))
     = [error_fetching "Grid Data" Timeout]
  /\ exists fan_out join,
       events (execute_api_calls (scenario_env grid_fails) token_1 "A1" home)
       = fan_out ++ join
       /\ starts fan_out
          = [GetInverterInfo; GetPvData; GetGridData; GetBatteryData;
             GetLoadData; GetOutputData; GetDCACTemp; GetInverterSettingsData]
       /\ joins fan_out = []
       /\ starts join = []
       /\ joins join
          = [GetInverterInfo; GetPvData; GetGridData; GetBatteryData;
             GetLoadData; GetOutputData; GetDCACTemp; GetInverterSettingsData].
Proof.
  split; [reflexivity|].
  destruct (execute_api_calls_joins_all (scenario_env grid_fails) token_1 "A1" home)
    as (_ & Hev & _ & _ & _ & _ & _ & _ & _ & _ & _ & _ & Hfan & Hlog).
  split; [|exact Hfan].
  rewrite Hev.
  destruct (Hlog GetGridData Timeout) as (d & Hd & ->).
  - reflexivity.
  - intros f s Hf. destruct f; try reflexivity. contradiction.
  - f_equal. cbn in Hd.
    repeat (destruct Hd as [Hd|Hd]; [try discriminate Hd|]);
      [injection Hd as <-; reflexivity | contradiction].
Defined.

Lemma staged_value_cleared serial l :
  staged_value serial (clear_staged serial l) = "".
Proof.
  induction l as [|[k v] l IH]; cbn; [reflexivity|].
  destruct (String.eqb serial k) eqn:E; cbn; rewrite E; [reflexivity | exact IH].
Qed.

(** ** C1 when both steps return; and when the download raises *)
Lemma settings_cycle_resets_witness :
  staged_value "A1" (staged (ext home)) = "batteryCap=80"
  /\ (exists u, fst (settingsmanager_DownloadProviderSettings (scenario_env fair)
                       token_1 "A1" home) = Returns u)
  /\ staged_value "A1"
       (staged (ext (final (execute_settings_management (scenario_env fair)
                              token_1 "A1" home))))
     = "".
Proof.
  split; [reflexivity|]. split; [exists tt; reflexivity|].
  destruct (settings_cycle_resets (scenario_env fair) token_1 "A1" home
              (ex_intro _ tt eq_refl) (ex_intro _ tt eq_refl))
    as (_ & _ & _ & Hempty).
  apply (Hempty (fun h serial => staged_value serial (staged h))).
  intros s'. apply staged_value_cleared.
Defined.

(** C1 as stated fails: when [DownloadProviderSettings] raises, the
    exception leaves [execute_settings_management], [ResetSettingsEntity]
    is not called, and the staged setting stays. *)
Lemma settings_reset_skipped :
  let o := execute_settings_management (scenario_env download_raises)
             token_1 "A1" home in
  staged_value "A1" (staged (ext home)) = "batteryCap=80"
  /\ value o = Raise (KeyError "data")
  /\ events o = [Call DownloadProviderSettings [token_1; JStr "A1"]]
  /\ ~ In (Call ResetSettingsEntity [JStr "A1"]) (events o)
  /\ staged_value "A1" (staged (ext (final o))) = "batteryCap=80".
Proof.
  cbv zeta. repeat (split; [reflexivity|]). split; [|reflexivity].
  intros [H|[]]. discriminate H.
Qed.

(** ** C10 on the list A1, A2; and when the file cannot be removed *)
Lemma cache_removed_before_each_device_witness :
  let body := fun x => process_inverter (scenario_env fair) options token_1 x 0%Z in
  py_getitem options "Refresh_rate" = Returns (JInt 300)
  /\ settings_json home = Some "{}"
  /\ cleaning_error (scenario_env fair) home = None
  /\ (exists rest,
        events (body "A1" home)
        = greeting "A1" 0 (JInt 300)
          ++ Print [Lit "Cleaning cache..."] :: Remove "settings.json" :: rest)
  /\ settings_json (without_cache home) = None
  /\ for_each body ["A1"; "A2"] home
     = after (greeting "A1" 0 (JInt 300) ++ cleaning (scenario_env fair) home)
             (bind (test_and_run (scenario_env fair) token_1 "A1")
                   (fun _ => for_each body ["A2"]) (without_cache home)).
Proof.
  intros body.
  destruct (cache_removed_before_each_device (scenario_env fair) options
              token_1 0%Z [] "A1" ["A2"] home (JInt 300) eq_refl eq_refl)
    as (Hremove & Hclean & _).
  destruct (Hclean eq_refl) as (Hloop & Hgone & _).
  split; [reflexivity|]. split; [reflexivity|]. split; [reflexivity|].
  split; [apply Hremove; discriminate|].
  split; [exact Hgone | exact Hloop].
Defined.

(** C10 as stated fails: when [settings.json] cannot be removed, the file
    is not deleted; the error of [os.remove] leaves [main] before the
    connection test of the first inverter, and the second inverter is not
    reached. *)
Lemma cache_not_removed :
  let o := main cache_is_a_directory options ["A1"; "A2"] home in
  settings_json home = Some "{}"
  /\ value o = Raise (OSError "[Errno 21] Is a directory: settings.json")
  /\ settings_json (final o) = Some "{}"
  /\ test_calls (events o) = []
  /\ announced (events o) = [("A1", 0%Z)]
  /\ ~ In script_completed (events o).
Proof.
  cbv zeta. split; [reflexivity|]. split; [vm_compute; reflexivity|].
  split; [vm_compute; reflexivity|]. split; [vm_compute; reflexivity|].
  split; [vm_compute; reflexivity|].
  vm_compute. intros H.
  repeat (destruct H as [H|H]; [discriminate H|]). exact H.
Qed.

(** ** C6 on the list A1, A2; and when the connection test raises *)
Lemma connectivity_gates_device_work_witness :
  let body := fun x => process_inverter (scenario_env fair) options token_1 x 0%Z in
  let before := for_each body ["A1"] home in
  fst (postapi_ConnectionTest (scenario_env fair) connection_test_args
         (without_cache home)) = Returns (JStr "Connection Success")
  /\ starts (events (body "A1" home))
     = [GetInverterInfo; GetPvData; GetGridData; GetBatteryData; GetLoadData;
        GetOutputData; GetDCACTemp; GetInverterSettingsData]
  /\ (exists apis rest,
        calls (events (body "A1" home))
        = (ConnectionTest, connection_test_args)
          :: apis ++ (DownloadProviderSettings, [token_1; JStr "A1"]) :: rest
        /\ length apis = 8)
  /\ value before = Ok tt
  /\ fst (postapi_ConnectionTest (scenario_env fair) connection_test_args
            (without_cache (final before))) = Returns (JStr "Connection Failed")
  /\ calls (events (body "A2" (final before)))
     = [(ConnectionTest, connection_test_args)]
  /\ value (body "A2" (final before)) = Ok tt.
Proof.
  intros body before.
  destruct (connectivity_gates_device_work (scenario_env fair) options
              token_1 0%Z [] "A1" ["A2"] home (JInt 300) eq_refl eq_refl eq_refl)
    as (_ & Hrun & _).
  destruct (Hrun eq_refl) as (apis & rest & Hcalls & Hperm & Hstarts).
  split; [reflexivity|]. split; [exact Hstarts|].
  split.
  { exists apis, rest. split; [exact Hcalls|].
    exact (Permutation_length Hperm). }
  assert (H : value before = Ok tt) by (vm_compute; reflexivity).
  assert (Hc : cleaning_error (scenario_env fair) (final before) = None)
    by (vm_compute; reflexivity).
  assert (Ha : fst (postapi_ConnectionTest (scenario_env fair) connection_test_args
                      (without_cache (final before)))
               = Returns (JStr "Connection Failed")) by (vm_compute; reflexivity).
  split; [exact H|]. split; [exact Ha|].
  destruct (connectivity_gates_device_work (scenario_env fair) options
              token_1 0%Z ["A1"] "A2" [] home (JInt 300) eq_refl H Hc)
    as (_ & _ & Hskip & _).
  destruct (Hskip (JStr "Connection Failed") Ha) as (Hcalls2 & _ & _ & Hv & _);
    [discriminate|].
  split; [exact Hcalls2 | exact Hv].
Defined.

(** C6 as stated fails: a connection test that raises is a connectivity
    failure after which the run does not continue; the exception leaves
    [main], the closing message is not printed and the second inverter is
    not reached. *)
Lemma connection_test_exception_ends_the_run :
  let o := main test_breaks options ["A1"; "A2"] home in
  value o = Raise (ConnectionError "Max retries exceeded")
  /\ announced (events o) = [("A1", 0%Z)]
  /\ test_calls (events o) = [connection_test_args]
  /\ ~ In script_completed (events o).
Proof.
  cbv zeta. split; [vm_compute; reflexivity|].
  split; [vm_compute; reflexivity|]. split; [vm_compute; reflexivity|].
  vm_compute. intros H.
  repeat (destruct H as [H|H]; [discriminate H|]). exact H.
Qed.

(** ** C2 on the list A1, A2; and when the download raises *)
Lemma what_ends_the_run_witness :
  let o := main (scenario_env fair) options ["A1"; "A2"] home in
  py_getitem options "Refresh_rate" = Returns (JInt 300)
  /\ value (gettoken (scenario_env fair) home) = Ok token_1
  /\ ends_with script_completed o
  /\ announced (events o) = [("A1", 0%Z); ("A2", 0%Z)]
  /\ test_calls (events o) = [connection_test_args; connection_test_args].
Proof.
  intros o. split; [reflexivity|]. split; [reflexivity|].
  destruct (what_ends_the_run (scenario_env fair) options) as (_ & _ & Hmain & _ & _).
  apply (Hmain ["A1"; "A2"] home (JStr "api.sunsynk.net") (JInt 300) token_1
           eq_refl eq_refl eq_refl eq_refl).
  - intros s. reflexivity.
  - intros args s. eexists. reflexivity.
  - intros tok ser s. exists tt. reflexivity.
  - intros tok ser s. exists tt. reflexivity.
  - intros ser s. exists tt. reflexivity.
Defined.

(** C2 as stated fails: an exception raised by a step of the settings
    cycle of the first inverter leaves [main]; the closing message is not
    printed and the second inverter is not reached. *)
Lemma settings_exception_ends_the_run :
  let o := main (scenario_env download_raises) options ["A1"; "A2"] home in
  value o = Raise (KeyError "data")
  /\ ~ In script_completed (events o)
  /\ map snd (filter (fun c => match fst c with ConnectionTest => true | _ => false end)
                (calls (events o)))
     = [connection_test_args].
Proof.
  cbv zeta. split; [vm_compute; reflexivity|]. split.
  - vm_compute. intros H.
    repeat (destruct H as [H|H]; [discriminate H|]). exact H.
  - vm_compute. reflexivity.
Qed.

(** * More concrete runs *)

(** The options without the password. *)
Definition options_without_password : json :=
  JObj [("sunsynk_user", JStr "user@example.org");
        ("sunsynk_serial", JStr "A1;A2");
        ("API_Server", JStr "api.sunsynk.net");
        ("Refresh_rate", JInt 300)].

Definition no_password : scenario :=
  mkScenario (Returns options_without_password) (Returns key_answer)
             (Returns login_answer) (Returns entity_answer) (fun _ => true)
             (fun _ => Returns tt) (Returns tt) (Returns tt) [].

(** The options without the refresh rate. *)
Definition options_without_refresh_rate : json :=
  JObj [("sunsynk_user", JStr "user@example.org");
        ("sunsynk_pass", JStr "secret");
        ("sunsynk_serial", JStr "A1;A2");
        ("API_Server", JStr "api.sunsynk.net")].

(** The login endpoint answers with an object that has no [msg]. *)
Definition login_without_msg : response :=
  mkResponse 200 (Returns (JObj [("error", JStr "invalid_grant")])).

Definition answer_without_msg : scenario :=
  mkScenario (Returns options) (Returns key_answer) (Returns login_without_msg)
             (Returns entity_answer) (fun _ => true)
             (fun _ => Returns tt) (Returns tt) (Returns tt) [].

(** The login endpoint says ["Success"] and sends no token. *)
Definition login_without_token : response :=
  mkResponse 200 (Returns (JObj [("msg", JStr "Success")])).

Definition answer_without_token : scenario :=
  mkScenario (Returns options) (Returns key_answer) (Returns login_without_token)
             (Returns entity_answer) (fun _ => true)
             (fun _ => Returns tt) (Returns tt) (Returns tt) [].

(** Home Assistant knows no settings entity and refuses every POST. *)
Definition ha_refuses : scenario :=
  mkScenario (Returns options) (Returns key_answer)
             (Returns (mkResponse 401 (Returns (JObj []))))
             (Returns (mkResponse 404 (Returns (JObj []))))
             (fun _ => true)
             (fun _ => Returns tt) (Returns tt) (Returns tt) [].

Definition the_key_request : request := public_key_request 1700000000000%Z.

(** ** [gettoken] *)

Lemma gettoken_without_settings_witness :
  open_json (scenario_env no_options) settings_path home
  = (Raises (OSError "No such file or directory: /data/options.json"), home)
  /\ value (gettoken (scenario_env no_options) home) = Exit 1
  /\ http_requests (events (gettoken (scenario_env no_options) home)) = [].
Proof.
  split; [reflexivity|].
  destruct (gettoken_without_settings (scenario_env no_options) home
              (OSError "No such file or directory: /data/options.json") home
              eq_refl) as (Hv & _ & Hr & _).
  split; [exact Hv | exact Hr].
Defined.

Lemma gettoken_grants_witness :
  py_getitem options "sunsynk_pass" = Returns (JStr "secret")
  /\ py_getitem login_granted "msg" = Returns (JStr "Success")
  /\ gettoken (scenario_env fair) home
     = mkOut [OpenFile settings_path;
              HttpGet the_key_request;
              HttpPost (token_request (JStr "api.sunsynk.net") (JStr "secret")
                                      (JStr "user@example.org"));
              Print [Col OKGREEN; Lit "Sunsynk Login: "; Val (JStr "Success");
                     Col ENDC]]
             home (Ok token_1).
Proof.
  split; [reflexivity|]. split; [reflexivity|].
  exact (gettoken_grants (scenario_env fair) home options home key_answer home
           (JObj [("data", JStr "QUJD")]) "QUJD"
           (mkKey (pem_header ++ "QUJD" ++ pem_footer)) "secret" "secret"
           (JStr "api.sunsynk.net") (JStr "user@example.org")
           login_answer home login_granted
           (JObj [("access_token", JStr "token-1")]) token_1
           eq_refl eq_refl eq_refl eq_refl eq_refl eq_refl eq_refl eq_refl
           eq_refl eq_refl eq_refl eq_refl eq_refl eq_refl eq_refl eq_refl).
Defined.

Lemma gettoken_without_password_witness :
  open_json (scenario_env no_password) settings_path home
  = (Returns options_without_password, home)
  /\ py_getitem options_without_password "sunsynk_pass"
     = Raises (KeyError "sunsynk_pass")
  /\ value (gettoken (scenario_env no_password) home) = Ok (JStr "")
  /\ http_requests (events (gettoken (scenario_env no_password) home))
     = [HttpGet the_key_request].
Proof.
  split; [reflexivity|]. split; [reflexivity|].
  apply (gettoken_without_password (scenario_env no_password) home
           options_without_password home eq_refl).
  intros pw H. discriminate H.
Defined.

Lemma gettoken_reports_key_failure_witness :
  open_json (scenario_env key_times_out) settings_path home = (Returns options, home)
  /\ fst (requests_get (scenario_env key_times_out) the_key_request home)
     = Raises Timeout
  /\ gettoken (scenario_env key_times_out) home
     = mkOut [OpenFile settings_path; HttpGet the_key_request;
              Print [Col FAIL;
                     Lit "Error: Request timed out while connecting to Sunsynk API.";
                     Col ENDC]]
             home (Ok (JStr "")).
Proof.
  split; [reflexivity|]. split; [reflexivity|].
  exact (proj1 (gettoken_reports_key_failure (scenario_env key_times_out) home
                  options home eq_refl) eq_refl).
Defined.

Lemma authenticate_without_msg_witness :
  body login_without_msg = Returns (JObj [("error", JStr "invalid_grant")])
  /\ assoc "msg" [("error", JStr "invalid_grant")] = None
  /\ value (_authenticate (scenario_env answer_without_msg) options
              (JStr "secret") home)
     = Raise (KeyError "msg").
Proof.
  split; [reflexivity|]. split; [reflexivity|].
  rewrite (authenticate_without_msg (scenario_env answer_without_msg) options
             (JStr "secret") (JStr "api.sunsynk.net") (JStr "user@example.org")
             home login_without_msg [("error", JStr "invalid_grant")]
             eq_refl eq_refl eq_refl eq_refl eq_refl eq_refl).
  reflexivity.
Defined.

Lemma authenticate_success_without_token_witness :
  py_getitem (JObj [("msg", JStr "Success")]) "msg" = Returns (JStr "Success")
  /\ py_getitem (JObj [("msg", JStr "Success")]) "data" = Raises (KeyError "data")
  /\ _authenticate (scenario_env answer_without_token) options (JStr "secret") home
     = mkOut [HttpPost (token_request (JStr "api.sunsynk.net") (JStr "secret")
                                      (JStr "user@example.org"));
              Print [Col OKGREEN; Lit "Sunsynk Login: "; Val (JStr "Success");
                     Col ENDC]]
             home (Raise (KeyError "data")).
Proof.
  split; [reflexivity|]. split; [reflexivity|].
  exact (authenticate_success_without_token (scenario_env answer_without_token)
           options (JStr "secret") (JStr "api.sunsynk.net")
           (JStr "user@example.org") home login_without_token
           (JObj [("msg", JStr "Success")]) (KeyError "data")
           eq_refl eq_refl eq_refl eq_refl eq_refl eq_refl
           (or_introl eq_refl)).
Defined.

(** ** The settings entities *)

Definition entity_A1 : string := "input_text.solarsynkv3_A1_settings".

Lemma create_helper_primary_witness :
  open_json (scenario_env fair) settings_path home = (Returns options, home)
  /\ value (create_input_text_helper (scenario_env fair) entity_A1
              "SolarSynkV3 A1 Settings" 255 "" settings_path home)
     = Ok true.
Proof.
  split; [reflexivity|].
  destruct (create_helper_primary (scenario_env fair) entity_A1
              "SolarSynkV3 A1 Settings" 255%Z "" settings_path home home options
              (JBool false) (JStr "192.168.1.10") (JInt 8123) (JStr "ha-token")
              eq_refl eq_refl eq_refl eq_refl eq_refl eq_refl) as [Hrun _].
  rewrite Hrun. reflexivity.
Defined.

Lemma create_helper_result_witness :
  open_json (scenario_env ha_refuses) settings_path home = (Returns options, home)
  /\ value (create_input_text_helper (scenario_env ha_refuses) entity_A1
              "SolarSynkV3 A1 Settings" 255 "" settings_path home)
     = Ok false
  /\ length (http_requests
               (events (create_input_text_helper (scenario_env ha_refuses) entity_A1
                          "SolarSynkV3 A1 Settings" 255 "" settings_path home)))
     = 2.
Proof.
  split; [reflexivity|].
  destruct (create_helper_result (scenario_env ha_refuses) entity_A1
              "SolarSynkV3 A1 Settings" 255%Z "" settings_path home home options
              (JBool false) (JStr "192.168.1.10") (JInt 8123) (JStr "ha-token")
              eq_refl eq_refl eq_refl eq_refl eq_refl)
    as (b & Hv & Hb & Hreq & _).
  - intros req st e H. discriminate H.
  - rewrite Hv, Hreq. split; [|reflexivity].
    destruct b; [|reflexivity].
    destruct (proj1 Hb eq_refl) as [H|H]; discriminate H.
Defined.

Lemma settings_helper_name_witness :
  no_dot "A1" = true
  /\ json_body (helper_request [] [] (settings_entity "A1")
                               "SolarSynkV3 A1 Settings" 255 "")
     = Some (JObj [("solarsynkv3_A1_settings",
                    JObj [("name", JStr "SolarSynkV3 A1 Settings");
                          ("max", JInt 255);
                          ("initial", JStr "")])]).
Proof.
  split; [reflexivity|].
  exact (settings_helper_name [] [] "A1" "SolarSynkV3 A1 Settings" 255%Z ""
           eq_refl).
Defined.

Lemma validation_fails_iff_witness :
  NoDup ["A1"; "A2"]
  /\ value (validate_and_create_required_entities (scenario_env ha_refuses)
              ["A1"; "A2"] settings_path home) = Ok false
  /\ exists serial,
       In serial ["A1"; "A2"]
       /\ In (Print (failed_to_create serial))
             (events (validate_and_create_required_entities
                        (scenario_env ha_refuses) ["A1"; "A2"] settings_path home)).
Proof.
  assert (Hnd : NoDup ["A1"; "A2"]).
  { repeat constructor; cbn; intuition discriminate. }
  assert (Hv : value (validate_and_create_required_entities
                        (scenario_env ha_refuses) ["A1"; "A2"] settings_path home)
               = Ok false) by (vm_compute; reflexivity).
  split; [exact Hnd|]. split; [exact Hv|].
  exact (proj1 (validation_fails_iff (scenario_env ha_refuses) ["A1"; "A2"]
                  settings_path home false Hnd Hv) eq_refl).
Defined.

Lemma validation_all_present_witness :
  value (validate_and_create_required_entities (scenario_env fair)
           ["A1"; "A2"] settings_path home) = Ok true
  /\ http_requests
       (events (validate_and_create_required_entities (scenario_env fair)
                  ["A1"; "A2"] settings_path home))
     = [HttpGet (state_request (JBool false) (JStr "192.168.1.10") (JInt 8123)
                               (JStr "ha-token") "A1");
        HttpGet (state_request (JBool false) (JStr "192.168.1.10") (JInt 8123)
                               (JStr "ha-token") "A2")].
Proof.
  destruct (validation_all_present (scenario_env fair) settings_path options
              (JBool false) (JStr "192.168.1.10") (JInt 8123) (JStr "ha-token")
              (fun s => eq_refl) eq_refl eq_refl eq_refl eq_refl
              ["A1"; "A2"] home) as (Hv & _ & Hr).
  - repeat constructor; intros s; exists entity_answer; split; reflexivity.
  - split; [exact Hv | exact Hr].
Defined.

(** ** The log of the threads *)

Lemma one_log_line_per_failure_witness :
  (forall f s, fst (getapi (scenario_env grid_fails) f token_1 "A1" s)
               = sc_api grid_fails f)
  /\ Permutation
       (logged_errors
          (events (execute_api_calls (scenario_env grid_fails) token_1 "A1" home)))
       [error_fetching "Grid Data" Timeout].
Proof.
  split; [reflexivity|].
  exact (one_log_line_per_failure (scenario_env grid_fails) token_1 "A1"
           (sc_api grid_fails) (fun f s => eq_refl) home).
Defined.

(** ** Runs of [main] *)

Lemma run_without_refresh_rate_witness :
  py_getitem options_without_refresh_rate "Refresh_rate"
  = Raises (KeyError "Refresh_rate")
  /\ value (gettoken (scenario_env fair) home) = Ok token_1
  /\ value (main (scenario_env fair) options_without_refresh_rate ["A1"; "A2"] home)
     = Raise (KeyError "Refresh_rate")
  /\ ~ In script_completed
         (events (main (scenario_env fair) options_without_refresh_rate
                    ["A1"; "A2"] home)).
Proof.
  split; [reflexivity|]. split; [reflexivity|].
  destruct (run_without_refresh_rate (scenario_env fair)
              options_without_refresh_rate home (JStr "api.sunsynk.net")
              (KeyError "Refresh_rate") token_1 "A1" ["A2"]
              eq_refl eq_refl eq_refl eq_refl) as (Hv & _ & _ & Hn).
  split; [exact Hv | exact Hn].
Defined.

Lemma inverters_announced_in_order_witness :
  value (gettoken (scenario_env fair) home) = Ok token_1
  /\ value (main (scenario_env fair) options ["A1"; "A2"] home) = Ok tt
  /\ announced (events (main (scenario_env fair) options ["A1"; "A2"] home))
     = [("A1", 0%Z); ("A2", 0%Z)].
Proof.
  assert (Hv : value (main (scenario_env fair) options ["A1"; "A2"] home) = Ok tt)
    by (vm_compute; reflexivity).
  split; [reflexivity|]. split; [exact Hv|].
  exact (proj2 (inverters_announced_in_order (scenario_env fair) options
                  ["A1"; "A2"] home) token_1 eq_refl eq_refl Hv).
Defined.
